(** * cstore: the store registry and the Harbor store adapter

    A shallow embedding of [components/store/store.go] ([Select]) and
    [components/store/harbor_store.go] ([Pre], [Push], [Pull], [Purge] and
    the HTTP helpers), followed by the properties of the specification
    that concern them.

    Conventions of the embedding.
    - A Go [map[string]T] is a [gmap string T].  Go leaves the order of
      [range] over a map unspecified: the order is supplied by the class
      [GoRuntime], which only promises that every entry is visited once.
    - A Go [error] is a message; [nil] is [None].
    - Code that talks to the outside (HTTP, the vault, the prompt, the
      auth client, the clock, standard output) runs in the monad [Eff]: a
      state monad over an arbitrary world [W] that also records every
      interaction in a trace.  The collaborators themselves are arbitrary
      functions of the world (class [Collaborators], records [IVault] and
      [IStore]).
    - Code that can panic runs in [Exec], which is [Eff] with one more
      outcome: the HTTP helpers drop the error of [http.NewRequest] and
      dereference the request, which is [nil] when the URL is refused. *)

From stdpp Require Import gmap strings list fin_maps.
From Stdlib Require Import ZArith Ascii DecimalString.

Open Scope Z_scope.

(** A Go [error]: [None] is [nil]. *)
Definition error : Type := string.

(** ** The part of Go's [time] package the adapter uses *)

Module GoTime.

(** An instant, by its civil reading in UTC.  [Push] only renders
    [time.Now().UTC()] and [Pull] only stores the instant it parsed, so
    locations and monotonic clock readings are not represented:
    [Time.UTC] drops both. *)
Record Time : Type := mkTime {
  Year : Z; Month : Z; Day : Z;
  Hour : Z; Minute : Z; Second : Z; Nanosecond : Z
}.

#[global] Instance Time_eq_dec : EqDecision Time.
Proof. solve_decision. Defined.

Definition isLeap (year : Z) : bool :=
  (year mod 4 =? 0) && (negb (year mod 100 =? 0) || (year mod 400 =? 0)).

Definition daysIn (month year : Z) : Z :=
  if month =? 2 then (if isLeap year then 29 else 28)
  else if (month =? 4) || (month =? 6) || (month =? 9) || (month =? 11) then 30
  else 31.

(** The instants whose rendering has the fixed shape: a four digit year
    and fields in their calendar ranges. *)
Definition valid (t : Time) : Prop :=
  0 ≤ Year t ≤ 9999 ∧ 1 ≤ Month t ≤ 12 ∧
  1 ≤ Day t ≤ daysIn (Month t) (Year t) ∧
  0 ≤ Hour t < 24 ∧ 0 ≤ Minute t < 60 ∧ 0 ≤ Second t < 60 ∧
  0 ≤ Nanosecond t < 1000000000.

#[global] Instance valid_dec t : Decision (valid t).
Proof. unfold valid. apply _. Defined.

(** *** Rendering *)

Definition digit (d : Z) : ascii := ascii_of_nat (48 + Z.to_nat d).

(** The [w] low decimal digits of [u], most significant first. *)
Fixpoint fixed_digits (w : nat) (u : Z) : string :=
  match w with
  | O => ""
  | S w' => fixed_digits w' (u / 10) +:+ String (digit (u mod 10)) ""
  end.

Fixpoint zeros (n : nat) : string :=
  match n with O => "" | S n' => String "0" (zeros n') end.

Definition decimal (u : Z) : string :=
  NilZero.string_of_uint (N.to_uint (Z.to_N u)).

(** [appendInt]: the decimal form of [x], padded with zeros to [width]. *)
Definition appendInt (x : Z) (width : nat) : string :=
  if decide (0 ≤ x < 10 ^ Z.of_nat width) then fixed_digits width x
  else
    let ds := decimal (Z.abs x) in
    (if x <? 0 then "-" else "") +:+
    zeros (width - String.length ds) +:+ ds.

(** [s] without its trailing zeros. *)
Fixpoint trim_zeros (s : string) : string :=
  match s with
  | "" => ""
  | String c r =>
      match trim_zeros r with
      | "" => if decide (c = "0"%char) then "" else String c ""
      | r' => String c r'
      end
  end.

(** The layout element [.999999999]: nothing for a whole second,
    otherwise the nine digits without their trailing zeros. *)
Definition appendNano (nanosec : Z) : string :=
  if nanosec =? 0 then ""
  else "." +:+ trim_zeros (appendInt nanosec 9).

(** [t.UTC().String()]: [Format] with the layout
    ["2006-01-02 15:04:05.999999999 -0700 MST"]; a time in UTC carries no
    monotonic reading, so nothing is appended. *)
Definition UTC_String (t : Time) : string :=
  appendInt (Year t) 4 +:+ "-" +:+ appendInt (Month t) 2 +:+ "-" +:+
  appendInt (Day t) 2 +:+ " " +:+ appendInt (Hour t) 2 +:+ ":" +:+
  appendInt (Minute t) 2 +:+ ":" +:+ appendInt (Second t) 2 +:+
  appendNano (Nanosecond t) +:+ " " +:+ "+0000" +:+ " " +:+ "UTC".

(** *** Parsing with the layout of [UTC_String]

    [time.Parse] specialised to the layout
    ["2006-01-02 15:04:05.999999999 -0700 MST"], whose elements are, in
    order: [2006], ["-"], [01], ["-"], [02], [" "], [15], [":"], [04],
    [":"], [05], [.999999999], [" "], [-0700], [" "], [MST]. *)

Definition isDigit (c : ascii) : bool :=
  (48 <=? nat_of_ascii c)%nat && (nat_of_ascii c <=? 57)%nat.

Definition digit_val (c : ascii) : Z := Z.of_nat (nat_of_ascii c) - 48.

Fixpoint all_digits (s : string) : bool :=
  match s with
  | "" => true
  | String c r => isDigit c && all_digits r
  end.

(** [getnum]: one or two digits, exactly two when [fixed]. *)
Definition getnum (s : string) (fixed : bool) : option (Z * string) :=
  match s with
  | String c0 rest =>
      if isDigit c0 then
        match rest with
        | String c1 rest' =>
            if isDigit c1 then Some (digit_val c0 * 10 + digit_val c1, rest')
            else if fixed then None else Some (digit_val c0, rest)
        | "" => if fixed then None else Some (digit_val c0, rest)
        end
      else None
  | "" => None
  end.

Fixpoint leadingInt (s : string) (x : Z) : Z * string :=
  match s with
  | String c rest =>
      if isDigit c then leadingInt rest (x * 10 + digit_val c) else (x, s)
  | "" => (x, "")
  end.

(** [atoi]: an optional sign and digits, nothing else. *)
Definition atoi (s : string) : option Z :=
  let '(neg, s') :=
    match s with
    | String "-" r => (true, r)
    | String "+" r => (false, r)
    | _ => (false, s)
    end in
  match leadingInt s' 0 with
  | (q, "") => Some (if neg : bool then - q else q)
  | _ => None
  end.

Fixpoint cutspace (s : string) : string :=
  match s with String " " r => cutspace r | _ => s end.

(** [skip]: consume the literal [prefix]; a run of spaces in the layout
    matches any run of spaces, or the end of the value.  [inrun] says
    that the spaces of the value were already cut for this run. *)
Fixpoint skip_from (inrun : bool) (value prefix : string) : option string :=
  match prefix with
  | "" => Some value
  | String p ps =>
      if decide (p = " "%char) then
        if inrun then skip_from true value ps
        else
          match value with
          | String v _ =>
              if decide (v = " "%char) then skip_from true (cutspace value) ps
              else None
          | "" => skip_from true value ps
          end
      else
        match value with
        | String v vs => if decide (v = p) then skip_from false vs ps else None
        | "" => None
        end
  end.

Definition skip (value prefix : string) : option string :=
  skip_from false value prefix.

Fixpoint span_digits (s : string) : string * string :=
  match s with
  | String c rest =>
      if isDigit c then let '(ds, r) := span_digits rest in (String c ds, r)
      else ("", s)
  | "" => ("", "")
  end.

Definition commaOrPeriod (c : ascii) : bool :=
  bool_decide (c = "."%char) || bool_decide (c = ","%char).

(** The slices [s[:n]] and [s[n:]], for [n] within the length. *)
Fixpoint substring_to (n : nat) (s : string) : string :=
  match n, s with
  | S n', String c r => String c (substring_to n' r)
  | _, _ => ""
  end.

Fixpoint substring_from (n : nat) (s : string) : string :=
  match n, s with
  | S n', String _ r => substring_from n' r
  | _, _ => s
  end.

(** The element [.999999999]: when the value goes on with a separator
    and a digit, all the digits that follow are consumed and the first
    nine of them are scaled to nanoseconds; otherwise the fraction is
    taken as omitted. *)
Definition parseFraction (value : string) : option (Z * string) :=
  match value with
  | String sep (String d _ as after) =>
      if commaOrPeriod sep && isDigit d then
        let '(ds, rest) := span_digits after in
        let ds9 := substring_to 9 ds in
        ns ← atoi ds9;
        Some (ns * 10 ^ Z.of_nat (9 - String.length ds9), rest)
      else Some (0, value)
  | _ => Some (0, value)
  end.

Definition in_range (lo x hi : Z) : option unit :=
  if decide (lo ≤ x ≤ hi) then Some () else None.

(** The calendar part of the value, up to and including the fraction:
    the fields, and what is left of the value. *)
Definition parseCivil (value : string) : option (Time * string) :=
  match value with
  | String c _ =>
      if isDigit c then
        _ ← (if decide (4 ≤ String.length value)%nat then Some () else None);
        year ← atoi (substring_to 4 value);
        let value := substring_from 4 value in
        value ← skip value "-";
        '(month, value) ← getnum value true;
        _ ← in_range 1 month 12;
        value ← skip value "-";
        '(day, value) ← getnum value true;
        value ← skip value " ";
        '(hour, value) ← getnum value false;
        _ ← in_range 0 hour 23;
        value ← skip value ":";
        '(minute, value) ← getnum value true;
        _ ← in_range 0 minute 59;
        value ← skip value ":";
        '(sec, value) ← getnum value true;
        _ ← in_range 0 sec 59;
        '(nsec, value) ← parseFraction value;
        Some (mkTime year month day hour minute sec nsec, value)
      else None
  | "" => None
  end.

(** The zone part of the value: [UTCZone] when it reads as a numeric
    offset in range followed by the name UTC and nothing else (the
    instant is then the civil reading itself, whatever the offset says);
    [ForeignZone] when the text is well formed so far but names another
    zone or an offset out of range; [BadZone] when the parser rejects
    it. *)
Inductive zone : Type := UTCZone | ForeignZone | BadZone.

Definition parseZone (value : string) : zone :=
  match skip value " " with
  | Some (String sign (String h1 (String h2 (String m1 (String m2 value'))))) =>
      if bool_decide (sign = "+"%char) || bool_decide (sign = "-"%char) then
        match getnum (String h1 (String h2 "")) true,
              getnum (String m1 (String m2 "")) true with
        | Some (hr, _), Some (mm, _) =>
            match skip value' " " with
            | Some (String "U" (String "T" (String "C" rest))) =>
                if decide (hr ≤ 24 ∧ mm ≤ 60) then
                  match rest with "" => UTCZone | _ => BadZone end
                else ForeignZone
            | Some _ => ForeignZone
            | None => BadZone
            end
        | _, _ => BadZone
        end
      else BadZone
  | _ => BadZone
  end.

(** [time.Parse(modifiedLayout, value)], [None] for an error.
    [foreignZone] stands for what the parser does with a zone other than
    UTC (looking the abbreviation up and shifting by the offset), which
    this development leaves open. *)
Definition Parse_modifiedLayout
    (foreignZone : Time → string → option Time) (value : string) : option Time :=
  '(t, zoneText) ← parseCivil value;
  match parseZone zoneText with
  | BadZone => None
  | UTCZone =>
      if decide (1 ≤ Day t ≤ daysIn (Month t) (Year t)) then Some t else None
  | ForeignZone =>
      if decide (1 ≤ Day t ≤ daysIn (Month t) (Year t))
      then foreignZone t zoneText else None
  end.

End GoTime.


(** ** Effects: a state monad over the outside world, with a trace *)

Section Effects.
Context {W Ev : Type}.

(** The state of a run: the world the collaborators act on, and the
    interactions performed so far, oldest first. *)
Record Run : Type := mkRun { world : W; trace : list Ev }.

Definition Eff (A : Type) : Type := Run → A * Run.

Definition ret {A} (a : A) : Eff A := λ r, (a, r).

Definition bind {A B} (m : Eff A) (k : A → Eff B) : Eff B :=
  λ r, let '(a, r') := m r in k a r'.

(** One interaction: the collaborator answers, and the call is recorded
    with its answer. *)
Definition perform {A} (ev : A → Ev) (f : W → A * W) : Eff A :=
  λ r, let '(a, w') := f (world r) in (a, mkRun w' (trace r ++ [ev a])).

(** How a call ends: it returns, or it panics. *)
Inductive Outcome (A : Type) : Type :=
| Returned (a : A)
| Panicked.

(** Code that can panic.  A panic ends the run where it happens: what
    was done before stays done, and nothing follows. *)
Definition Exec (A : Type) : Type := Run → Outcome A * Run.

Definition returns {A} (a : A) : Exec A := λ r, (Returned A a, r).

Definition panic {A} : Exec A := λ r, (Panicked A, r).

Definition andThen {A B} (m : Exec A) (k : A → Exec B) : Exec B :=
  λ r, match m r with
       | (Returned _ a, r') => k a r'
       | (Panicked _, r') => (Panicked B, r')
       end.

Definition lift {A} (m : Eff A) : Exec A :=
  λ r, let '(a, r') := m r in (Returned A a, r').

End Effects.

Arguments Run : clear implicits.
Arguments Eff : clear implicits.
Arguments Exec : clear implicits.
Arguments Returned {A}.
Arguments Panicked {A}.

Notation "'let!' x ':=' m 'in' k" := (bind m (λ x, k))
  (at level 10, x pattern, m at level 100, k at level 200,
   format "'[v' 'let!'  x  ':='  m  'in' '/' k ']'").

Notation "'do!' x ':=' m 'in' k" := (andThen m (λ x, k))
  (at level 10, x pattern, m at level 100, k at level 200,
   format "'[v' 'do!'  x  ':='  m  'in' '/' k ']'").

(** ** Go's unspecified iteration order over a map *)

Class GoRuntime : Type := {
  go_range : ∀ {V : Type}, gmap string V → list (string * V);
  go_range_perm : ∀ (V : Type) (m : gmap string V), go_range m ≡ₚ map_to_list m
}.

(** ** The catalog entry of a file *)

Module catalog.
Record File : Type := mkFile {
  Path : string;
  Store : string;
  Type_ : string;
  IsEnv : bool;
  Data : gmap string string
}.

(** *** Saving the catalog *)

Definition LF : string := String "010" "".

(** The header [Write] puts before the document. *)
Definition comment : string :=
  "# This catalog lists files stored remotely based on the files current location." +:+ LF +:+
  "# To restore the files, run '$ cstore pull' in the same directory as this catalog file." +:+ LF +:+
  "# If this file is deleted without running a purge command, the stores contents will be orphaned " +:+ LF +:+
  "# with no way to recover. To get set up, visit https://github.com/turnerlabs/cstore." +:+ LF.

(** The permission bits [0644]. *)
Definition perm0644 : Z := 6 * 64 + 4 * 8 + 4.

(** The one interaction of [Write], with its answer. *)
Inductive Event : Type :=
| EvWriteFile (filename data : string) (perm : Z) (err : option error).

Section Write.
Context {W Catalog : Type}.
Context (yaml_Marshal : Catalog → error + string).
Context (ioutil_WriteFile : string → string → Z → W → option error * W).

Definition Write (path : string) (clog : Catalog) : Eff W Event (option error) :=
  match yaml_Marshal clog with
  | inl err => ret (Some err)
  | inr d =>
      let d := comment +:+ d in
      perform (EvWriteFile path d perm0644) (ioutil_WriteFile path d perm0644)
  end.

End Write.

(** [encoding/hex] *)
Definition hextable : string := "0123456789abcdef".

Definition hexDigit (i : N) : ascii :=
  default "0"%char (String.get (N.to_nat i) hextable).

Fixpoint EncodeToString (src : list Byte.byte) : string :=
  match src with
  | [] => ""
  | v :: rest =>
      String (hexDigit (N.shiftr (Byte.to_N v) 4))
        (String (hexDigit (N.land (Byte.to_N v) 15)) (EncodeToString rest))
  end.

Section hashPath.
(** The digest of a hasher fed with the bytes given. *)
Context (md5_Sum : list Byte.byte → list Byte.byte).

Definition hashPath (path : string) : string :=
  EncodeToString (md5_Sum (String.list_byte_of_string path)).

End hashPath.

(** *** Reading what was written *)

(** The text after its first [n] lines. *)
Fixpoint skipLines (n : nat) (s : string) : string :=
  match n with
  | O => s
  | S n' =>
      (fix skip (s : string) : string :=
         match s with
         | "" => ""
         | String c r => if decide (c = "010"%char) then skipLines n' r else skip r
         end) s
  end.

(** The value of a hexadecimal digit. *)
Definition hexValue (c : ascii) : option N :=
  p ← list_find (λ d, d = c) (String.list_ascii_of_string hextable);
  Some (N.of_nat p.1).

(** [hex.DecodeString], on texts of even length. *)
Fixpoint DecodeString (s : string) : option (list Byte.byte) :=
  match s with
  | "" => Some []
  | String h (String l rest) =>
      a ← hexValue h; b ← hexValue l;
      v ← Byte.of_N (16 * a + b);
      bs ← DecodeString rest;
      Some (v :: bs)
  | _ => None
  end.

End catalog.

(** ** net/http, as far as the adapter uses it *)

Module http.

Inductive Method : Type := GET | POST | PUT | DELETE.

#[global] Instance Method_eq_dec : EqDecision Method.
Proof. solve_decision. Defined.

Definition StatusOK : Z := 200.
Definition StatusCreated : Z := 201.

(** A request whose body, when there is one, is the JSON encoding of a
    value of type [B]. *)
Record Request (B : Type) : Type := mkRequest {
  Method_ : Method;
  URL : string;
  Header : list (string * string);
  Body : option B
}.
Arguments mkRequest {B}.
Arguments Method_ {B}.
Arguments URL {B}.
Arguments Header {B}.
Arguments Body {B}.

(** A response; [Decoded] is what [json.NewDecoder(resp.Body).Decode]
    makes of the body, for a target of type [D]. *)
Record Response (D : Type) : Type := mkResponse {
  StatusCode : Z;
  Status : string;
  Decoded : error + D
}.
Arguments mkResponse {D}.
Arguments StatusCode {D}.
Arguments Status {D}.
Arguments Decoded {D}.

End http.

(** ** harbor_store.go *)

Module Harbor.
Import GoTime.

Definition authURL : string := "http://auth.services.dmtio.net".
Definition shipURL : string := "http://shipit.services.dmtio.net".

Definition tokenToken : string := "HARBOR_TOKEN".
Definition userToken : string := "HARBOR_USER".
Definition passToken : string := "HARBOR_PASS".

Definition shipmentToken : string := "HARBOR_SHIPMENT".
Definition containerToken : string := "HARBOR_CONTAINER".
Definition envToken : string := "HARBOR_ENV".

Definition modifiedToken : string := "CSTORE_MODIFIED".
Definition modifiedLayout : string := "2006-01-02 15:04:05.999999999 -0700 MST".

Definition envTypeBasic : string := "basic".
Definition envTypeDiscover : string := "discover".
Definition envTypeHidden : string := "hidden".

Definition LF : string := String "010" "".

(** What the package declares outside [harbor_store.go] and this file
    uses: the marker of a plain environment variable and the function
    that turns a key into the key of its entry in [file.Data]. *)
Class Package : Type := {
  envVarType : string;
  addEnvVarPrefix : string → string
}.

(** Library functions the adapter calls and this development leaves
    open: [gotenv.Parse]; the zones [time.Parse] resolves (see
    [GoTime.Parse_modifiedLayout]); and the error with which
    [http.NewRequest] refuses a method and a URL, [None] when it builds
    the request. *)
Class Libraries : Type := {
  gotenv_Parse : string → gmap string string;
  time_foreignZone : Time → string → option Time;
  http_NewRequest : http.Method → string → option error
}.

Record HarborAuth : Type := mkAuth { User : string; Token : string }.

Record HarborShipment : Type := mkShipment {
  Name : string; Container : string; Env : string
}.

(** The store; its [Vault] field is not used by the methods below. *)
Record HarborStore : Type := mkStore {
  Auth : HarborAuth;
  Shipment : HarborShipment
}.

Record pair : Type := mkPair {
  pair_Name : string; pair_Value : string; pair_Type : string
}.

Record harborKey : Type := mkKey { value : string; vType : string }.

Record HEnvVar : Type := mkEnvVar {
  HEnvVar_Name : string; HEnvVar_Value : string; HEnvVar_Type : string
}.

Record HContainers : Type := mkContainers {
  HContainers_Name : string; EnvVars : list HEnvVar
}.

Record HShipment : Type := mkHShipment { Containers : list HContainers }.

Record Attributes : Type := mkAttributes { LastModified : Time }.

#[global] Instance pair_eq_dec : EqDecision pair.
Proof. solve_decision. Defined.

#[global] Instance harborKey_eq_dec : EqDecision harborKey.
Proof. solve_decision. Defined.

Abbreviation Request := (http.Request pair).
Abbreviation Response := (http.Response HShipment).

(** The interactions of the adapter with the outside, each with the
    answer it got. *)
Inductive Event : Type :=
| EvHTTP (req : Request) (answer : error + Response)
| EvStdout (text : string)
| EvNow (t : Time)
| EvNewAuthClient (url : string) (err : option error)
| EvIsAuthenticated (user token : string) (answer : bool * option error)
| EvLogin (user pass : string) (answer : string * bool * option error)
| EvVaultGet (contextID key : string) (answer : string * option error)
| EvVaultSet (contextID key val : string) (err : option error)
| EvPrompt (name : string) (secret : bool) (answer : string).

(** [vault.IVault] *)
Record IVault (W : Type) : Type := mkVault {
  Get : string → string → string → string → bool → W → (string * option error) * W;
  Set_ : string → string → string → W → option error * W
}.
Arguments Get {W}.
Arguments Set_ {W}.

(** The collaborators reached through packages rather than arguments:
    the HTTP transport, the clock, the harbor auth client and the
    prompt. *)
Class Collaborators (W : Type) : Type := {
  client_Do : Request → W → (error + Response) * W;
  time_Now : W → Time * W;
  harborauth_NewAuthClient : string → W → option error * W;
  client_IsAuthenticated : string → string → W → (bool * option error) * W;
  client_Login : string → string → W → (string * bool * option error) * W;
  prompt_GetValFromUser : string → string → string → bool → W → string * W
}.

Section Methods.
Context {W : Type} {RT : GoRuntime} {Pk : Package} {Lb : Libraries}
        {Co : Collaborators W}.

Abbreviation M := (Eff W Event).
Abbreviation P := (Exec W Event).

Definition Do (req : Request) : M (error + Response) :=
  perform (EvHTTP req) (client_Do req).

Definition Now : M Time := perform EvNow time_Now.

Definition Printf (text : string) : M unit :=
  perform (λ _, EvStdout text) (λ w, ((), w)).

Definition GetValFromUser (name a b : string) (secret : bool) : M string :=
  perform (EvPrompt name secret) (prompt_GetValFromUser name a b secret).

Definition headers (auth : HarborAuth) : list (string * string) :=
  [("x-token", Token auth); ("x-username", User auth);
   ("Content-Type", "application/json")].

Definition buildURL (shipment : HarborShipment) : string :=
  shipURL +:+ "/v1/shipment/" +:+ Name shipment +:+ "/environment/" +:+
  Env shipment +:+ "/container/" +:+ Container shipment.

(** The three helpers share their ending: a transport error is
    returned as it is, a status other than the expected one becomes an
    error carrying the status text. *)
Definition expectStatus (want : Z) (r : error + Response) : option error :=
  match r with
  | inl err => Some err
  | inr resp =>
      if decide (http.StatusCode resp ≠ want) then Some (http.Status resp)
      else None
  end.

(** The requests the helpers send, when [http.NewRequest] builds them. *)
Definition createRequest (p : pair) (url : string) (auth : HarborAuth) : Request :=
  http.mkRequest http.POST (url +:+ "/envVars") (headers auth) (Some p).

Definition updateRequest (p : pair) (url : string) (auth : HarborAuth) : Request :=
  http.mkRequest http.PUT (url +:+ "/envVar/" +:+ pair_Name p) (headers auth) (Some p).

Definition deleteRequest (key url : string) (auth : HarborAuth) : Request :=
  http.mkRequest http.DELETE (url +:+ "/envVar/" +:+ key) (headers auth) None.

Definition getRequest (shipment : HarborShipment) (auth : HarborAuth) : Request :=
  http.mkRequest http.GET
    (shipURL +:+ "/v1/shipment/" +:+ Name shipment +:+ "/environment/" +:+
     Env shipment)
    (headers auth) None.

(** [http.NewRequest]: the request, or [nil] and an error. *)
Definition NewRequest (method : http.Method) (url : string) (body : option pair)
    : option Request * option error :=
  match http_NewRequest method url with
  | Some err => (None, Some err)
  | None => (Some (http.mkRequest method url [] body), None)
  end.

(** The three calls of [req.Header.Add] that follow [http.NewRequest] in
    each helper.  The helpers do not look at the error of [NewRequest]:
    when the request is [nil], the first of these calls dereferences it
    and the program panics. *)
Definition addHeaders (req : option Request) (auth : HarborAuth) : P Request :=
  match req with
  | None => panic
  | Some req =>
      returns (http.mkRequest (http.Method_ req) (http.URL req)
                 (http.Header req ++ headers auth) (http.Body req))
  end.

(** A request [http.NewRequest] builds. *)
Definition accepted (req : Request) : Prop :=
  http_NewRequest (http.Method_ req) (http.URL req) = None.

#[global] Instance accepted_dec req : Decision (accepted req).
Proof. unfold accepted. apply _. Defined.

Definition createKey (p : pair) (url : string) (auth : HarborAuth) : P (option error) :=
  let '(req, _) := NewRequest http.POST (url +:+ "/envVars") (Some p) in
  do! req := addHeaders req auth in
  do! r := lift (Do req) in
  returns (expectStatus http.StatusCreated r).

Definition updateKey (p : pair) (url : string) (auth : HarborAuth) : P (option error) :=
  let '(req, _) := NewRequest http.PUT (url +:+ "/envVar/" +:+ pair_Name p) (Some p) in
  do! req := addHeaders req auth in
  do! r := lift (Do req) in
  returns (expectStatus http.StatusOK r).

Definition deleteKey (key url : string) (auth : HarborAuth) : P (option error) :=
  let '(req, _) := NewRequest http.DELETE (url +:+ "/envVar/" +:+ key) None in
  do! req := addHeaders req auth in
  do! r := lift (Do req) in
  returns (expectStatus http.StatusOK r).

(** The variables of the containers named [container], later ones
    replacing earlier ones of the same name.  (With an error the
    source returns the [nil] map, which reads as the empty one.) *)
Definition collectEnvVars (container : string) (s : HShipment) : gmap string harborKey :=
  foldl (λ envVars c,
           if decide (HContainers_Name c = container) then
             foldl (λ envVars envVar,
                      <[HEnvVar_Name envVar :=
                          mkKey (HEnvVar_Value envVar) (HEnvVar_Type envVar)]> envVars)
                   envVars (EnvVars c)
           else envVars)
        ∅ (Containers s).

(** What [getHarborKeys] makes of the answer to its request. *)
Definition decodeKeys (container : string) (r : error + Response)
    : gmap string harborKey * option error :=
  match r with
  | inl err => (∅, Some err)
  | inr resp =>
      if decide (http.StatusCode resp ≠ http.StatusOK)
      then (∅, Some (http.Status resp))
      else
        match http.Decoded resp with
        | inl err => (∅, Some err)
        | inr s => (collectEnvVars container s, None)
        end
  end.

Definition getHarborKeys (shipment : HarborShipment) (auth : HarborAuth)
    : P (gmap string harborKey * option error) :=
  let '(req, _) :=
    NewRequest http.GET
      (shipURL +:+ "/v1/shipment/" +:+ Name shipment +:+ "/environment/" +:+
       Env shipment) None in
  do! req := addHeaders req auth in
  do! r := lift (Do req) in
  returns (decodeKeys (Container shipment) r).

Definition isEnvVarType (envVarType : string) : bool :=
  if decide (envVarType = envTypeBasic) then true
  else if decide (envVarType = envTypeDiscover) then true
  else if decide (envVarType = envTypeHidden) then true
  else false.

Definition NewAuthClient (url : string) : M (option error) :=
  perform (EvNewAuthClient url) (harborauth_NewAuthClient url).

Definition IsAuthenticated (user token : string) : M (bool * option error) :=
  perform (EvIsAuthenticated user token) (client_IsAuthenticated user token).

Definition Login (user pass : string) : M (string * bool * option error) :=
  perform (EvLogin user pass) (client_Login user pass).

Definition vaultGet (cv : IVault W) (contextID key : string) : M (string * option error) :=
  perform (EvVaultGet contextID key) (Get cv contextID key "" "" false).

Definition vaultSet (cv : IVault W) (contextID key val : string) : M (option error) :=
  perform (EvVaultSet contextID key val) (Set_ cv contextID key val).

(** The interactive branch of [Pre], entered when the cached pair is
    missing or not authenticated.  [inl] is an early [return]: the
    fields of [s.Auth] at that point, and the returned error. *)
Definition login (cv : IVault W) (contextID : string) (cachedToken : string)
    : M (HarborAuth * option error + HarborAuth) :=
  let! user := GetValFromUser userToken "" "" false in
  let! pass := GetValFromUser passToken "" "" true in
  let! (token, success, err) := Login user pass in
  if bool_decide (err ≠ None) || negb success then
    ret (inl (mkAuth user cachedToken, err))
  else
    let! err := vaultSet cv contextID userToken user in
    match err with
    | Some e => ret (inl (mkAuth user cachedToken, Some e))
    | None =>
        let! err := vaultSet cv contextID tokenToken token in
        match err with
        | Some e => ret (inl (mkAuth user cachedToken, Some e))
        | None => ret (inr (mkAuth user token))
        end
    end.

(** A coordinate of the shipment: from [file.Data] when it is there,
    asked of the user otherwise. *)
Definition coordinate (file : catalog.File) (token : string) : M string :=
  match catalog.Data file !! token with
  | Some v => ret v
  | None => GetValFromUser token "" "" false
  end.

(** [Pre] has a pointer receiver: the store it leaves behind is
    returned along with the error. *)
Definition Pre (s : HarborStore) (contextID : string) (file : catalog.File)
    (cv ev : IVault W) (promptUser : bool) : M (HarborStore * option error) :=
  let! err := NewAuthClient authURL in
  match err with
  | Some e => ret (s, Some e)
  | None =>
      let! (val, err) := vaultGet cv contextID userToken in
      let user := if err is None then val else "" in
      let! (val, err) := vaultGet cv contextID tokenToken in
      let token := if err is None then val else "" in
      let! isAuth :=
        (if bool_decide (0 < String.length token)%nat &&
            bool_decide (0 < String.length user)%nat
         then let! (isAuth, _) := IsAuthenticated user token in ret isAuth
         else ret false) in
      let! r := (if isAuth then ret (inr (mkAuth user token))
                 else login cv contextID token) in
      match r with
      | inl (auth, err) => ret (mkStore auth (mkShipment "" "" ""), err)
      | inr auth =>
          let! name := coordinate file shipmentToken in
          let! container := coordinate file containerToken in
          let! env := coordinate file envToken in
          ret (mkStore auth (mkShipment name container env), None)
      end
  end.

(** The classification [Push] gives a key, from the entry of its
    prefixed form in [file.Data]. *)
Definition keyTypeOf (file : catalog.File) (prefixedKey : string) : string :=
  match catalog.Data file !! prefixedKey with
  | Some storedKeyType =>
      if decide (storedKeyType ≠ envVarType) then storedKeyType
      else envTypeHidden
  | None => envTypeHidden
  end.

(** The pair [Push] sends for a local key. *)
Definition pairOf (file : catalog.File) (key val : string) : pair :=
  mkPair key val (keyTypeOf file (addEnvVarPrefix key)).

(** The first loop of [Push], over the local keys in the order of
    [range]: the metadata so far, and the error that ended the loop. *)
Fixpoint upsertKeys (file : catalog.File) (url : string) (auth : HarborAuth)
    (localKeys : list (string * string)) (data : gmap string string)
    : P (gmap string string * option error) :=
  match localKeys with
  | [] => returns (data, None)
  | (key, val) :: rest =>
      let prefixedKey := addEnvVarPrefix key in
      let keyType := keyTypeOf file prefixedKey in
      let p := pairOf file key val in
      do! err := createKey p url auth in
      do! err := (if err is Some _ then updateKey p url auth else returns None) in
      match err with
      | Some e => returns (data, Some e)
      | None => upsertKeys file url auth rest (<[prefixedKey := keyType]> data)
      end
  end.

(** The second loop of [Push], over the remote keys. *)
Fixpoint deleteKeys (file : catalog.File) (url : string) (auth : HarborAuth)
    (localKeys : gmap string string) (harborKeys : list (string * harborKey))
    : P (option error) :=
  match harborKeys with
  | [] => returns None
  | (key, _) :: rest =>
      let prefixedKey := addEnvVarPrefix key in
      if bool_decide (is_Some (catalog.Data file !! prefixedKey)) &&
         bool_decide (localKeys !! key = None)
      then
        do! _ := lift (Printf (LF +:+ "deleting " +:+ key)) in
        do! err := deleteKey key url auth in
        match err with
        | Some e => returns (Some e)
        | None => deleteKeys file url auth localKeys rest
        end
      else deleteKeys file url auth localKeys rest
  end.

(** The keys of the file as [Push] sees them: the parsed ones and the
    time stamp. *)
Definition localKeysAt (fileData : string) (now : Time) : gmap string string :=
  <[modifiedToken := UTC_String now]> (gotenv_Parse fileData).

Definition coordinates (s : HarborStore) : gmap string string :=
  <[envToken := Env (Shipment s)]>
    (<[containerToken := Container (Shipment s)]>
       (<[shipmentToken := Name (Shipment s)]> ∅)).

Definition Push (s : HarborStore) (contextKey : string) (file : catalog.File)
    (fileData : string) : P (gmap string string * bool * option error) :=
  let data := coordinates s in
  do! now := lift Now in
  let localKeys := localKeysAt fileData now in
  let url := buildURL (Shipment s) in
  do! (data, err) := upsertKeys file url (Auth s) (go_range localKeys) data in
  match err with
  | Some e => returns (data, false, Some e)
  | None =>
      do! (harborKeys, err) := getHarborKeys (Shipment s) (Auth s) in
      match err with
      | Some e => returns (data, false, Some e)
      | None =>
          do! err := deleteKeys file url (Auth s) localKeys (go_range harborKeys) in
          match err with
          | Some e => returns (data, false, Some e)
          | None => returns (data, false, None)
          end
      end
  end.

(** The loop of [Pull]: the buffer after the lines of [keys]. *)
Fixpoint writeLines (file : catalog.File) (keys : list (string * harborKey))
    (buffer : string) : string :=
  match keys with
  | [] => buffer
  | (key, contents) :: rest =>
      if decide (key = modifiedToken) then writeLines file rest buffer
      else if decide (is_Some (catalog.Data file !! addEnvVarPrefix key)) then
        writeLines file rest (buffer +:+ (key +:+ "=" +:+ value contents +:+ LF))
      else writeLines file rest buffer
  end.

(** The zero [Time], of the zero [Attributes] returned with an error. *)
Definition zeroTime : Time := mkTime 1 1 1 0 0 0 0.

Definition Pull (s : HarborStore) (contextKey : string) (file : catalog.File)
    : P (string * Attributes * option error) :=
  do! (keys, err) := getHarborKeys (Shipment s) (Auth s) in
  match err with
  | Some e => returns ("", mkAttributes zeroTime, Some e)
  | None =>
      let buffer := writeLines file (go_range keys) "" in
      do! now := lift Now in
      let attr :=
        match keys !! modifiedToken with
        | Some modified =>
            match Parse_modifiedLayout time_foreignZone (value modified) with
            | Some m => mkAttributes m
            | None => mkAttributes now
            end
        | None => mkAttributes now
        end in
      returns (buffer, attr, None)
  end.

(** The loop of [Purge], over the entries of [file.Data]. *)
Fixpoint purgeKeys (url : string) (auth : HarborAuth)
    (entries : list (string * string)) : P (option error) :=
  match entries with
  | [] => returns None
  | (key, val) :: rest =>
      if isEnvVarType val then
        do! err := deleteKey key url auth in
        match err with
        | Some e => returns (Some e)
        | None => purgeKeys url auth rest
        end
      else purgeKeys url auth rest
  end.

Definition Purge (s : HarborStore) (contextKey : string) (file : catalog.File)
    : P (option error) :=
  let url := buildURL (Shipment s) in
  purgeKeys url (Auth s) (go_range (catalog.Data file)).

End Methods.

(** *** Reading a trace *)

(** The HTTP exchanges of method [m], in order. *)
Definition exchanges (m : http.Method) (evs : list Event)
    : list (Request * (error + Response)) :=
  omap (λ ev, match ev with
              | EvHTTP req a =>
                  if decide (http.Method_ req = m) then Some (req, a) else None
              | _ => None
              end) evs.

Definition sent (m : http.Method) (evs : list Event) : list Request :=
  (exchanges m evs).*1.

(** An answer the helpers take for a success: a response with the
    status they expect. *)
Definition succeeded (want : Z) (a : error + Response) : Prop :=
  expectStatus want a = None.

#[global] Instance succeeded_dec want a : Decision (succeeded want a).
Proof. unfold succeeded. apply _. Defined.

(** The answer a trace shows to the first fetch in it. *)
Definition fetchAnswer (evs : list Event) : error + Response :=
  default (inl "") (snd <$> head (exchanges http.GET evs)).

(** The key [getHarborKeys] keeps of a variable of the service. *)
Definition variable (v : HEnvVar) : harborKey :=
  mkKey (HEnvVar_Value v) (HEnvVar_Type v).

(** The entries of [file.Data] that [Purge] acts on. *)
Definition classified (entry : string * string) : Prop :=
  isEnvVarType entry.2 = true.

#[global] Instance classified_dec entry : Decision (classified entry).
Proof. unfold classified. apply _. Defined.

(** The names of the keys a trace shows as written: created, or updated
    after a refused creation. *)
Definition upserted (evs : list Event) : list string :=
  omap (λ ev, match ev with
              | EvHTTP req a =>
                  match http.Method_ req, http.Body req with
                  | http.POST, Some p =>
                      if decide (succeeded http.StatusCreated a)
                      then Some (pair_Name p) else None
                  | http.PUT, Some p =>
                      if decide (succeeded http.StatusOK a)
                      then Some (pair_Name p) else None
                  | _, _ => None
                  end
              | _ => None
              end) evs.

Section Loops.
Context {RT : GoRuntime} {Pk : Package} {Lb : Libraries}.

(** The keys a [Push] removes from the service: fetched, claimed by
    the old [file.Data], and no longer local. *)
Definition orphan (file : catalog.File) (localKeys : gmap string string)
    (key : string) : Prop :=
  is_Some (catalog.Data file !! addEnvVarPrefix key) ∧ localKeys !! key = None.

#[global] Instance orphan_dec file localKeys key :
  Decision (orphan file localKeys key).
Proof. unfold orphan. apply _. Defined.

(** The runs of the first loop of [Push]: from the keys still to do
    and the metadata so far, the exchanges, the metadata at the end and
    the error. *)
Inductive Upserts (file : catalog.File) (url : string) (auth : HarborAuth)
  : list (string * string) → gmap string string → list Event →
    gmap string string → option error → Prop :=
| Upserts_nil data : Upserts file url auth [] data [] data None
| Upserts_created key val rest data a evs data' err :
    succeeded http.StatusCreated a →
    Upserts file url auth rest
      (<[addEnvVarPrefix key := keyTypeOf file (addEnvVarPrefix key)]> data)
      evs data' err →
    Upserts file url auth ((key, val) :: rest) data
      (EvHTTP (createRequest (pairOf file key val) url auth) a :: evs) data' err
| Upserts_updated key val rest data a a' evs data' err :
    ¬ succeeded http.StatusCreated a →
    succeeded http.StatusOK a' →
    Upserts file url auth rest
      (<[addEnvVarPrefix key := keyTypeOf file (addEnvVarPrefix key)]> data)
      evs data' err →
    Upserts file url auth ((key, val) :: rest) data
      (EvHTTP (createRequest (pairOf file key val) url auth) a ::
       EvHTTP (updateRequest (pairOf file key val) url auth) a' :: evs) data' err
| Upserts_failed key val rest data a a' e :
    ¬ succeeded http.StatusCreated a →
    expectStatus http.StatusOK a' = Some e →
    Upserts file url auth ((key, val) :: rest) data
      [EvHTTP (createRequest (pairOf file key val) url auth) a;
       EvHTTP (updateRequest (pairOf file key val) url auth) a'] data (Some e).

(** The runs of the second loop of [Push]: from the remote keys still
    to do, the exchanges and the error. *)
Inductive Deletes (file : catalog.File) (url : string) (auth : HarborAuth)
    (localKeys : gmap string string)
  : list (string * harborKey) → list Event → option error → Prop :=
| Deletes_nil : Deletes file url auth localKeys [] [] None
| Deletes_kept key contents rest evs err :
    ¬ orphan file localKeys key →
    Deletes file url auth localKeys rest evs err →
    Deletes file url auth localKeys ((key, contents) :: rest) evs err
| Deletes_deleted key contents rest a evs err :
    orphan file localKeys key →
    succeeded http.StatusOK a →
    Deletes file url auth localKeys rest evs err →
    Deletes file url auth localKeys ((key, contents) :: rest)
      (EvStdout (LF +:+ "deleting " +:+ key) ::
       EvHTTP (deleteRequest key url auth) a :: evs) err
| Deletes_failed key contents rest a e :
    orphan file localKeys key →
    expectStatus http.StatusOK a = Some e →
    Deletes file url auth localKeys ((key, contents) :: rest)
      [EvStdout (LF +:+ "deleting " +:+ key);
       EvHTTP (deleteRequest key url auth) a] (Some e).

(** An exchange of the first loop: the creation or the update of the
    pair of one of the keys. *)
Definition upsertOf (file : catalog.File) (url : string) (auth : HarborAuth)
    (items : list (string * string)) (ev : Event) : Prop :=
  ∃ key val a, (key, val) ∈ items ∧
    (ev = EvHTTP (createRequest (pairOf file key val) url auth) a ∨
     ev = EvHTTP (updateRequest (pairOf file key val) url auth) a).

(** An event of the second loop: the announcement on standard output,
    or the deletion of an orphan among the remote keys. *)
Definition deletionOf (file : catalog.File) (url : string) (auth : HarborAuth)
    (localKeys : gmap string string) (items : list (string * harborKey))
    (ev : Event) : Prop :=
  (∃ text, ev = EvStdout text) ∨
  (∃ key a, key ∈ items.*1 ∧ orphan file localKeys key ∧
            ev = EvHTTP (deleteRequest key url auth) a).

(** The runs of [Push]: the exchanges, the metadata returned and the
    error. *)
Inductive Pushed (s : HarborStore) (file : catalog.File) (fileData : string)
  : list Event → gmap string string → option error → Prop :=
| Pushed_upsert_failed now evs data e :
    Upserts file (buildURL (Shipment s)) (Auth s)
      (go_range (localKeysAt fileData now)) (coordinates s) evs data (Some e) →
    Pushed s file fileData (EvNow now :: evs) data (Some e)
| Pushed_fetch_failed now evs data a harborKeys e :
    Upserts file (buildURL (Shipment s)) (Auth s)
      (go_range (localKeysAt fileData now)) (coordinates s) evs data None →
    decodeKeys (Container (Shipment s)) a = (harborKeys, Some e) →
    Pushed s file fileData
      (EvNow now :: evs ++ [EvHTTP (getRequest (Shipment s) (Auth s)) a])
      data (Some e)
| Pushed_fetched now evs data a harborKeys evs' err :
    Upserts file (buildURL (Shipment s)) (Auth s)
      (go_range (localKeysAt fileData now)) (coordinates s) evs data None →
    decodeKeys (Container (Shipment s)) a = (harborKeys, None) →
    Deletes file (buildURL (Shipment s)) (Auth s) (localKeysAt fileData now)
      (go_range harborKeys) evs' err →
    Pushed s file fileData
      (EvNow now :: evs ++ EvHTTP (getRequest (Shipment s) (Auth s)) a :: evs')
      data err.

(** The runs of [Push] up to a request it has to build next: the
    creation of a local key, after the loop did the keys before it; its
    update, after its creation was refused; the fetch, after the whole
    first loop; the deletion of an orphan, after the second loop did the
    remote keys before it and announced it on standard output.  (A
    [Push] that finds [http.NewRequest]
    refusing that request panics there.) *)
Inductive Stuck (s : HarborStore) (file : catalog.File) (fileData : string)
  : list Event → Request → Prop :=
| Stuck_create now done key val rest evs data :
    go_range (localKeysAt fileData now) = done ++ (key, val) :: rest →
    Upserts file (buildURL (Shipment s)) (Auth s) done (coordinates s) evs data None →
    Stuck s file fileData (EvNow now :: evs)
      (createRequest (pairOf file key val) (buildURL (Shipment s)) (Auth s))
| Stuck_update now done key val rest evs data a :
    go_range (localKeysAt fileData now) = done ++ (key, val) :: rest →
    Upserts file (buildURL (Shipment s)) (Auth s) done (coordinates s) evs data None →
    ¬ succeeded http.StatusCreated a →
    Stuck s file fileData
      (EvNow now :: evs ++
       [EvHTTP (createRequest (pairOf file key val) (buildURL (Shipment s)) (Auth s)) a])
      (updateRequest (pairOf file key val) (buildURL (Shipment s)) (Auth s))
| Stuck_fetch now evs data :
    Upserts file (buildURL (Shipment s)) (Auth s)
      (go_range (localKeysAt fileData now)) (coordinates s) evs data None →
    Stuck s file fileData (EvNow now :: evs) (getRequest (Shipment s) (Auth s))
| Stuck_delete now evs data a harborKeys done key contents rest dels :
    Upserts file (buildURL (Shipment s)) (Auth s)
      (go_range (localKeysAt fileData now)) (coordinates s) evs data None →
    decodeKeys (Container (Shipment s)) a = (harborKeys, None) →
    go_range harborKeys = done ++ (key, contents) :: rest →
    Deletes file (buildURL (Shipment s)) (Auth s) (localKeysAt fileData now)
      done dels None →
    orphan file (localKeysAt fileData now) key →
    Stuck s file fileData
      (EvNow now :: evs ++ EvHTTP (getRequest (Shipment s) (Auth s)) a ::
       dels ++ [EvStdout (LF +:+ "deleting " +:+ key)])
      (deleteRequest key (buildURL (Shipment s)) (Auth s)).

(** The requests a [Push] may have to build, for the local keys
    [localKeys]: the creation and the update of a local key, the fetch,
    and the deletion of an orphan. *)
Definition wanted (s : HarborStore) (file : catalog.File)
    (localKeys : gmap string string) (req : Request) : Prop :=
  (∃ key val, localKeys !! key = Some val ∧
     (req = createRequest (pairOf file key val) (buildURL (Shipment s)) (Auth s) ∨
      req = updateRequest (pairOf file key val) (buildURL (Shipment s)) (Auth s))) ∨
  req = getRequest (Shipment s) (Auth s) ∨
  (∃ key, orphan file localKeys key ∧
     req = deleteRequest key (buildURL (Shipment s)) (Auth s)).

(** The line [Pull] writes for a remote key, and the remote keys it
    writes a line for. *)
Definition lineOf (entry : string * harborKey) : string :=
  entry.1 +:+ "=" +:+ value entry.2 +:+ LF.

Definition claimed (file : catalog.File) (entry : string * harborKey) : Prop :=
  entry.1 ≠ modifiedToken ∧
  is_Some (catalog.Data file !! addEnvVarPrefix entry.1).

#[global] Instance claimed_dec file entry : Decision (claimed file entry).
Proof. unfold claimed. apply _. Defined.

(** The metadata after the keys [done] were written. *)
Definition recordAll (file : catalog.File) (done : list (string * string))
    (data : gmap string string) : gmap string string :=
  foldl (λ data '(key, _),
           <[addEnvVarPrefix key := keyTypeOf file (addEnvVarPrefix key)]> data)
        data done.

End Loops.

(** *** The runs of [Pre] *)

(** What [Pre] keeps of an answer of the vault: the value, when there
    is no error. *)
Definition cached (a : string * option error) : string :=
  if a.2 is None then a.1 else "".

(** The check of the cached pair: skipped, with [isAuth] left [false],
    unless both the token and the user are there. *)
Inductive Checked (user token : string) : list Event → bool → Prop :=
| Checked_skipped :
    ¬ ((0 < String.length token)%nat ∧ (0 < String.length user)%nat) →
    Checked user token [] false
| Checked_asked isAuth err :
    (0 < String.length token)%nat → (0 < String.length user)%nat →
    Checked user token [EvIsAuthenticated user token (isAuth, err)] isAuth.

(** The interactive branch: the two prompts, the login and the writes
    to the vault; what it leaves in [s.Auth]; and the error of an early
    return ([inl]). *)
Inductive Logins (contextID cachedToken : string)
  : list Event → HarborAuth * option error + HarborAuth → Prop :=
| Logins_refused user pass token success err :
    err ≠ None ∨ success = false →
    Logins contextID cachedToken
      [EvPrompt userToken false user; EvPrompt passToken true pass;
       EvLogin user pass (token, success, err)]
      (inl (mkAuth user cachedToken, err))
| Logins_user_unsaved user pass token e :
    Logins contextID cachedToken
      [EvPrompt userToken false user; EvPrompt passToken true pass;
       EvLogin user pass (token, true, None);
       EvVaultSet contextID userToken user (Some e)]
      (inl (mkAuth user cachedToken, Some e))
| Logins_token_unsaved user pass token e :
    Logins contextID cachedToken
      [EvPrompt userToken false user; EvPrompt passToken true pass;
       EvLogin user pass (token, true, None);
       EvVaultSet contextID userToken user None;
       EvVaultSet contextID tokenToken token (Some e)]
      (inl (mkAuth user cachedToken, Some e))
| Logins_saved user pass token :
    Logins contextID cachedToken
      [EvPrompt userToken false user; EvPrompt passToken true pass;
       EvLogin user pass (token, true, None);
       EvVaultSet contextID userToken user None;
       EvVaultSet contextID tokenToken token None]
      (inr (mkAuth user token)).

(** A coordinate: read from [file.Data], or asked of the user. *)
Inductive Asked (file : catalog.File) (token : string) : list Event → string → Prop :=
| Asked_found v :
    catalog.Data file !! token = Some v → Asked file token [] v
| Asked_prompted v :
    catalog.Data file !! token = None →
    Asked file token [EvPrompt token false v] v.

Inductive Located (file : catalog.File) : list Event → HarborShipment → Prop :=
| Located_all evs1 evs2 evs3 name container env :
    Asked file shipmentToken evs1 name →
    Asked file containerToken evs2 container →
    Asked file envToken evs3 env →
    Located file (evs1 ++ evs2 ++ evs3) (mkShipment name container env).

(** The runs of [Pre]: the interactions, the store it leaves behind and
    the error. *)
Inductive Prepared (s : HarborStore) (contextID : string) (file : catalog.File)
  : list Event → HarborStore → option error → Prop :=
| Prepared_no_client e :
    Prepared s contextID file [EvNewAuthClient authURL (Some e)] s (Some e)
| Prepared_cached gu gt checks coords shipment :
    Checked (cached gu) (cached gt) checks true →
    Located file coords shipment →
    Prepared s contextID file
      (EvNewAuthClient authURL None :: EvVaultGet contextID userToken gu ::
       EvVaultGet contextID tokenToken gt :: checks ++ coords)
      (mkStore (mkAuth (cached gu) (cached gt)) shipment) None
| Prepared_login_failed gu gt checks logins auth err :
    Checked (cached gu) (cached gt) checks false →
    Logins contextID (cached gt) logins (inl (auth, err)) →
    Prepared s contextID file
      (EvNewAuthClient authURL None :: EvVaultGet contextID userToken gu ::
       EvVaultGet contextID tokenToken gt :: checks ++ logins)
      (mkStore auth (mkShipment "" "" "")) err
| Prepared_logged_in gu gt checks logins auth coords shipment :
    Checked (cached gu) (cached gt) checks false →
    Logins contextID (cached gt) logins (inr auth) →
    Located file coords shipment →
    Prepared s contextID file
      (EvNewAuthClient authURL None :: EvVaultGet contextID userToken gu ::
       EvVaultGet contextID tokenToken gt :: checks ++ logins ++ coords)
      (mkStore auth shipment) None.

(** The error an interaction of [Pre] came back with, among those [Pre]
    looks at: the errors of the reads of the vault and of
    [IsAuthenticated] are dropped. *)
Definition failure (ev : Event) : option error :=
  match ev with
  | EvNewAuthClient _ err => err
  | EvLogin _ _ (_, _, err) => err
  | EvVaultSet _ _ _ err => err
  | _ => None
  end.

End Harbor.

(** ** store.go *)

Module Registry.

(** [prompt.Options] *)
Record Options : Type := mkOptions {
  Description : string;
  DefaultValue : string
}.

(** The interactions of [Select] with the outside, each with the answer
    it got: the prompt, and the [Pre] method of the store of the given
    name. *)
Inductive Event : Type :=
| EvPrompt (name : string) (opts : Options) (answer : string)
| EvPre (store : string) (err : option error).

(** What [Select] uses of other packages: the error of [contract] and
    the default of [cfg]. *)
Class Declared : Type := {
  ErrStoreNotFound : error;
  DefaultStore : string
}.

Section Select.
(** The catalog, the vault, the user options and the streams are
    handed on to the collaborators untouched. *)
Context {W Catalog Vault UserOptions IO : Type}.

(** [contract.IStore], as far as [Select] uses it.  [Pre] receives
    the pointer to the file: the file it leaves behind is part of its
    result.  What a store keeps between calls is part of the world. *)
Record IStore : Type := mkIStore {
  Name : string;
  SupportsFileType : string → bool;
  Pre : Catalog → catalog.File → Vault → UserOptions → IO →
        W → (catalog.File * option error) * W
}.

Context {RT : GoRuntime} {Dc : Declared}.
Context (prompt_GetValFromUser : string → Options → IO → W → string * W).

(** The registry [stores], filled by the [init] functions. *)
Context (stores : gmap string IStore).

Abbreviation M := (Eff W Event).

Definition Get : gmap string IStore := stores.

Definition GetValFromUser (name : string) (opts : Options) (io : IO) : M string :=
  perform (EvPrompt name opts) (prompt_GetValFromUser name opts io).

Definition callPre (store : IStore) (clog : Catalog) (file : catalog.File)
    (v : Vault) (uo : UserOptions) (io : IO) : M (catalog.File * option error) :=
  perform (λ a, EvPre (Name store) a.2) (Pre store clog file v uo io).

(** The loop of [Select]: the names of the stores that support the
    type of the file, separated by commas. *)
Fixpoint supported (fileType : string) (entries : list (string * IStore))
    (supportedStores : string) : string :=
  match entries with
  | [] => supportedStores
  | (_, s) :: rest =>
      if SupportsFileType s fileType then
        if bool_decide (String.length supportedStores = 0%nat)
        then supported fileType rest (Name s)
        else supported fileType rest (supportedStores +:+ "," +:+ Name s)
      else supported fileType rest supportedStores
  end.

Definition describe (file : catalog.File) (supportedStores : string) : string :=
  "The remote storage solution where " +:+ catalog.Path file +:+
  " data will be pushed. (" +:+ supportedStores +:+ ")".

(** [Select] receives a pointer to the file: the file it leaves behind
    is returned with the store and the error. *)
Definition Select (file : catalog.File) (clog : Catalog) (v : Vault)
    (uo : UserOptions) (io : IO)
    : M (option IStore * option error * catalog.File) :=
  if bool_decide (0 < String.length (catalog.Store file))%nat then
    match stores !! catalog.Store file with
    | Some store =>
        let! (file', err) := callPre store clog file v uo io in
        ret (Some store, err, file')
    | None => ret (None, Some ErrStoreNotFound, file)
    end
  else
    let supportedStores := supported (catalog.Type_ file) (go_range Get) "" in
    let! val := GetValFromUser "Remote Store"
                  (mkOptions (describe file supportedStores) DefaultStore) io in
    match stores !! val with
    | Some store =>
        let! (file', err) := callPre store clog file v uo io in
        ret (Some store, err, file')
    | None => ret (None, Some ErrStoreNotFound, file)
    end.

End Select.
End Registry.

(** ** Instances to run the definitions on *)

Module Samples.
Import GoTime Harbor.

(** An iteration order: the one of [map_to_list]. *)
Definition listed : GoRuntime :=
  {| go_range := λ V m, map_to_list m;
     go_range_perm := λ V m, reflexivity (map_to_list m) |}.

(** Modelled from the spec: [addEnvVarPrefix] and [envVarType] are
    declared in a file of the package that is not among the sources; the
    spec's scenario names the entry of the key [FOO] as [ENV_FOO], and
    calls [envVarType] the generic marker of a plain environment
    variable. *)
Definition specPackage : Package :=
  {| envVarType := "ENV"; addEnvVarPrefix := λ key, "ENV_" +:+ key |}.

(** [s] up to the first [sep], and what follows it. *)
Fixpoint cut (sep : ascii) (s : string) : string * option string :=
  match s with
  | "" => ("", None)
  | String c r =>
      if decide (c = sep) then ("", Some r)
      else let '(a, b) := cut sep r in (String c a, b)
  end.

Fixpoint parseLines (fuel : nat) (s : string) (acc : gmap string string)
    : gmap string string :=
  match fuel with
  | O => acc
  | S fuel' =>
      let '(line, rest) := cut "010" s in
      let acc' :=
        match cut "=" line with
        | (String c k, Some v) => <[String c k := v]> acc
        | _ => acc
        end in
      match rest with
      | Some r => parseLines fuel' r acc'
      | None => acc'
      end
  end.

(** What [net/url] refuses in the sample runs: a control character, and
    a percent sign that is not followed by two hexadecimal digits. *)
Definition isControl (c : ascii) : bool :=
  bool_decide (nat_of_ascii c < 32)%nat || bool_decide (nat_of_ascii c = 127%nat).

Definition ishex (c : ascii) : bool :=
  let n := nat_of_ascii c in
  bool_decide (48 ≤ n ≤ 57)%nat || bool_decide (97 ≤ n ≤ 102)%nat ||
  bool_decide (65 ≤ n ≤ 70)%nat.

Fixpoint hasControl (s : string) : bool :=
  match s with
  | "" => false
  | String c r => isControl c || hasControl r
  end.

Fixpoint badEscape (s : string) : bool :=
  match s with
  | "" => false
  | String c r =>
      if decide (c = "%"%char) then
        match r with
        | String a (String b r') => negb (ishex a && ishex b) || badEscape r'
        | _ => true
        end
      else badEscape r
  end.

Definition urlError (url : string) : option error :=
  if hasControl url then Some "net/url: invalid control character in URL"
  else if badEscape url then Some "invalid URL escape"
  else None.

(** A reader of the plainest [.env] files, [KEY=value] on each line,
    standing for [gotenv.Parse]; a [time.Parse] that knows no zone but
    UTC; and an [http.NewRequest] that refuses the URLs above. *)
Definition plainLibraries : Libraries :=
  {| gotenv_Parse := λ s, parseLines (S (String.length s)) s ∅;
     time_foreignZone := λ _ _, None;
     http_NewRequest := λ _ url, urlError url |}.

(** A world to run the adapter in: a Harbor service that keeps the
    variables of one container in memory, an auth service with a fixed
    answer, a user with prepared answers, a vault and a clock. *)
Record Sandbox : Type := mkSandbox {
  clock : Time;
  container : string;
  remote : gmap string (string * string);
  refused : gset string;
  tokenValid : bool;
  loginReply : string * bool * option error;
  answers : gmap string string;
  vaultData : gmap (string * string) string
}.

Definition with_remote (w : Sandbox) (r : gmap string (string * string)) : Sandbox :=
  mkSandbox (clock w) (container w) r (refused w) (tokenValid w)
            (loginReply w) (answers w) (vaultData w).

Definition with_vaultData (w : Sandbox) (v : gmap (string * string) string) : Sandbox :=
  mkSandbox (clock w) (container w) (remote w) (refused w) (tokenValid w)
            (loginReply w) (answers w) v.

Fixpoint lastSegmentFrom (s acc : string) : string :=
  match s with
  | "" => acc
  | String c r =>
      if decide (c = "/"%char) then lastSegmentFrom r ""
      else lastSegmentFrom r (acc +:+ String c "")
  end.

Definition reply (code : Z) (status : string) : error + Response :=
  inr (http.mkResponse code status (inl "EOF")).

(** The service: create refuses a name that exists, update and delete
    one that does not; the names in [refused] can be neither written
    nor deleted. *)
Definition serve (req : Request) (w : Sandbox) : (error + Response) * Sandbox :=
  match http.Method_ req, http.Body req with
  | http.POST, Some p =>
      if decide (pair_Name p ∈ refused w) then (reply 500 "500 Internal Server Error", w)
      else if decide (is_Some (remote w !! pair_Name p)) then (reply 409 "409 Conflict", w)
      else (reply 201 "201 Created",
            with_remote w (<[pair_Name p := (pair_Value p, pair_Type p)]> (remote w)))
  | http.PUT, Some p =>
      if decide (pair_Name p ∈ refused w) then (reply 500 "500 Internal Server Error", w)
      else if decide (is_Some (remote w !! pair_Name p))
      then (reply 200 "200 OK",
            with_remote w (<[pair_Name p := (pair_Value p, pair_Type p)]> (remote w)))
      else (reply 404 "404 Not Found", w)
  | http.DELETE, _ =>
      let key := lastSegmentFrom (http.URL req) "" in
      if decide (key ∈ refused w) then (reply 500 "500 Internal Server Error", w)
      else if decide (is_Some (remote w !! key))
      then (reply 200 "200 OK", with_remote w (delete key (remote w)))
      else (reply 404 "404 Not Found", w)
  | http.GET, _ =>
      (inr (http.mkResponse 200 "200 OK"
              (inr (mkHShipment
                      [mkContainers (container w)
                         ((λ '(k, (v, t)), mkEnvVar k v t) <$> map_to_list (remote w))]))),
       w)
  | _, _ => (reply 400 "400 Bad Request", w)
  end.

Definition sandbox : Collaborators Sandbox :=
  {| client_Do := serve;
     time_Now := λ w, (clock w, w);
     harborauth_NewAuthClient := λ _ w, (None, w);
     client_IsAuthenticated := λ _ _ w, ((tokenValid w, None), w);
     client_Login := λ _ _ w, (loginReply w, w);
     prompt_GetValFromUser := λ name _ _ _ w, (default "" (answers w !! name), w) |}.

Definition sandboxVault : IVault Sandbox :=
  {| Get := λ contextID key _ _ _ w,
       (match vaultData w !! (contextID, key) with
        | Some v => (v, None)
        | None => ("", Some "not found")
        end, w);
     Set_ := λ contextID key val w,
       (None, with_vaultData w (<[(contextID, key) := val]> (vaultData w))) |}.

Definition noon : Time := mkTime 2024 1 1 12 0 0 0.

Definition emptyService : Sandbox :=
  mkSandbox noon "web" ∅ ∅ true ("", false, None) ∅ ∅.

Definition start (w : Sandbox) : Run Sandbox Event := mkRun w [].

Definition store : HarborStore :=
  mkStore (mkAuth "ann" "t0k") (mkShipment "shop" "web" "dev").

Definition fileWith (data : gmap string string) : catalog.File :=
  catalog.mkFile ".env" "harbor" "env" true data.

(** What a run returned, or [d] when it panicked, with the state it
    left. *)
Definition ran {A} (d : A) (x : Outcome A * Run Sandbox Event) : A * Run Sandbox Event :=
  (match x.1 with Returned a => a | Panicked => d end, x.2).

Definition returned {A} (x : Outcome A * Run Sandbox Event) : bool :=
  match x.1 with Returned _ => true | Panicked => false end.

Definition service (vars : list (string * (string * string)))
    (refused : list string) : Sandbox :=
  mkSandbox noon "web" (list_to_map vars) (list_to_set refused) true
            ("", false, None) ∅ ∅.

(** A [Push] of the file [fileData], catalogued with [data], to the
    service holding [vars]. *)
Definition pushTo (vars : list (string * (string * string))) (refused : list string)
    (data : list (string * string)) (fileData : string)
    : (gmap string string * bool * option error) * Run Sandbox Event :=
  ran (∅, false, None)
      (Push (RT := listed) (Pk := specPackage) (Lb := plainLibraries) (Co := sandbox)
            store "ctx" (fileWith (list_to_map data)) fileData
            (start (service vars refused))).

(** The scenario of the spec: the local keys [a] and [b], the remote
    keys [a], [b] and [c], all three claimed by the catalog. *)
Definition abcVars : list (string * (string * string)) :=
  [("a", ("0", "hidden")); ("b", ("0", "discover")); ("c", ("9", "hidden"))].
Definition abcData : list (string * string) :=
  [("ENV_a", "hidden"); ("ENV_b", "discover"); ("ENV_c", "hidden")].
Definition abcText : string := "a=1" +:+ LF +:+ "b=2" +:+ LF.
Definition abcPush := pushTo abcVars [] abcData abcText.


(** The scenario of the spec: the key [FOO], new to the catalog and to
    the service. *)
Definition fooText : string := "FOO=bar" +:+ LF.
Definition fooPush := pushTo [] [] [] fooText.

(** Two new keys, of which the service refuses [B]. *)
Definition halfText : string := "A=1" +:+ LF +:+ "B=2" +:+ LF.
Definition halfPush := pushTo [] ["B"] [] halfText.

(** The scenario of the spec: the service holds [X] and a time stamp,
    the catalog claims [X], and [Pull] runs at noon. *)
Definition xStamp : string := "2024-01-01 00:00:00.000000000 +0000 UTC".
Definition xVars : list (string * (string * string)) :=
  [("X", ("1", "hidden")); ("CSTORE_MODIFIED", (xStamp, "hidden"))].
Definition xFile : catalog.File := fileWith {["ENV_X" := "hidden"]}.
Definition xPull : (string * Attributes * option error) * Run Sandbox Event :=
  ran ("", mkAttributes zeroTime, None)
      (Pull (RT := listed) (Pk := specPackage) (Lb := plainLibraries) (Co := sandbox)
            store "ctx" xFile (start (service xVars []))).

(** [Pull] in the evening, after [fooPush] at noon, with the metadata
    [fooPush] returned. *)
Definition evening : Time := mkTime 2024 1 1 21 30 0 0.
Definition fooPull : (string * Attributes * option error) * Run Sandbox Event :=
  ran ("", mkAttributes zeroTime, None)
      (Pull (RT := listed) (Pk := specPackage) (Lb := plainLibraries) (Co := sandbox)
            store "ctx" (fileWith fooPush.1.1.1)
            (start (mkSandbox evening "web" (remote (world fooPush.2)) ∅ true
                              ("", false, None) ∅ ∅))).

(** A user at the prompt, with an answer for every question but the
    container; an auth service that answers every login with [reply] and
    every check of a token with [valid]; and a vault holding [kept]. *)
Definition typed : gmap string string :=
  list_to_map [("HARBOR_USER", "ann"); ("HARBOR_PASS", "secret");
               ("HARBOR_SHIPMENT", "shop"); ("HARBOR_ENV", "dev")].

Definition desk (valid : bool) (reply : string * bool * option error)
    (kept : list ((string * string) * string)) : Sandbox :=
  mkSandbox noon "web" ∅ ∅ valid reply typed (list_to_map kept).

Definition blank : HarborStore := mkStore (mkAuth "" "") (mkShipment "" "" "").

Definition preAt (data : gmap string string) (w : Sandbox)
    : (HarborStore * option error) * Run Sandbox Event :=
  Pre (Co := sandbox) blank "ctx" (fileWith data) sandboxVault sandboxVault true
      (start w).

(** [Pre] with an empty vault: the login is answered with no token, no
    success and no error; with an error; with a token. *)
Definition refusedPre := preAt ∅ (desk false ("", false, None) []).
Definition failedPre := preAt ∅ (desk false ("", false, Some "401 Unauthorized") []).
Definition loginPre := preAt {[containerToken := "web"]} (desk false ("t0k", true, None) []).

(** [Pre] with a pair in the vault that the auth service accepts. *)
Definition cachedPre :=
  preAt {[containerToken := "web"]}
        (desk true ("", false, None)
              [(("ctx", userToken), "ann"); (("ctx", tokenToken), "t0k")]).

(** [Purge] after [fooPush], with the metadata [fooPush] returned. *)
Definition fooPurge : option error * Run Sandbox Event :=
  ran None
      (Purge (RT := listed) (Lb := plainLibraries) (Co := sandbox) store "ctx"
             (fileWith fooPush.1.1.1) (start (world fooPush.2))).




(** A registry of three stores whose [Pre] leaves the file as it is and
    adds the name of the store to the world; a user who types [io], or
    nothing to take the default.  The error and the default store are
    values for these runs. *)
Definition adapter (name : string) (types : list string)
    : @Registry.IStore (list string) unit unit unit string :=
  Registry.mkIStore name (λ t, bool_decide (t ∈ types))
                    (λ _ file _ _ _ w, ((file, None), w ++ [name])).

Definition registry : gmap string (@Registry.IStore (list string) unit unit unit string) :=
  list_to_map [("harbor", adapter "harbor" ["env"]);
               ("s3", adapter "s3" ["env"; "json"; ""]);
               ("source", adapter "source" ["json"])].

Definition declared : Registry.Declared :=
  {| Registry.ErrStoreNotFound := "store not found";
     Registry.DefaultStore := "s3" |}.

Definition keyboard (name : string) (opts : Registry.Options) (io : string)
    (w : list string) : string * list string :=
  (if decide (io = "") then Registry.DefaultValue opts else io, w).

Definition envFile (store : string) : catalog.File :=
  catalog.mkFile ".env" store "env" true ∅.

Definition selectAt (store typed : string) :=
  Registry.Select (RT := listed) (Dc := declared) keyboard registry
                  (envFile store) () () () typed (mkRun [] []).

(** The sandbox with a service that does not answer the fetch. *)
Definition flaky : Collaborators Sandbox :=
  {| client_Do := λ req w,
       if decide (http.Method_ req = http.GET)
       then (reply 503 "503 Service Unavailable", w)
       else serve req w;
     time_Now := λ w, (clock w, w);
     harborauth_NewAuthClient := λ _ w, (None, w);
     client_IsAuthenticated := λ _ _ w, ((tokenValid w, None), w);
     client_Login := λ _ _ w, (loginReply w, w);
     prompt_GetValFromUser := λ name _ _ _ w, (default "" (answers w !! name), w) |}.

Definition flakyPull : (string * Attributes * option error) * Run Sandbox Event :=
  ran ("", mkAttributes zeroTime, None)
      (Pull (RT := listed) (Pk := specPackage) (Lb := plainLibraries) (Co := flaky)
            store "ctx" xFile (start (service xVars []))).

Definition flakyPush : (gmap string string * bool * option error) * Run Sandbox Event :=
  ran (∅, false, None)
      (Push (RT := listed) (Pk := specPackage) (Lb := plainLibraries) (Co := flaky)
            store "ctx" (fileWith ∅) fooText (start (service [] []))).

(** A disk that keeps what is written, and a marshaller that refuses the
    empty catalog. *)
Definition disk (filename data : string) (perm : Z) (w : list (string * string))
    : option error * list (string * string) :=
  (None, (filename, data) :: w).

Definition marshal (c : string) : error + string :=
  if decide (c = "") then inl "yaml: empty" else inr c.

Definition written : option error * Run (list (string * string)) catalog.Event :=
  catalog.Write marshal disk "cstore.yml" ("version: v3" +:+ LF) (mkRun [] []).

End Samples.

(** * Properties *)

(** ** The runs of [Push] *)

Section PushRuns.
Import GoTime Harbor.
Context {W : Type} {RT : GoRuntime} {Pk : Package} {Lb : Libraries}
        {Co : Collaborators W}.

Lemma succeeded_response want a :
  succeeded want a ↔ ∃ resp, a = inr resp ∧ http.StatusCode resp = want.
Proof.
  unfold expectStatus, succeeded. destruct a as [e|resp]; simpl.
  - split; [done | intros (resp & ? & _); done].
  - destruct (decide (http.StatusCode resp = want)) as [Hc|Hc].
    + rewrite decide_False by tauto. split; [eauto|done].
    + rewrite decide_True by done. split; [done|].
      intros (resp' & [= <-] & ?). done.
Qed.

Lemma expectStatus_Some want a e :
  expectStatus want a = Some e → ¬ succeeded want a.
Proof. unfold succeeded. congruence. Qed.

Lemma go_range_lookup {V} (m : gmap string V) key val :
  (key, val) ∈ go_range m → m !! key = Some val.
Proof. rewrite (go_range_perm V m). apply elem_of_map_to_list. Qed.

(** Each helper, when [http.NewRequest] refuses its URL, panics before
    anything is sent; otherwise it sends its request and makes an error
    of the answer. *)
Lemma helper_run method url body auth want (r : Run W Event) :
  (let '(req, _) := NewRequest method url body in
   do! req := addHeaders req auth in
   do! a := lift (Do req) in
   returns (expectStatus want a)) r
  = if decide (accepted (http.mkRequest method url (headers auth) body)) then
      let '(a, w) := client_Do (http.mkRequest method url (headers auth) body) (world r) in
      (Returned (expectStatus want a),
       mkRun w (trace r ++ [EvHTTP (http.mkRequest method url (headers auth) body) a]))
    else (Panicked, r).
Proof.
  destruct (decide (accepted _)) as [Hok|Hno]; unfold accepted in *;
    cbn [http.Method_ http.URL] in *; unfold NewRequest.
  - rewrite Hok. cbv [andThen addHeaders returns lift Do perform]. simpl.
    by destruct (client_Do _ (world r)).
  - by destruct (http_NewRequest method url).
Qed.

Lemma createKey_run p url auth (r : Run W Event) :
  createKey p url auth r
  = if decide (accepted (createRequest p url auth)) then
      let '(a, w) := client_Do (createRequest p url auth) (world r) in
      (Returned (expectStatus http.StatusCreated a),
       mkRun w (trace r ++ [EvHTTP (createRequest p url auth) a]))
    else (Panicked, r).
Proof. apply helper_run. Qed.

Lemma updateKey_run p url auth (r : Run W Event) :
  updateKey p url auth r
  = if decide (accepted (updateRequest p url auth)) then
      let '(a, w) := client_Do (updateRequest p url auth) (world r) in
      (Returned (expectStatus http.StatusOK a),
       mkRun w (trace r ++ [EvHTTP (updateRequest p url auth) a]))
    else (Panicked, r).
Proof. apply helper_run. Qed.

Lemma deleteKey_run key url auth (r : Run W Event) :
  deleteKey key url auth r
  = if decide (accepted (deleteRequest key url auth)) then
      let '(a, w) := client_Do (deleteRequest key url auth) (world r) in
      (Returned (expectStatus http.StatusOK a),
       mkRun w (trace r ++ [EvHTTP (deleteRequest key url auth) a]))
    else (Panicked, r).
Proof. apply helper_run. Qed.

Lemma getHarborKeys_run shipment auth (r : Run W Event) :
  getHarborKeys shipment auth r
  = if decide (accepted (getRequest shipment auth)) then
      let '(a, w) := client_Do (getRequest shipment auth) (world r) in
      (Returned (decodeKeys (Container shipment) a),
       mkRun w (trace r ++ [EvHTTP (getRequest shipment auth) a]))
    else (Panicked, r).
Proof.
  destruct (decide (accepted _)) as [Hok|Hno]; unfold accepted, getRequest in *;
    cbn [http.Method_ http.URL] in *; unfold getHarborKeys, NewRequest.
  - rewrite Hok. cbv [andThen addHeaders returns lift Do perform]. simpl.
    by destruct (client_Do _ (world r)).
  - by destruct (http_NewRequest http.GET _).
Qed.

Lemma andThen_eq {A B} (m : Exec W Event A) (k : A → Exec W Event B) r :
  andThen m k r
  = match m r with
    | (Returned a, r') => k a r'
    | (Panicked, r') => (Panicked, r')
    end.
Proof. reflexivity. Qed.

Lemma lift_eq {A} (m : Eff W Event A) r :
  lift m r = (Returned (m r).1, (m r).2).
Proof. unfold lift. by destruct (m r). Qed.

(** The first loop of [Push]: a run that returns is a run of [Upserts];
    a run that panics did the loop for the keys before some key, and
    then had the creation of that key refused by [http.NewRequest], or
    its update after the service refused the creation. *)
Lemma upsertKeys_outcome file url auth items :
  ∀ data (r : Run W Event) out r',
    upsertKeys file url auth items data r = (out, r') →
    ∃ evs, trace r' = trace r ++ evs ∧
      match out with
      | Returned (data', err) => Upserts file url auth items data evs data' err
      | Panicked =>
          ∃ done key val rest evs0 data0,
            items = done ++ (key, val) :: rest ∧
            Upserts file url auth done data evs0 data0 None ∧
            ((evs = evs0 ∧
              ¬ accepted (createRequest (pairOf file key val) url auth)) ∨
             (∃ a, evs = evs0 ++ [EvHTTP (createRequest (pairOf file key val) url auth) a] ∧
                   ¬ succeeded http.StatusCreated a ∧
                   ¬ accepted (updateRequest (pairOf file key val) url auth)))
      end.
Proof.
  induction items as [|[key val] rest IH]; intros data r out r' Hrun.
  - injection Hrun as <- <-. exists []. rewrite app_nil_r. split; [done|constructor].
  - cbn [upsertKeys] in Hrun. rewrite andThen_eq, createKey_run in Hrun.
    destruct (decide (accepted (createRequest (pairOf file key val) url auth)))
      as [Hok|Hno].
    2:{ injection Hrun as <- <-. exists []. rewrite app_nil_r. split; [done|].
        exists [], key, val, rest, [], data. split_and!; [done|constructor|by left]. }
    destruct (client_Do (createRequest (pairOf file key val) url auth) (world r))
      as [a w1] eqn:Ha.
    rewrite andThen_eq in Hrun.
    destruct (expectStatus http.StatusCreated a) as [e|] eqn:Hcr.
    + rewrite updateKey_run in Hrun.
      destruct (decide (accepted (updateRequest (pairOf file key val) url auth)))
        as [Hok'|Hno'].
      2:{ injection Hrun as <- <-. eexists. split; [reflexivity|].
          exists [], key, val, rest, [], data. split_and!; [done|constructor|].
          right. exists a. split_and!; eauto using expectStatus_Some. }
      cbn [world trace] in Hrun.
      destruct (client_Do (updateRequest (pairOf file key val) url auth) w1)
        as [a' w2] eqn:Ha'.
      destruct (expectStatus http.StatusOK a') as [e'|] eqn:Hup.
      * injection Hrun as <- <-. cbn [trace]. eexists. split.
        { rewrite <- app_assoc. reflexivity. }
        eapply Upserts_failed; eauto using expectStatus_Some.
      * apply IH in Hrun as (evs & Ht & HU). cbn [trace] in Ht.
        eexists. split.
        { rewrite Ht, <- !app_assoc. reflexivity. }
        destruct out as [[data' err]|].
        -- cbn [app]. eapply Upserts_updated; eauto using expectStatus_Some.
        -- destruct HU as (done & k & v & rest' & evs0 & data0 & -> & HU & Hcase).
           exists ((key, val) :: done), k, v, rest',
             (EvHTTP (createRequest (pairOf file key val) url auth) a ::
              EvHTTP (updateRequest (pairOf file key val) url auth) a' :: evs0), data0.
           split_and!; [done|eapply Upserts_updated; eauto using expectStatus_Some|].
           destruct Hcase as [[-> Hno]|(b & -> & Hb & Hno)]; [by left|].
           right. by exists b.
    + cbv [returns] in Hrun.
      apply IH in Hrun as (evs & Ht & HU). cbn [trace] in Ht.
      eexists. split.
      { rewrite Ht, <- !app_assoc. reflexivity. }
      destruct out as [[data' err]|].
      -- cbn [app]. eapply Upserts_created; eauto.
      -- destruct HU as (done & k & v & rest' & evs0 & data0 & -> & HU & Hcase).
         exists ((key, val) :: done), k, v, rest',
           (EvHTTP (createRequest (pairOf file key val) url auth) a :: evs0), data0.
         split_and!; [done|eapply Upserts_created; eauto|].
         destruct Hcase as [[-> Hno]|(b & -> & Hb & Hno)]; [by left|].
         right. by exists b.
Qed.

Lemma upsertKeys_run file url auth items data (r : Run W Event) data' err r' :
  upsertKeys file url auth items data r = (Returned (data', err), r') →
  ∃ evs, trace r' = trace r ++ evs ∧
         Upserts file url auth items data evs data' err.
Proof. intros Hrun. by apply upsertKeys_outcome in Hrun. Qed.

(** The second loop of [Push]: a run that returns is a run of [Deletes];
    a run that panics did the loop for the remote keys before some
    orphan, whose deletion [http.NewRequest] refused. *)
Lemma deleteKeys_outcome file url auth localKeys items :
  ∀ (r : Run W Event) out r',
    deleteKeys file url auth localKeys items r = (out, r') →
    ∃ evs, trace r' = trace r ++ evs ∧
      match out with
      | Returned err => Deletes file url auth localKeys items evs err
      | Panicked =>
          ∃ done key contents rest evs0,
            items = done ++ (key, contents) :: rest ∧
            evs = evs0 ++ [EvStdout (LF +:+ "deleting " +:+ key)] ∧
            Deletes file url auth localKeys done evs0 None ∧
            orphan file localKeys key ∧
            ¬ accepted (deleteRequest key url auth)
      end.
Proof.
  induction items as [|[key contents] rest IH]; intros r out r' Hrun.
  - injection Hrun as <- <-. exists []. rewrite app_nil_r. split; [done|constructor].
  - cbn [deleteKeys] in Hrun.
    destruct (decide (orphan file localKeys key)) as [Ho|Ho].
    + pose proof Ho as [Ho1 Ho2].
      rewrite (bool_decide_eq_true_2 _ Ho1), (bool_decide_eq_true_2 _ Ho2) in Hrun.
      cbn [andb] in Hrun. rewrite andThen_eq, lift_eq in Hrun.
      cbv [Printf perform] in Hrun. cbn [fst snd] in Hrun.
      rewrite andThen_eq, deleteKey_run in Hrun.
      destruct (decide (accepted (deleteRequest key url auth))) as [Hok|Hno].
      2:{ injection Hrun as <- <-. cbn [trace]. eexists. split; [reflexivity|].
          exists [], key, contents, rest, []. split_and!; try done.
          constructor. }
      cbn [world trace] in Hrun.
      destruct (client_Do (deleteRequest key url auth) (world r)) as [a w1] eqn:Ha.
      destruct (expectStatus http.StatusOK a) as [e|] eqn:Hc.
      * injection Hrun as <- <-. cbn [trace]. eexists. split.
        { rewrite <- app_assoc. reflexivity. }
        eapply Deletes_failed; eauto.
      * apply IH in Hrun as (evs & Ht & HD). cbn [trace] in Ht.
        eexists. split.
        { rewrite Ht, <- !app_assoc. reflexivity. }
        destruct out as [err|].
        -- cbn [app]. eapply Deletes_deleted; eauto.
        -- destruct HD as (done & k & c & rest' & evs0 & -> & -> & HD & Hk & Hacc).
           exists ((key, contents) :: done), k, c, rest',
             (EvStdout (LF +:+ "deleting " +:+ key) ::
              EvHTTP (deleteRequest key url auth) a :: evs0).
           split_and!; [done|done| |done|done].
           eapply Deletes_deleted; eauto.
    + assert (bool_decide (is_Some (catalog.Data file !! addEnvVarPrefix key)) &&
              bool_decide (localKeys !! key = None) = false) as Hb.
      { apply not_true_is_false. intros [H1 H2]%andb_true_iff.
        apply Ho. split; [by apply bool_decide_eq_true in H1|by apply bool_decide_eq_true in H2]. }
      rewrite Hb in Hrun.
      apply IH in Hrun as (evs & Ht & HD).
      exists evs. split; [done|]. destruct out as [err|].
      * by apply Deletes_kept.
      * destruct HD as (done & k & c & rest' & evs0 & -> & -> & HD & Hk & Hacc).
        exists ((key, contents) :: done), k, c, rest', evs0.
        split_and!; [done|done| |done|done]. by apply Deletes_kept.
Qed.

Lemma deleteKeys_run file url auth localKeys items (r : Run W Event) err r' :
  deleteKeys file url auth localKeys items r = (Returned err, r') →
  ∃ evs, trace r' = trace r ++ evs ∧
         Deletes file url auth localKeys items evs err.
Proof. intros Hrun. by apply deleteKeys_outcome in Hrun. Qed.

(** [Push]: a run that returns is a run of [Pushed]; a run that panics
    is a run of [Stuck], up to a request that [http.NewRequest]
    refused. *)
Lemma Push_outcome s contextKey file fileData (r : Run W Event) out r' :
  Push s contextKey file fileData r = (out, r') →
  ∃ evs, trace r' = trace r ++ evs ∧
    match out with
    | Returned (data, v, err) => v = false ∧ Pushed s file fileData evs data err
    | Panicked => ∃ req, Stuck s file fileData evs req ∧ ¬ accepted req
    end.
Proof.
  intros Hrun. unfold Push in Hrun.
  rewrite andThen_eq, lift_eq in Hrun. cbv [Now perform] in Hrun.
  destruct (time_Now (world r)) as [now w1] eqn:Hclock. cbn [fst snd] in Hrun.
  set (r1 := {| world := w1; trace := trace r ++ [EvNow now] |}) in Hrun.
  rewrite andThen_eq in Hrun.
  destruct (upsertKeys file (buildURL (Shipment s)) (Auth s)
              (go_range (localKeysAt fileData now)) (coordinates s) r1)
    as [[[data1 err1]|] r2] eqn:HU.
  2:{ injection Hrun as <- <-.
      apply upsertKeys_outcome in HU
        as (evs & Ht & done & key & val & rest & evs0 & data0 & Hitems & HU & Hcase).
      cbn [trace r1] in Ht. exists (EvNow now :: evs). split.
      { rewrite Ht, <- app_assoc. reflexivity. }
      destruct Hcase as [[-> Hno]|(a & -> & Ha & Hno)].
      - eexists. split; [|exact Hno]. by eapply Stuck_create.
      - eexists. split; [|exact Hno]. by eapply Stuck_update. }
  apply upsertKeys_run in HU as (evs & Ht & HU). cbn [trace r1] in Ht.
  destruct err1 as [e|].
  { injection Hrun as <- <-. eexists. split.
    - rewrite Ht, <- app_assoc. reflexivity.
    - split; [done|]. by constructor. }
  rewrite andThen_eq, getHarborKeys_run in Hrun.
  destruct (decide (accepted (getRequest (Shipment s) (Auth s)))) as [Hok|Hno].
  2:{ injection Hrun as <- <-. exists (EvNow now :: evs). split.
      { rewrite Ht, <- app_assoc. reflexivity. }
      eexists. split; [|exact Hno]. by eapply Stuck_fetch. }
  destruct (client_Do (getRequest (Shipment s) (Auth s)) (world r2)) as [a w3] eqn:Ha.
  destruct (decodeKeys (Container (Shipment s)) a) as [harborKeys err2] eqn:Hd.
  destruct err2 as [e|].
  { injection Hrun as <- <-. eexists. split.
    - cbn [trace]. rewrite Ht, <- !app_assoc. reflexivity.
    - split; [done|]. cbn [app]. eapply Pushed_fetch_failed; eauto. }
  rewrite andThen_eq in Hrun.
  match type of Hrun with
  | context [deleteKeys ?f ?u ?a ?l ?i ?r] =>
      destruct (deleteKeys f u a l i r) as [[err3|] r4] eqn:HD
  end.
  2:{ injection Hrun as <- <-.
      apply deleteKeys_outcome in HD
        as (evs' & Ht' & done & key & contents & rest & dels & Hitems & -> & HD & Hk & Hacc).
      cbn [trace] in Ht'.
      exists (EvNow now :: evs ++ EvHTTP (getRequest (Shipment s) (Auth s)) a ::
              dels ++ [EvStdout (LF +:+ "deleting " +:+ key)]).
      split.
      { rewrite Ht', Ht, <- !app_assoc. reflexivity. }
      eexists. split; [|exact Hacc]. by eapply Stuck_delete. }
  apply deleteKeys_run in HD as (evs' & Ht' & HD). cbn [trace] in Ht'.
  assert (out = Returned (data1, false, err3) ∧ r' = r4) as [-> ->].
  { destruct err3; by injection Hrun as <- <-. }
  eexists. split.
  - rewrite Ht', Ht, <- !app_assoc. reflexivity.
  - split; [done|]. cbn [app]. eapply Pushed_fetched; eauto.
Qed.

Lemma Push_run s contextKey file fileData (r : Run W Event) data v err r' :
  Push s contextKey file fileData r = (Returned (data, v, err), r') →
  v = false ∧
  ∃ evs, trace r' = trace r ++ evs ∧ Pushed s file fileData evs data err.
Proof.
  intros Hrun. apply Push_outcome in Hrun as (evs & Ht & -> & HP). eauto.
Qed.

(** The request a stuck run has to build is one the [Push] wants. *)
Lemma Stuck_wanted s file fileData evs req :
  Stuck s file fileData evs req →
  ∃ now, head evs = Some (EvNow now) ∧
         wanted s file (localKeysAt fileData now) req.
Proof.
  intros HS.
  destruct HS as [now items key val rest evs' data Hitems HU
                 |now items key val rest evs' data a Hitems HU Ha
                 |now evs' data HU
                 |now evs' data a harborKeys items key contents rest dels
                      HU Hd Hitems HD Hk];
    exists now; (split; [reflexivity|]).
  - left. exists key, val. split; [|by left].
    apply go_range_lookup. rewrite Hitems. apply elem_of_app. right. apply list_elem_of_here.
  - left. exists key, val. split; [|by right].
    apply go_range_lookup. rewrite Hitems. apply elem_of_app. right. apply list_elem_of_here.
  - right. by left.
  - right. right. by exists key.
Qed.

End PushRuns.

(** ** What the two loops of [Push] leave in the trace *)

Section LoopFacts.
Import GoTime Harbor.
Context {RT : GoRuntime} {Pk : Package} {Lb : Libraries}.
Implicit Types (file : catalog.File) (url : string) (auth : HarborAuth).
Implicit Types (evs : list Event) (data : gmap string string).

Lemma upsertOf_mono file url auth items items' ev :
  items ⊆ items' → upsertOf file url auth items ev → upsertOf file url auth items' ev.
Proof. intros Hsub (key & val & a & Hin & Hev). exists key, val, a. split; auto. Qed.

Lemma Upserts_events file url auth items data evs data' err :
  Upserts file url auth items data evs data' err →
  Forall (upsertOf file url auth items) evs.
Proof.
  induction 1 as [data|key val rest data a evs data' err Hs _ IH
                 |key val rest data a a' evs data' err Hs Hs' _ IH
                 |key val rest data a a' e Hs He].
  - constructor.
  - constructor.
    + exists key, val, a. split; [left|left]; done.
    + eapply Forall_impl; [exact IH|]. intros ev. apply upsertOf_mono. set_solver.
  - constructor; [|constructor].
    + exists key, val, a. split; [left|left]; done.
    + exists key, val, a'. split; [left|right]; done.
    + eapply Forall_impl; [exact IH|]. intros ev. apply upsertOf_mono. set_solver.
  - constructor; [|constructor; [|constructor]].
    + exists key, val, a. split; [left|left]; done.
    + exists key, val, a'. split; [left|right]; done.
Qed.

Lemma upserted_created file url auth key val a evs :
  succeeded http.StatusCreated a →
  upserted (EvHTTP (createRequest (pairOf file key val) url auth) a :: evs)
  = key :: upserted evs.
Proof. intros Hs. unfold upserted. simpl. by rewrite decide_True. Qed.

Lemma upserted_refused file url auth key val a evs :
  ¬ succeeded http.StatusCreated a →
  upserted (EvHTTP (createRequest (pairOf file key val) url auth) a :: evs)
  = upserted evs.
Proof. intros Hs. unfold upserted. simpl. by rewrite decide_False. Qed.

Lemma upserted_updated file url auth key val a evs :
  succeeded http.StatusOK a →
  upserted (EvHTTP (updateRequest (pairOf file key val) url auth) a :: evs)
  = key :: upserted evs.
Proof. intros Hs. unfold upserted. simpl. by rewrite decide_True. Qed.

Lemma upserted_not_updated file url auth key val a evs :
  ¬ succeeded http.StatusOK a →
  upserted (EvHTTP (updateRequest (pairOf file key val) url auth) a :: evs)
  = upserted evs.
Proof. intros Hs. unfold upserted. simpl. by rewrite decide_False. Qed.

(** The keys written are those the loop went through before it ended,
    and the metadata records them. *)
Lemma Upserts_split file url auth items data evs data' err :
  Upserts file url auth items data evs data' err →
  ∃ done rest, items = done ++ rest ∧ upserted evs = done.*1 ∧
               data' = recordAll file done data ∧
               (err = None → rest = []) ∧ (is_Some err → rest ≠ []).
Proof.
  induction 1 as [data|key val rest data a evs data' err Hs _ IH
                 |key val rest data a a' evs data' err Hs Hs' _ IH
                 |key val rest data a a' e Hs He].
  - exists [], []. split_and!; done.
  - destruct IH as (done & rest' & -> & Hu & -> & Hn & Hsome).
    exists ((key, val) :: done), rest'. split_and!; try done.
    rewrite upserted_created by done. simpl. by f_equal.
  - destruct IH as (done & rest' & -> & Hu & -> & Hn & Hsome).
    exists ((key, val) :: done), rest'. split_and!; try done.
    rewrite upserted_refused, upserted_updated by done. simpl. by f_equal.
  - exists [], ((key, val) :: rest). split_and!; try done.
    rewrite upserted_refused by done.
    rewrite upserted_not_updated; [done|]. by eapply expectStatus_Some.
Qed.

Lemma exchanges_app m evs evs' :
  exchanges m (evs ++ evs') = exchanges m evs ++ exchanges m evs'.
Proof. unfold exchanges. apply omap_app. Qed.

Lemma sent_app m evs evs' : sent m (evs ++ evs') = sent m evs ++ sent m evs'.
Proof. unfold sent. by rewrite exchanges_app, fmap_app. Qed.

Lemma exchanges_cons_HTTP m req a evs :
  exchanges m (EvHTTP req a :: evs)
  = if decide (http.Method_ req = m) then (req, a) :: exchanges m evs
    else exchanges m evs.
Proof. unfold exchanges. simpl. by case_decide. Qed.


Lemma exchanges_nil m evs :
  Forall (λ ev, ∀ req a, ev = EvHTTP req a → http.Method_ req ≠ m) evs →
  exchanges m evs = [].
Proof.
  induction 1 as [|ev evs Hev _ IH]; [done|].
  destruct ev as [req a| | | | | | | |]; try done.
  rewrite exchanges_cons_HTTP, decide_False; [done|]. by eapply Hev.
Qed.

Lemma exchanges_elem m evs req a :
  (req, a) ∈ exchanges m evs ↔ EvHTTP req a ∈ evs ∧ http.Method_ req = m.
Proof.
  unfold exchanges. rewrite list_elem_of_omap. split.
  - intros (ev & Hin & Hev). destruct ev as [req' a'| | | | | | | |]; try done.
    case_decide; [|done]. by injection Hev as -> ->.
  - intros [Hin Hm]. exists (EvHTTP req a). split; [done|]. by rewrite decide_True.
Qed.

Lemma upsertOf_method file url auth items ev req a :
  upsertOf file url auth items ev → ev = EvHTTP req a →
  http.Method_ req = http.POST ∨ http.Method_ req = http.PUT.
Proof.
  intros (key & val & a' & _ & [->| ->]) [= <- _]; [by left|by right].
Qed.

(** The first loop neither fetches nor deletes. *)
Lemma Upserts_only_upserts file url auth items data evs data' err m :
  Upserts file url auth items data evs data' err →
  m = http.GET ∨ m = http.DELETE → exchanges m evs = [].
Proof.
  intros HU Hm. apply exchanges_nil.
  eapply Forall_impl; [by eapply Upserts_events|].
  intros ev Hev req a Heq.
  destruct (upsertOf_method _ _ _ _ _ _ _ Hev Heq) as [-> | ->];
    destruct Hm as [-> | ->]; done.
Qed.

Lemma sent_cons_HTTP m req a evs :
  sent m (EvHTTP req a :: evs)
  = if decide (http.Method_ req = m) then req :: sent m evs else sent m evs.
Proof. unfold sent. rewrite exchanges_cons_HTTP. by case_decide. Qed.

(** The creations sent are those of the keys the loop reached, in its
    order; all of them when it ends without an error. *)
Lemma Upserts_posts file url auth items data evs data' err :
  Upserts file url auth items data evs data' err →
  ∃ n, sent http.POST evs
       = (λ '(key, val), createRequest (pairOf file key val) url auth) <$> take n items ∧
       (err = None → n = length items).
Proof.
  induction 1 as [data|key val rest data a evs data' err Hs _ IH
                 |key val rest data a a' evs data' err Hs Hs' _ IH
                 |key val rest data a a' e Hs He].
  - by exists 0%nat.
  - destruct IH as (n & Hn & Hlen). exists (S n). split.
    + rewrite sent_cons_HTTP. simpl. by rewrite Hn.
    + intros ->. simpl. by rewrite Hlen.
  - destruct IH as (n & Hn & Hlen). exists (S n). split.
    + rewrite !sent_cons_HTTP. simpl. by rewrite Hn.
    + intros ->. simpl. by rewrite Hlen.
  - exists 1%nat. split; [|done]. by rewrite !sent_cons_HTTP.
Qed.

(** A creation is followed by the update of the same pair exactly when
    it was refused. *)
Lemma Upserts_fallback file url auth items data evs data' err :
  Upserts file url auth items data evs data' err →
  ∀ i p a, evs !! i = Some (EvHTTP (createRequest p url auth) a) →
    (¬ succeeded http.StatusCreated a ↔
     ∃ a', evs !! S i = Some (EvHTTP (updateRequest p url auth) a')).
Proof.
  induction 1 as [data|key val rest data a evs data' err Hs HU IH
                 |key val rest data a a' evs data' err Hs Hs' _ IH
                 |key val rest data a a' e Hs He]; intros i p b Hi.
  - done.
  - destruct i as [|i]; simpl in *.
    + injection Hi as <- <-. split; [done|]. intros (b' & Hb').
      inversion HU; subst; simpl in Hb'; discriminate.
    + by apply IH.
  - destruct i as [|[|i]]; simpl in *.
    + injection Hi as <- <-. split; eauto.
    + discriminate.
    + by apply IH.
  - destruct i as [|[|i]]; simpl in *.
    + injection Hi as <- <-. split; eauto.
    + discriminate.
    + done.
Qed.

(** An update that fails ends the loop, with its error. *)
Lemma Upserts_failed_update file url auth items data evs data' err :
  Upserts file url auth items data evs data' err →
  ∀ i req a, evs !! i = Some (EvHTTP req a) → http.Method_ req = http.PUT →
    ¬ succeeded http.StatusOK a →
    err = expectStatus http.StatusOK a ∧ S i = length evs.
Proof.
  induction 1 as [data|key val rest data a evs data' err Hs HU IH
                 |key val rest data a a' evs data' err Hs Hs' _ IH
                 |key val rest data a a' e Hs He]; intros i req b Hi Hm Hb.
  - done.
  - destruct i as [|i]; simpl in *.
    + by injection Hi as <- <-.
    + destruct (IH _ _ _ Hi Hm Hb) as [-> <-]. done.
  - destruct i as [|[|i]]; simpl in *.
    + by injection Hi as <- <-.
    + by injection Hi as <- <-.
    + destruct (IH _ _ _ Hi Hm Hb) as [-> <-]. done.
  - destruct i as [|[|i]]; simpl in *.
    + by injection Hi as <- <-.
    + by injection Hi as <- <-.
    + done.
Qed.

(** Conversely, an error of the loop is the error of a refused update
    that came after a refused creation, and nothing follows them. *)
Lemma Upserts_error file url auth items data evs data' e :
  Upserts file url auth items data evs data' (Some e) →
  ∃ evs0 key val a a',
    evs = evs0 ++ [EvHTTP (createRequest (pairOf file key val) url auth) a;
                   EvHTTP (updateRequest (pairOf file key val) url auth) a'] ∧
    ¬ succeeded http.StatusCreated a ∧ expectStatus http.StatusOK a' = Some e.
Proof.
  remember (Some e) as err eqn:He.
  induction 1 as [data|key val rest data a evs data' err Hs HU IH
                 |key val rest data a a' evs data' err Hs Hs' _ IH
                 |key val rest data a a' e' Hs He'].
  - done.
  - destruct (IH He) as (evs0 & k & v & b & b' & -> & ? & ?).
    exists (EvHTTP (createRequest (pairOf file key val) url auth) a :: evs0).
    by exists k, v, b, b'.
  - destruct (IH He) as (evs0 & k & v & b & b' & -> & ? & ?).
    exists (EvHTTP (createRequest (pairOf file key val) url auth) a ::
            EvHTTP (updateRequest (pairOf file key val) url auth) a' :: evs0).
    by exists k, v, b, b'.
  - injection He as ->. by exists [], key, val, a, a'.
Qed.

Lemma upserted_app evs evs' : upserted (evs ++ evs') = upserted evs ++ upserted evs'.
Proof. unfold upserted. apply omap_app. Qed.

(** A first loop that ends with an error did a whole loop for the keys
    before the one it stopped at, and then had the creation and the
    update of that key refused. *)
Lemma Upserts_stopped file url auth items data evs data' e :
  Upserts file url auth items data evs data' (Some e) →
  ∃ done key val rest evs0 a a',
    items = done ++ (key, val) :: rest ∧
    evs = evs0 ++ [EvHTTP (createRequest (pairOf file key val) url auth) a;
                   EvHTTP (updateRequest (pairOf file key val) url auth) a'] ∧
    ¬ succeeded http.StatusCreated a ∧
    expectStatus http.StatusOK a' = Some e ∧
    Upserts file url auth done data evs0 data' None.
Proof.
  remember (Some e) as err eqn:Herr. intros HU. revert Herr.
  induction HU as [data|key val rest data a evs data' err Ha HU IH
                  |key val rest data a a' evs data' err Ha Ha' HU IH
                  |key val rest data a a' e' Ha Ha']; intros Herr.
  - discriminate.
  - destruct (IH Herr) as (done & k & v & rest' & evs0 & b & b' & -> & -> & Hb & Hb' & HU').
    exists ((key, val) :: done), k, v, rest',
      (EvHTTP (createRequest (pairOf file key val) url auth) a :: evs0), b, b'.
    split_and!; try done. by apply Upserts_created.
  - destruct (IH Herr) as (done & k & v & rest' & evs0 & b & b' & -> & -> & Hb & Hb' & HU').
    exists ((key, val) :: done), k, v, rest',
      (EvHTTP (createRequest (pairOf file key val) url auth) a ::
       EvHTTP (updateRequest (pairOf file key val) url auth) a' :: evs0), b, b'.
    split_and!; try done. by apply Upserts_updated.
  - injection Herr as ->. exists [], key, val, rest, [], a, a'.
    split_and!; try done. constructor.
Qed.

(** A first loop that ends without an error created or updated every
    key, in order. *)
Lemma Upserts_complete file url auth items data evs data' :
  Upserts file url auth items data evs data' None →
  sent http.POST evs
  = (λ '(key, val), createRequest (pairOf file key val) url auth) <$> items ∧
  upserted evs = items.*1.
Proof.
  intros HU. split.
  - destruct (Upserts_posts _ _ _ _ _ _ _ _ HU) as (n & Hn & Hlen).
    by rewrite (Hlen eq_refl), firstn_all in Hn.
  - destruct (Upserts_split _ _ _ _ _ _ _ _ HU) as (done & rest & -> & Hup & _ & Hrest & _).
    rewrite (Hrest eq_refl), app_nil_r. done.
Qed.

Lemma Deletes_events file url auth localKeys items evs err :
  Deletes file url auth localKeys items evs err →
  Forall (deletionOf file url auth localKeys items) evs.
Proof.
  assert (∀ key contents rest ev,
            deletionOf file url auth localKeys rest ev →
            deletionOf file url auth localKeys ((key, contents) :: rest) ev) as Hmono.
  { intros key contents rest ev [?|(k & a & Hin & Ho & ->)]; [by left|right].
    exists k, a. split; [|done]. simpl. by right. }
  induction 1 as [|key contents rest evs err Ho _ IH
                 |key contents rest a evs err Ho Hs _ IH
                 |key contents rest a e Ho He].
  - constructor.
  - eapply Forall_impl; [exact IH|]. intros ev. apply Hmono.
  - constructor; [left; eauto|]. constructor.
    + right. exists key, a. split; [simpl; set_solver|done].
    + eapply Forall_impl; [exact IH|]. intros ev. apply Hmono.
  - constructor; [left; eauto|]. constructor; [|constructor].
    right. exists key, a. split; [simpl; set_solver|done].
Qed.

(** The second loop neither creates, nor updates, nor fetches. *)
Lemma Deletes_only_deletes file url auth localKeys items evs err m :
  Deletes file url auth localKeys items evs err →
  m ≠ http.DELETE → exchanges m evs = [].
Proof.
  intros HD Hm. apply exchanges_nil.
  eapply Forall_impl; [by eapply Deletes_events|].
  intros ev [(text & ->)|(key & a & _ & _ & ->)] req b Heq; [done|].
  injection Heq as <- _. simpl. congruence.
Qed.


(** The lookups of the metadata after some keys were written. *)
Lemma recordAll_cons file key val done data :
  recordAll file ((key, val) :: done) data
  = recordAll file done
      (<[addEnvVarPrefix key := keyTypeOf file (addEnvVarPrefix key)]> data).
Proof. done. Qed.

Lemma recordAll_lookup file done data j :
  recordAll file done data !! j
  = if decide (j ∈ addEnvVarPrefix <$> done.*1) then Some (keyTypeOf file j)
    else data !! j.
Proof.
  revert data. induction done as [|[key val] done IH]; intros data.
  - case_decide as Hin; [|done]. by apply elem_of_nil in Hin.
  - rewrite recordAll_cons, IH, !fmap_cons. simpl.
    destruct (decide (j ∈ addEnvVarPrefix <$> done.*1)) as [Hin|Hin].
    + rewrite decide_True; [done|]. by right.
    + destruct (decide (j = addEnvVarPrefix key)) as [->|Hne].
      * rewrite decide_True by left. by rewrite lookup_insert_eq.
      * rewrite decide_False.
        -- by rewrite lookup_insert_ne.
        -- intros [?|?]%elem_of_cons; done.
Qed.

End LoopFacts.

(** ** The order of the two passes of [Push] *)

Section PushOrder.
Import GoTime Harbor.
Context {W : Type} {RT : GoRuntime} {Pk : Package} {Lb : Libraries}
        {Co : Collaborators W}.

Lemma not_succeeded_Some want a :
  ¬ succeeded want a → is_Some (expectStatus want a).
Proof.
  unfold succeeded. destruct (expectStatus want a); [eauto|done].
Qed.

(** A run of [Push] up to a request it has to build keeps the order of
    the two passes: after the reading of the clock come creations and
    updates of local keys, and what follows them holds no creation and
    no update. *)
Lemma Stuck_order s file fileData evs req :
  Stuck s file fileData evs req →
  ∃ now ups downs,
    evs = EvNow now :: ups ++ downs ∧
    wanted s file (localKeysAt fileData now) req ∧
    Forall (upsertOf file (buildURL (Shipment s)) (Auth s)
              (go_range (localKeysAt fileData now))) ups ∧
    exchanges http.POST downs = [] ∧ exchanges http.PUT downs = [] ∧
    exchanges http.GET ups = [] ∧ exchanges http.DELETE ups = [].
Proof.
  intros HS. destruct (Stuck_wanted _ _ _ _ _ HS) as (now' & Hhead & Hw).
  assert (∀ items evs data data' err,
            items ⊆ go_range (localKeysAt fileData now') →
            Upserts file (buildURL (Shipment s)) (Auth s) items data evs data' err →
            Forall (upsertOf file (buildURL (Shipment s)) (Auth s)
                      (go_range (localKeysAt fileData now'))) evs) as Hups.
  { intros items evs0 data data' err Hsub HU.
    eapply Forall_impl; [by eapply Upserts_events|].
    intros ev. by apply upsertOf_mono. }
  assert (∀ ups m, Forall (upsertOf file (buildURL (Shipment s)) (Auth s)
                        (go_range (localKeysAt fileData now'))) ups →
                   m = http.GET ∨ m = http.DELETE → exchanges m ups = []) as Hnone.
  { intros ups m Hall Hm. apply exchanges_nil.
    eapply Forall_impl; [exact Hall|].
    intros ev Hev req' a Heq.
    destruct (upsertOf_method _ _ _ _ _ _ _ Hev Heq) as [-> | ->];
      destruct Hm as [-> | ->]; done. }
  destruct HS as [now items key val rest evs' data Hitems HU
                 |now items key val rest evs' data a Hitems HU Ha
                 |now evs' data HU
                 |now evs' data a harborKeys items key contents rest dels
                      HU Hd Hitems HD Hk];
    simpl in Hhead; injection Hhead as <-.
  - assert (Forall (upsertOf file (buildURL (Shipment s)) (Auth s)
                      (go_range (localKeysAt fileData now))) evs') as Hall.
    { eapply Hups; [|exact HU]. rewrite Hitems. set_solver. }
    exists now, evs', []. rewrite app_nil_r. split_and!; auto.
  - assert (Forall (upsertOf file (buildURL (Shipment s)) (Auth s)
                      (go_range (localKeysAt fileData now)))
              (evs' ++ [EvHTTP (createRequest (pairOf file key val)
                                  (buildURL (Shipment s)) (Auth s)) a])) as Hall.
    { apply Forall_app. split.
      - eapply Hups; [|exact HU]. rewrite Hitems. set_solver.
      - constructor; [|constructor]. exists key, val, a. split; [|by left].
        rewrite Hitems. set_solver. }
    eexists now, _, []. rewrite app_nil_r. split_and!; auto.
  - assert (Forall (upsertOf file (buildURL (Shipment s)) (Auth s)
                      (go_range (localKeysAt fileData now))) evs') as Hall.
    { by eapply Hups; [|exact HU]. }
    exists now, evs', []. rewrite app_nil_r. split_and!; auto.
  - assert (Forall (upsertOf file (buildURL (Shipment s)) (Auth s)
                      (go_range (localKeysAt fileData now))) evs') as Hall.
    { by eapply Hups; [|exact HU]. }
    eexists now, evs', _. split_and!; [reflexivity|done|done|..]; auto.
    + rewrite exchanges_cons_HTTP. simpl. rewrite exchanges_app.
      erewrite Deletes_only_deletes; [|done|done]. done.
    + rewrite exchanges_cons_HTTP. simpl. rewrite exchanges_app.
      erewrite Deletes_only_deletes; [|done|done]. done.
Qed.

(** C3.  The interactions of a [Push] are the reading of the clock,
    then a first part [ups] and a second part [downs].  Every event of
    [ups] is the creation or the update of the pair of a local key, and
    [downs] holds no creation and no update: the fetch and the deletions
    come after all the creations and updates.  This holds of a [Push]
    that returns and of one that panics, which [Push] does when
    [http.NewRequest] refuses a request it has to build.  Take a [Push]
    that returns.  In [ups], a creation is followed by the update of the
    same pair exactly when it was refused.  There are two ways for the
    run to end.  Either the creation
    and then the update of some local key were refused: then [Push]
    returns the error of that update, which is its last interaction;
    before it, the creation of every earlier key, in the order of
    [range], was requested and each of them was written; nothing is
    fetched and nothing is deleted, so what was written stays, and the
    metadata returned hold the earlier keys.  Or the creation of every
    local key was requested, in the order of [range], and every one was
    written: then [downs] starts with the fetch, and what follows the
    fetch holds no other fetch, so that all the deletions come after
    all the creations and updates. *)
Theorem Push_upserts_before_deletes
    s contextKey file fileData (r : Run W Event) out r' evs :
  Push s contextKey file fileData r = (out, r') →
  trace r' = trace r ++ evs →
  match out with
  | Panicked =>
      ∃ now req ups downs,
        evs = EvNow now :: ups ++ downs ∧
        wanted s file (localKeysAt fileData now) req ∧ ¬ accepted req ∧
        Forall (upsertOf file (buildURL (Shipment s)) (Auth s)
                  (go_range (localKeysAt fileData now))) ups ∧
        exchanges http.POST downs = [] ∧ exchanges http.PUT downs = [] ∧
        exchanges http.GET ups = [] ∧ exchanges http.DELETE ups = []
  | Returned (data, v, err) =>
  ∃ now ups downs,
    evs = EvNow now :: ups ++ downs ∧
    let url := buildURL (Shipment s) in
    let auth := Auth s in
    let localKeys := go_range (localKeysAt fileData now) in
    let create := λ '(key, val), createRequest (pairOf file key val) url auth in
    Forall (upsertOf file url auth localKeys) ups ∧
    exchanges http.POST downs = [] ∧ exchanges http.PUT downs = [] ∧
    (∀ i p a, ups !! i = Some (EvHTTP (createRequest p url auth) a) →
       (¬ succeeded http.StatusCreated a ↔
        ∃ a', ups !! S i = Some (EvHTTP (updateRequest p url auth) a'))) ∧
    (∀ i req a, ups !! i = Some (EvHTTP req a) →
       http.Method_ req = http.PUT → ¬ succeeded http.StatusOK a →
       err = expectStatus http.StatusOK a ∧ S i = length ups ∧ downs = []) ∧
    ((∃ done key val rest ups0 a a' e,
        localKeys = done ++ (key, val) :: rest ∧
        ups = ups0 ++ [EvHTTP (createRequest (pairOf file key val) url auth) a;
                       EvHTTP (updateRequest (pairOf file key val) url auth) a'] ∧
        ¬ succeeded http.StatusCreated a ∧
        expectStatus http.StatusOK a' = Some e ∧
        err = Some e ∧ downs = [] ∧
        sent http.POST ups = create <$> (done ++ [(key, val)]) ∧
        upserted evs = done.*1 ∧
        exchanges http.GET evs = [] ∧ exchanges http.DELETE evs = [] ∧
        ∀ k, k ∈ done.*1 →
             data !! addEnvVarPrefix k = Some (keyTypeOf file (addEnvVarPrefix k))) ∨
     (sent http.POST ups = create <$> localKeys ∧
      upserted ups = localKeys.*1 ∧
      exchanges http.GET ups = [] ∧ exchanges http.DELETE ups = [] ∧
      ∃ a dels, downs = EvHTTP (getRequest (Shipment s) (Auth s)) a :: dels ∧
                exchanges http.GET dels = []))
  end.
Proof.
  intros Hrun Ht.
  apply Push_outcome in Hrun as (evs' & Ht' & Hout).
  rewrite Ht in Ht'. apply app_inv_head in Ht' as <-.
  destruct out as [[[data v] err]|].
  2:{ destruct Hout as (req & HS & Hno).
      destruct (Stuck_order _ _ _ _ _ HS)
        as (now & ups & downs & -> & Hw & Hall & Hpost & Hput & Hget & Hdel).
      by exists now, req, ups, downs. }
  destruct Hout as [_ HP].
  destruct HP as [now evs data e HU
                 |now evs data a harborKeys e HU Hd
                 |now evs data a harborKeys evs' err HU Hd HD].
  - exists now, evs, []. rewrite app_nil_r. split; [done|]. cbv zeta.
    split_and!; try done.
    + by eapply Upserts_events.
    + by eapply Upserts_fallback.
    + intros i req a Hi Hm Ha.
      destruct (Upserts_failed_update _ _ _ _ _ _ _ _ HU _ _ _ Hi Hm Ha) as [? ?].
      done.
    + left.
      destruct (Upserts_stopped _ _ _ _ _ _ _ _ HU)
        as (done & key & val & rest & ups0 & a & a' & Hitems & -> & Ha & Ha' & HU0).
      destruct (Upserts_complete _ _ _ _ _ _ _ HU0) as [Hposts Hups].
      exists done, key, val, rest, ups0, a, a', e.
      split_and!; try done.
      * rewrite sent_app, Hposts, fmap_app. f_equal.
      * change (EvNow now :: ?l) with ([EvNow now] ++ l).
        rewrite !upserted_app, Hups.
        rewrite (upserted_refused _ _ _ _ _ _ _ Ha).
        rewrite upserted_not_updated by (by eapply expectStatus_Some).
        by rewrite app_nil_r.
      * change (EvNow now :: ?l) with ([EvNow now] ++ l).
        rewrite exchanges_app. by erewrite (Upserts_only_upserts _ _ _ _ _ _ _ _ _ HU); auto.
      * change (EvNow now :: ?l) with ([EvNow now] ++ l).
        rewrite exchanges_app. by erewrite (Upserts_only_upserts _ _ _ _ _ _ _ _ _ HU); auto.
      * intros k Hk.
        destruct (Upserts_split _ _ _ _ _ _ _ _ HU0)
          as (done' & rest' & -> & _ & -> & Hrest & _).
        rewrite (Hrest eq_refl), app_nil_r in Hk.
        rewrite recordAll_lookup, decide_True; [done|].
        apply list_elem_of_fmap. by exists k.
  - exists now, evs, [EvHTTP (getRequest (Shipment s) (Auth s)) a].
    split; [done|]. cbv zeta. split_and!; try done.
    + by eapply Upserts_events.
    + by eapply Upserts_fallback.
    + intros i req b Hi Hm Hb.
      destruct (Upserts_failed_update _ _ _ _ _ _ _ _ HU _ _ _ Hi Hm Hb) as [Hn _].
      apply not_succeeded_Some in Hb as [? Hb]. congruence.
    + right. destruct (Upserts_complete _ _ _ _ _ _ _ HU) as [Hposts Hups].
      split_and!; try done.
      * by eapply Upserts_only_upserts; eauto.
      * by eapply Upserts_only_upserts; eauto.
      * by exists a, [].
  - exists now, evs, (EvHTTP (getRequest (Shipment s) (Auth s)) a :: evs').
    split; [done|]. cbv zeta. split_and!.
    + by eapply Upserts_events.
    + rewrite exchanges_cons_HTTP. simpl.
      eapply Deletes_only_deletes; [done|]. done.
    + rewrite exchanges_cons_HTTP. simpl.
      eapply Deletes_only_deletes; [done|]. done.
    + by eapply Upserts_fallback.
    + intros i req b Hi Hm Hb.
      destruct (Upserts_failed_update _ _ _ _ _ _ _ _ HU _ _ _ Hi Hm Hb) as [Hn _].
      apply not_succeeded_Some in Hb as [? Hb]. congruence.
    + right. destruct (Upserts_complete _ _ _ _ _ _ _ HU) as [Hposts Hups].
      split_and!; try done.
      * by eapply Upserts_only_upserts; eauto.
      * by eapply Upserts_only_upserts; eauto.
      * exists a, evs'. split; [done|].
        eapply Deletes_only_deletes; [done|]. done.
Qed.

End PushOrder.

(** ** The metadata [Push] returns *)

Section PushMetadata.
Import GoTime Harbor.
Context {W : Type} {RT : GoRuntime} {Pk : Package} {Lb : Libraries}
        {Co : Collaborators W}.

Lemma upserted_nil evs :
  Forall (λ ev, ∀ req a, ev = EvHTTP req a → http.Body req = None) evs →
  upserted evs = [].
Proof.
  induction 1 as [|ev evs Hev _ IH]; [done|].
  change (ev :: evs) with ([ev] ++ evs).
  rewrite upserted_app, IH, app_nil_r.
  destruct ev as [req a| | | | | | | |]; try done.
  unfold upserted. simpl. rewrite (Hev req a eq_refl).
  by destruct (http.Method_ req).
Qed.

Lemma Deletes_upserted file url auth localKeys items evs err :
  Deletes file url auth localKeys items evs err → upserted evs = [].
Proof.
  intros HD. apply upserted_nil.
  eapply Forall_impl; [by eapply Deletes_events|].
  intros ev [(text & ->)|(key & a & _ & _ & ->)] req b Heq; [done|].
  by injection Heq as <- _.
Qed.

(** The keys a [Push] shows as written are the local keys it went
    through, in the order of [range], and the metadata it returns is the
    coordinates of the shipment with the classifications of those keys
    written over them. *)
Lemma Pushed_metadata s file fileData evs data err :
  Pushed s file fileData evs data err →
  ∃ now done rest,
    head evs = Some (EvNow now) ∧
    go_range (localKeysAt fileData now) = done ++ rest ∧
    upserted evs = done.*1 ∧
    data = recordAll file done (coordinates s) ∧
    (err = None → rest = []).
Proof.
  intros [now evs' data' e HU
         |now evs' data' a harborKeys e HU Hd
         |now evs' data' a harborKeys evs'' err' HU Hd HD];
    destruct (Upserts_split _ _ _ _ _ _ _ _ HU) as (done & rest & Hi & Hu & Hdata & Hn & _);
    exists now, done.
  - exists rest. split_and!; try done.
  - exists []. rewrite (Hn eq_refl) in Hi. split_and!; try done.
    change (upserted (EvNow now :: ?l)) with (upserted l).
    rewrite upserted_app, Hu. apply app_nil_r.
  - exists []. rewrite (Hn eq_refl) in Hi. split_and!; try done.
    change (upserted (EvNow now :: ?l)) with (upserted l).
    rewrite upserted_app, Hu.
    change (upserted (EvHTTP (getRequest ?sh ?au) a :: ?l)) with (upserted l).
    rewrite (Deletes_upserted _ _ _ _ _ _ _ HD). apply app_nil_r.
Qed.



End PushMetadata.

(** ** The classification of the keys *)

Section PushClassification.
Import GoTime Harbor.
Context {W : Type} {RT : GoRuntime} {Pk : Package} {Lb : Libraries}
        {Co : Collaborators W}.

Lemma go_range_elem {V} (m : gmap string V) key val :
  (key, val) ∈ go_range m ↔ m !! key = Some val.
Proof. rewrite (go_range_perm V m). apply elem_of_map_to_list. Qed.


Lemma go_range_NoDup {V} (m : gmap string V) : NoDup (go_range m).*1.
Proof. rewrite (go_range_perm V m). apply NoDup_fst_map_to_list. Qed.

(** A [Push] that returns no error, or that sent its fetch, went through
    the whole of its first loop. *)
Lemma Pushed_first_pass s file fileData evs data err :
  Pushed s file fileData evs data err →
  err = None ∨ sent http.GET evs ≠ [] →
  ∃ now ups downs,
    evs = EvNow now :: ups ++ downs ∧
    Upserts file (buildURL (Shipment s)) (Auth s)
      (go_range (localKeysAt fileData now)) (coordinates s) ups data None.
Proof.
  intros [now ups data' e HU
         |now ups data' a harborKeys e HU Hd
         |now ups data' a harborKeys downs err' HU Hd HD] Hpass.
  - destruct Hpass as [?|Hget]; [done|]. exfalso. apply Hget.
    unfold sent. change (exchanges http.GET (EvNow now :: ups))
      with (exchanges http.GET ups).
    rewrite (Upserts_only_upserts _ _ _ _ _ _ _ _ http.GET HU); [done|by left].
  - by exists now, ups, [EvHTTP (getRequest (Shipment s) (Auth s)) a].
  - by exists now, ups, (EvHTTP (getRequest (Shipment s) (Auth s)) a :: downs).
Qed.

Lemma Pushed_bodies s file fileData evs data err :
  Pushed s file fileData evs data err →
  ∀ req a p, EvHTTP req a ∈ evs → http.Body req = Some p →
    ∃ now val, head evs = Some (EvNow now) ∧
      (pair_Name p, val) ∈ go_range (localKeysAt fileData now) ∧
      p = pairOf file (pair_Name p) val.
Proof.
  assert (∀ url auth items ups, Forall (upsertOf file url auth items) ups →
            ∀ req a p, EvHTTP req a ∈ ups → http.Body req = Some p →
              ∃ val, (pair_Name p, val) ∈ items ∧ p = pairOf file (pair_Name p) val)
    as Hups.
  { intros url auth items ups Hall req a p Hin Hbody.
    rewrite Forall_forall in Hall.
    destruct (Hall _ Hin) as (key & val & b & Hitem & [Heq|Heq]);
      injection Heq as -> _; simpl in Hbody; injection Hbody as <-; eauto. }
  assert (∀ url auth localKeys items downs,
            Forall (deletionOf file url auth localKeys items) downs →
            ∀ req a p, EvHTTP req a ∈ downs → http.Body req = Some p → False)
    as Hdowns.
  { intros url auth localKeys items downs Hall req a p Hin Hbody.
    rewrite Forall_forall in Hall.
    destruct (Hall _ Hin) as [(text & ?)|(key & b & _ & _ & Heq)]; [done|].
    by injection Heq as -> _. }
  intros [now ups data' e HU
         |now ups data' a harborKeys e HU Hd
         |now ups data' a harborKeys downs err' HU Hd HD] req b p Hin Hbody;
    apply Upserts_events in HU.
  - apply elem_of_cons in Hin as [?|Hin]; [done|].
    destruct (Hups _ _ _ _ HU _ _ _ Hin Hbody) as (val & ? & ?). by exists now, val.
  - apply elem_of_cons in Hin as [?|Hin]; [done|].
    apply elem_of_app in Hin as [Hin|Hin].
    + destruct (Hups _ _ _ _ HU _ _ _ Hin Hbody) as (val & ? & ?). by exists now, val.
    + apply list_elem_of_singleton in Hin. by injection Hin as -> _.
  - apply elem_of_cons in Hin as [?|Hin]; [done|].
    apply elem_of_app in Hin as [Hin|Hin].
    + destruct (Hups _ _ _ _ HU _ _ _ Hin Hbody) as (val & ? & ?). by exists now, val.
    + apply elem_of_cons in Hin as [Hin|Hin]; [by injection Hin as -> _|].
      apply Deletes_events in HD.
      destruct (Hdowns _ _ _ _ _ HD _ _ _ Hin Hbody).
Qed.

(** C2.  In a [Push], the classification of a key is the one recorded
    for its prefixed form in the [file.Data] it was given, unless that is
    the plain marker [envVarType] or nothing is recorded, and then it is
    [hidden].  Every pair [Push] sends, in a creation or an update,
    carries the classification of its key; every key the trace shows as
    written is recorded with it in the map returned; and when [Push]
    returns no error, or got as far as its fetch, every local key was
    written and its creation was sent with its value and its
    classification. *)
Theorem Push_classifies
    s contextKey file fileData (r : Run W Event) data v err r' evs :
  Push s contextKey file fileData r = (Returned (data, v, err), r') →
  trace r' = trace r ++ evs →
  let classify key :=
    match catalog.Data file !! addEnvVarPrefix key with
    | Some storedKeyType =>
        if decide (storedKeyType ≠ envVarType) then storedKeyType else envTypeHidden
    | None => envTypeHidden
    end in
  (∀ req a p, EvHTTP req a ∈ evs → http.Body req = Some p →
     pair_Type p = classify (pair_Name p)) ∧
  (∀ key, key ∈ upserted evs →
     data !! addEnvVarPrefix key = Some (classify key)) ∧
  (∀ now key val,
     head evs = Some (EvNow now) →
     localKeysAt fileData now !! key = Some val →
     err = None ∨ sent http.GET evs ≠ [] →
     key ∈ upserted evs ∧
     ∃ a, EvHTTP (createRequest (mkPair key val (classify key))
                    (buildURL (Shipment s)) (Auth s)) a ∈ evs).
Proof.
  intros Hrun Ht classify.
  apply Push_run in Hrun as (_ & evs' & Ht' & HP).
  rewrite Ht in Ht'. apply app_inv_head in Ht' as <-.
  split_and!.
  - intros req a p Hin Hbody.
    destruct (Pushed_bodies _ _ _ _ _ _ HP _ _ _ Hin Hbody) as (now & val & _ & _ & ->).
    done.
  - intros key Hkey.
    destruct (Pushed_metadata _ _ _ _ _ _ HP)
      as (now & done & rest & _ & _ & Hu & -> & _).
    rewrite recordAll_lookup, decide_True; [done|].
    rewrite <- Hu. by apply list_elem_of_fmap_2.
  - intros now key val Hhead Hlocal Hpass.
    destruct (Pushed_first_pass _ _ _ _ _ _ HP Hpass) as (now' & ups & downs & -> & HU).
    injection Hhead as <-.
    destruct (Upserts_split _ _ _ _ _ _ _ _ HU)
      as (done & rest & Hitems & Hu & _ & Hn & _).
    rewrite (Hn eq_refl), app_nil_r in Hitems. subst done.
    destruct (Upserts_posts _ _ _ _ _ _ _ _ HU) as (n & Hposts & Hlen).
    rewrite (Hlen eq_refl), firstn_all in Hposts.
    apply go_range_elem in Hlocal.
    split.
    + change (upserted (EvNow now' :: ?l)) with (upserted l).
      rewrite upserted_app, Hu. apply elem_of_app. left.
      by apply (list_elem_of_fmap_2 fst _ (key, val)).
    + assert (createRequest (pairOf file key val) (buildURL (Shipment s)) (Auth s)
              ∈ sent http.POST ups) as Hsent.
      { rewrite Hposts.
        by apply (list_elem_of_fmap_2
                    (λ '(key, val), createRequest (pairOf file key val) _ _)
                    _ (key, val)). }
      unfold sent in Hsent.
      apply list_elem_of_fmap in Hsent as ([req a] & Hreq & Hx). simpl in Hreq.
      subst req. apply exchanges_elem in Hx as [Hin _].
      exists a. right. apply elem_of_app. by left.
Qed.

End PushClassification.

(** ** The deletions of [Push] *)

Section PushDeletions.
Import GoTime Harbor.
Context {W : Type} {RT : GoRuntime} {Pk : Package} {Lb : Libraries}
        {Co : Collaborators W}.

(** The fetch a trace of [Push] shows is the one [Push] sent between its
    two loops, and what follows it is decided by its answer. *)
Lemma Pushed_fetch s file fileData evs data err a :
  Pushed s file fileData evs data err →
  EvHTTP (getRequest (Shipment s) (Auth s)) a ∈ evs →
  ∃ now ups downs,
    evs = EvNow now :: ups ++ EvHTTP (getRequest (Shipment s) (Auth s)) a :: downs ∧
    Upserts file (buildURL (Shipment s)) (Auth s)
      (go_range (localKeysAt fileData now)) (coordinates s) ups data None ∧
    match decodeKeys (Container (Shipment s)) a with
    | (harborKeys, None) =>
        Deletes file (buildURL (Shipment s)) (Auth s) (localKeysAt fileData now)
          (go_range harborKeys) downs err
    | (_, Some e) => downs = [] ∧ err = Some e
    end.
Proof.
  assert (∀ url auth items ups, Forall (upsertOf file url auth items) ups →
            EvHTTP (getRequest (Shipment s) (Auth s)) a ∈ ups → False) as Hups.
  { intros url auth items ups Hall Hin. rewrite Forall_forall in Hall.
    destruct (Hall _ Hin) as (key & val & b & _ & [Heq|Heq]); discriminate. }
  assert (∀ url auth localKeys items downs,
            Forall (deletionOf file url auth localKeys items) downs →
            EvHTTP (getRequest (Shipment s) (Auth s)) a ∈ downs → False) as Hdowns.
  { intros url auth localKeys items downs Hall Hin. rewrite Forall_forall in Hall.
    destruct (Hall _ Hin) as [(text & ?)|(key & b & _ & _ & Heq)]; discriminate. }
  intros [now ups data' e HU
         |now ups data' b harborKeys e HU Hd
         |now ups data' b harborKeys downs err' HU Hd HD] Hin;
    apply elem_of_cons in Hin as [?|Hin]; try done.
  - destruct (Hups _ _ _ _ (Upserts_events _ _ _ _ _ _ _ _ HU) Hin).
  - apply elem_of_app in Hin as [Hin|Hin].
    { destruct (Hups _ _ _ _ (Upserts_events _ _ _ _ _ _ _ _ HU) Hin). }
    apply list_elem_of_singleton in Hin. injection Hin as ->.
    exists now, ups, []. rewrite Hd. by split_and!.
  - apply elem_of_app in Hin as [Hin|Hin].
    { destruct (Hups _ _ _ _ (Upserts_events _ _ _ _ _ _ _ _ HU) Hin). }
    apply elem_of_cons in Hin as [Hin|Hin].
    + injection Hin as ->. exists now, ups, downs. rewrite Hd. by split_and!.
    + destruct (Hdowns _ _ _ _ _ (Deletes_events _ _ _ _ _ _ _ HD) Hin).
Qed.






End PushDeletions.

(** ** The theorems on [Push], on sample runs *)

Section PushSamples.
Import GoTime Harbor Samples.
#[local] Existing Instances listed specPackage plainLibraries sandbox.


(** The results of a run, taken apart. *)
Lemma ran_eta {A} (d : A) (x : Outcome A * Run Sandbox Event) y :
  y = ran d x → returned x = true → x = (Returned y.1, y.2).
Proof. intros ->. by destruct x as [[a|] r]. Qed.

Lemma ran_eta3 {A B C} (d : A * B * C) (x : Outcome (A * B * C) * Run Sandbox Event) y :
  y = ran d x → returned x = true →
  x = (Returned (y.1.1.1, y.1.1.2, y.1.2), y.2).
Proof. intros ->. by destruct x as [[[[a b] c]|] r]. Qed.

Lemma run_eta {A B C D} (x : A * B * C * D) : x = (x.1.1.1, x.1.1.2, x.1.2, x.2).
Proof. by destruct x as [[[? ?] ?] ?]. Qed.

Lemma decoded_eta {A B} (x : A * option B) : x.2 = None → x = (x.1, None).
Proof. destruct x as [? ?]. simpl. by intros ->. Qed.




Lemma Push_classifies_FOO :
  catalog.Data (fileWith ∅) !! "ENV_FOO" = None ∧
  fooPush.1.2 = None ∧
  fooPush.1.1.1 !! "ENV_FOO" = Some "hidden" ∧
  (∃ a, EvHTTP (createRequest (mkPair "FOO" "bar" "hidden")
                  (buildURL (Shipment store)) (Auth store)) a ∈ trace fooPush.2) ∧
  remote (world fooPush.2) !! "FOO" = Some ("bar", "hidden").
Proof.
  destruct (Push_classifies (W := Sandbox) store "ctx" (fileWith ∅) fooText
              (start (service [] [])) fooPush.1.1.1 fooPush.1.1.2 fooPush.1.2
              fooPush.2 (trace fooPush.2))
    as (_ & Hdata & Hsent).
  - apply (ran_eta3 (∅, false, None)); [reflexivity|vm_compute; reflexivity].
  - reflexivity.
  - destruct (Hsent noon "FOO" "bar") as [Hup Hreq].
    + vm_compute. reflexivity.
    + vm_compute. reflexivity.
    + left. vm_compute. reflexivity.
    + split_and!.
      * vm_compute. reflexivity.
      * vm_compute. reflexivity.
      * exact (Hdata "FOO" Hup).
      * exact Hreq.
      * vm_compute. reflexivity.
Defined.



Lemma Push_upserts_before_deletes_half :
  halfPush.1.2 = Some "500 Internal Server Error" ∧
  upserted (trace halfPush.2) = ["CSTORE_MODIFIED"; "A"] ∧
  exchanges http.GET (trace halfPush.2) = [] ∧
  exchanges http.DELETE (trace halfPush.2) = [] ∧
  ∃ a', last (trace halfPush.2)
        = Some (EvHTTP (updateRequest (mkPair "B" "2" "hidden")
                          (buildURL (Shipment store)) (Auth store)) a') ∧
        expectStatus http.StatusOK a' = Some "500 Internal Server Error".
Proof.
  assert (halfPush.1.2 = Some "500 Internal Server Error") as Herr
    by (vm_compute; reflexivity).
  assert (exchanges http.GET (trace halfPush.2) = []) as Hnoget
    by (vm_compute; reflexivity).
  destruct (Push_upserts_before_deletes (W := Sandbox) store "ctx" (fileWith ∅) halfText
              (start (service [] ["B"]))
              (Returned (halfPush.1.1.1, halfPush.1.1.2, halfPush.1.2))
              halfPush.2 (trace halfPush.2))
    as (now & ups & downs & Hevs & _ & _ & _ & _ & _ & Hend).
  - apply (ran_eta3 (∅, false, None)); [reflexivity|vm_compute; reflexivity].
  - reflexivity.
  - destruct Hend as [Hstop|Hdone].
    + destruct Hstop as (done & key & val & rest & ups0 & a & a' & e & _ & _ & _ & _ &
                         _ & _ & _ & _ & Hget & Hdel & _).
      split_and!; [exact Herr|vm_compute; reflexivity|exact Hget|exact Hdel|].
      eexists. split; vm_compute; reflexivity.
    + exfalso. destruct Hdone as (_ & _ & _ & _ & a & dels & -> & _).
      rewrite Hevs in Hnoget.
      change (EvNow now :: ?l) with ([EvNow now] ++ l) in Hnoget.
      rewrite !exchanges_app, exchanges_cons_HTTP in Hnoget.
      apply (f_equal length) in Hnoget. rewrite !length_app in Hnoget.
      simpl in Hnoget. lia.
Defined.


End PushSamples.

(** ** [Purge] *)

Section PurgeFacts.
Import GoTime Harbor.
Context {W : Type} {RT : GoRuntime} {Lb : Libraries} {Co : Collaborators W}.

Lemma isEnvVarType_spec val :
  isEnvVarType val = true ↔
  val = envTypeBasic ∨ val = envTypeDiscover ∨ val = envTypeHidden.
Proof.
  unfold isEnvVarType. repeat case_decide; split; try tauto; try done.
  all: intros [?|[?|?]]; done.
Qed.

(** The deletions of the loop of [Purge] are those of the entries whose
    value is a classification, each under the key of the entry, in the
    order of the loop: all of them, each answered with success, when the
    loop returns no error; up to the first that fails, when it returns
    the error of that one; and those before the first entry whose URL
    [http.NewRequest] refuses, each answered with success, when it
    panics. *)
Lemma purgeKeys_run url auth entries :
  ∀ (r : Run W Event) out r',
    purgeKeys url auth entries r = (out, r') →
    ∃ steps : list (string * (error + Response)),
      trace r' = trace r ++
                 ((λ '(key, a), EvHTTP (deleteRequest key url auth) a) <$> steps) ∧
      match out with
      | Returned None =>
          steps.*1 = (filter classified entries).*1 ∧
          Forall (succeeded http.StatusOK) steps.*2
      | Returned (Some e) =>
          ∃ steps' key a after,
            steps = steps' ++ [(key, a)] ∧
            Forall (succeeded http.StatusOK) steps'.*2 ∧
            expectStatus http.StatusOK a = Some e ∧
            (filter classified entries).*1 = steps.*1 ++ after
      | Panicked =>
          Forall (succeeded http.StatusOK) steps.*2 ∧
          ∃ key after,
            (filter classified entries).*1 = steps.*1 ++ key :: after ∧
            ¬ accepted (deleteRequest key url auth)
      end.
Proof.
  induction entries as [|[key val] rest IH]; intros r out r' Hrun.
  - injection Hrun as <- <-. exists []. rewrite app_nil_r.
    split; [done|]. split; [done|constructor].
  - cbn [purgeKeys] in Hrun. destruct (isEnvVarType val) eqn:Hval.
    + rewrite andThen_eq, deleteKey_run in Hrun.
      destruct (decide (accepted (deleteRequest key url auth))) as [Hok|Hno].
      2:{ injection Hrun as <- <-. exists []. rewrite app_nil_r. split; [done|].
          split; [constructor|]. exists key, (filter classified rest).*1.
          split; [|done]. by rewrite filter_cons_True. }
      destruct (client_Do (deleteRequest key url auth) (world r)) as [a w1] eqn:Ha.
      destruct (expectStatus http.StatusOK a) as [e|] eqn:He.
      * injection Hrun as <- <-. exists [(key, a)]. split; [done|].
        exists [], key, a, (filter classified rest).*1.
        split_and!; try done. by rewrite filter_cons_True.
      * apply IH in Hrun as (steps & Ht & Herr). cbn [trace] in Ht.
        exists ((key, a) :: steps). split.
        { rewrite Ht, <- app_assoc. done. }
        rewrite filter_cons_True by done. destruct out as [[e|]|].
        -- destruct Herr as (steps' & k & b & after & -> & Hok' & Hb & Hf).
           exists ((key, a) :: steps'), k, b, after. split_and!; try done.
           ++ cbn. by constructor.
           ++ rewrite !fmap_cons, Hf. done.
        -- destruct Herr as [Hk Hok']. split.
           ++ by rewrite !fmap_cons, Hk.
           ++ cbn. by constructor.
        -- destruct Herr as (Hok' & k & after & Hf & Hk). split.
           ++ cbn. by constructor.
           ++ exists k, after. split; [|done]. by rewrite !fmap_cons, Hf.
    + apply IH in Hrun as (steps & Ht & Herr). exists steps. split; [done|].
      rewrite filter_cons_False; [done|]. unfold classified. simpl. congruence.
Qed.

Lemma go_range_singleton {V} key (val : V) :
  go_range ({[key := val]} : gmap string V) = [(key, val)].
Proof.
  apply Permutation_singleton_r. rewrite (go_range_perm V).
  by rewrite map_to_list_singleton.
Qed.

(** C6, where the code departs from it.  [Push] writes the key [FOO] to
    the service and records it in the metadata as the entry of the
    prefixed key; [Purge], given that entry, asks the service to delete
    a key of the name of the entry, prefix included, and nothing else:
    whatever the service answers, no deletion of [FOO] is asked for.
    (When [http.NewRequest] refuses the URL of that deletion, [Purge]
    panics and asks for nothing at all.) *)
Theorem Purge_deletes_entry_name s contextKey (r : Run W Event) :
  let file := catalog.mkFile ".env" "harbor" "env" true {["ENV_FOO" := "hidden"]} in
  match Purge s contextKey file r with
  | (Returned err, r') =>
      ∃ a, trace r' = trace r ++
                      [EvHTTP (deleteRequest "ENV_FOO" (buildURL (Shipment s)) (Auth s)) a] ∧
           err = expectStatus http.StatusOK a
  | (Panicked, r') =>
      ¬ accepted (deleteRequest "ENV_FOO" (buildURL (Shipment s)) (Auth s)) ∧ r' = r
  end.
Proof.
  intros file. unfold Purge, file. cbn [catalog.Data].
  rewrite go_range_singleton. cbn [purgeKeys].
  change (isEnvVarType "hidden") with true. cbv iota.
  rewrite andThen_eq, deleteKey_run.
  destruct (decide (accepted (deleteRequest "ENV_FOO" (buildURL (Shipment s)) (Auth s))))
    as [Hok|Hno]; [|done].
  destruct (client_Do (deleteRequest "ENV_FOO" (buildURL (Shipment s)) (Auth s))
              (world r)) as [a w1] eqn:Ha.
  destruct (expectStatus http.StatusOK a) as [e|] eqn:He; exists a; by rewrite He.
Qed.

(** What [Purge] does, for every file: it asks for the deletion of the
    keys of the entries of [file.Data] whose value is one of [basic],
    [discover] and [hidden], under the very key of the entry, in the
    order of [range], and of nothing else.  It returns [nil] when every
    deletion succeeds; it returns the error of the first that fails,
    after which it asks for nothing more; and it panics, without
    returning, at the first such entry whose URL [http.NewRequest]
    refuses, the deletions before it having succeeded. *)
Theorem Purge_deletes_classified_entries
    s contextKey file (r : Run W Event) out r' :
  Purge s contextKey file r = (out, r') →
  let entries := filter classified (go_range (catalog.Data file)) in
  (∀ key val, (key, val) ∈ entries ↔
     catalog.Data file !! key = Some val ∧
     (val = envTypeBasic ∨ val = envTypeDiscover ∨ val = envTypeHidden)) ∧
  ∃ steps : list (string * (error + Response)),
    trace r' = trace r ++
               ((λ '(key, a),
                   EvHTTP (deleteRequest key (buildURL (Shipment s)) (Auth s)) a)
                  <$> steps) ∧
    match out with
    | Returned None =>
        steps.*1 = entries.*1 ∧ Forall (succeeded http.StatusOK) steps.*2
    | Returned (Some e) =>
        ∃ steps' key a after,
          steps = steps' ++ [(key, a)] ∧
          Forall (succeeded http.StatusOK) steps'.*2 ∧
          expectStatus http.StatusOK a = Some e ∧
          entries.*1 = steps.*1 ++ after
    | Panicked =>
        Forall (succeeded http.StatusOK) steps.*2 ∧
        ∃ key after,
          entries.*1 = steps.*1 ++ key :: after ∧
          ¬ accepted (deleteRequest key (buildURL (Shipment s)) (Auth s))
    end.
Proof.
  intros Hrun entries. split.
  - intros key val. unfold entries.
    rewrite list_elem_of_filter, go_range_elem. unfold classified. simpl.
    rewrite isEnvVarType_spec. tauto.
  - by apply purgeKeys_run.
Qed.

End PurgeFacts.

Section PurgeSamples.
Import GoTime Harbor Samples.

(** [Purge] right after the [Push] of [FOO=bar], with the metadata that
    [Push] returned: the service is asked to delete [ENV_CSTORE_MODIFIED],
    a key it does not have; [Purge] returns its refusal, and [FOO] and
    the time stamp are still there. *)
Lemma Purge_after_Push_leaves_FOO :
  fooPush.1.2 = None ∧
  remote (world fooPush.2) !! "FOO" = Some ("bar", "hidden") ∧
  fooPurge.1 = Some "404 Not Found" ∧
  sent http.DELETE (trace fooPurge.2)
  = [deleteRequest "ENV_CSTORE_MODIFIED" (buildURL (Shipment store)) (Auth store)] ∧
  remote (world fooPurge.2) = remote (world fooPush.2).
Proof. split_and!; vm_compute; reflexivity. Qed.

Lemma Purge_deletes_classified_entries_foo :
  ∃ steps : list (string * (error + Response)),
    trace fooPurge.2
    = (λ '(key, a), EvHTTP (deleteRequest key (buildURL (Shipment store)) (Auth store)) a)
        <$> steps ∧
    steps.*1 = ["ENV_CSTORE_MODIFIED"] ∧
    (filter classified (@go_range listed _ fooPush.1.1.1)).*1
    = ["ENV_CSTORE_MODIFIED"; "ENV_FOO"].
Proof.
  destruct (Purge_deletes_classified_entries (W := Sandbox) (RT := listed)
              (Lb := plainLibraries) (Co := sandbox) store "ctx"
              (fileWith fooPush.1.1.1) (start (world fooPush.2))
              (Returned fooPurge.1) fooPurge.2)
    as (_ & steps & Ht & Herr).
  - apply (ran_eta None); [reflexivity|vm_compute; reflexivity].
  - exists steps. split; [exact Ht|].
    assert (fooPurge.1 = Some "404 Not Found") as Hfail by (vm_compute; reflexivity).
    rewrite Hfail in Herr.
    destruct Herr as (steps' & key & a & after & Hsteps & _ & _ & Hentries).
    assert ((filter classified
               (@go_range listed _ (catalog.Data (fileWith fooPush.1.1.1)))).*1
            = ["ENV_CSTORE_MODIFIED"; "ENV_FOO"]) as Hall by (vm_compute; reflexivity).
    split; [|exact Hall].
    rewrite Hall in Hentries.
    assert (length steps = 1%nat) as Hlen.
    { apply (f_equal length) in Ht.
      change (trace (start (world fooPush.2))) with (@nil Event) in Ht.
      rewrite app_nil_l, length_fmap in Ht.
      rewrite <- Ht. vm_compute. reflexivity. }
    destruct steps as [|[k b] [|? ?]]; try discriminate Hlen.
    simpl in Hentries. by injection Hentries as ->.
Defined.

End PurgeSamples.

(** ** [Pull] *)

Section PullFacts.
Import GoTime Harbor.
Context {W : Type} {RT : GoRuntime} {Pk : Package} {Lb : Libraries}
        {Co : Collaborators W}.

Lemma append_cons c (s t : string) : String c s +:+ t = String c (s +:+ t).
Proof. reflexivity. Qed.

Lemma append_nil_r (s : string) : s +:+ "" = s.
Proof. induction s as [|c s IH]; [done|]. by rewrite append_cons, IH. Qed.

Lemma append_assoc (s1 s2 s3 : string) : (s1 +:+ s2) +:+ s3 = s1 +:+ (s2 +:+ s3).
Proof. induction s1 as [|c s1 IH]; [done|]. by rewrite !append_cons, IH. Qed.

Lemma writeLines_spec file keys :
  ∀ buffer,
    writeLines file keys buffer
    = buffer +:+ String.concat "" (lineOf <$> filter (claimed file) keys).
Proof.
  induction keys as [|[key contents] rest IH]; intros buffer.
  - simpl. by rewrite append_nil_r.
  - simpl. destruct (decide (key = modifiedToken)) as [->|Hkey].
    + rewrite filter_cons_False; [apply IH|]. by intros [? _].
    + destruct (decide (is_Some (catalog.Data file !! addEnvVarPrefix key)))
        as [Hc|Hc].
      * rewrite filter_cons_True by done. rewrite IH, append_assoc.
        f_equal. rewrite fmap_cons.
        destruct (lineOf <$> filter (claimed file) rest) as [|l ls] eqn:Hls.
        -- simpl. by rewrite append_nil_r.
        -- done.
      * rewrite filter_cons_False; [apply IH|]. by intros [_ ?].
Qed.

(** [Pull]: a run that panics did nothing, and had the fetch refused
    by [http.NewRequest]. *)
Lemma Pull_outcome s contextKey file (r : Run W Event) out r' :
  Pull s contextKey file r = (out, r') →
  if decide (accepted (getRequest (Shipment s) (Auth s))) then
    ∃ a w, client_Do (getRequest (Shipment s) (Auth s)) (world r) = (a, w) ∧
      match decodeKeys (Container (Shipment s)) a with
      | (_, Some e) =>
          out = Returned ("", mkAttributes zeroTime, Some e) ∧
          r' = mkRun w (trace r ++ [EvHTTP (getRequest (Shipment s) (Auth s)) a])
      | (keys, None) =>
          ∃ now w', time_Now w = (now, w') ∧
            out = Returned
                    (writeLines file (go_range keys) "",
                     mkAttributes
                       (default now
                          (modified ← keys !! modifiedToken;
                           Parse_modifiedLayout time_foreignZone (value modified))),
                     None) ∧
            r' = mkRun w' (trace r ++ [EvHTTP (getRequest (Shipment s) (Auth s)) a;
                                       EvNow now])
      end
  else out = Panicked ∧ r' = r.
Proof.
  intros Hrun. unfold Pull in Hrun.
  rewrite andThen_eq, getHarborKeys_run in Hrun.
  destruct (decide (accepted (getRequest (Shipment s) (Auth s)))) as [Hok|Hno];
    [|by injection Hrun as <- <-].
  destruct (client_Do (getRequest (Shipment s) (Auth s)) (world r)) as [a w] eqn:Ha.
  exists a, w. split; [done|].
  destruct (decodeKeys (Container (Shipment s)) a) as [keys [e|]] eqn:Hd.
  - by injection Hrun as <- <-.
  - rewrite andThen_eq, lift_eq in Hrun. cbv [Now perform] in Hrun.
    cbn [world trace] in Hrun.
    destruct (time_Now w) as [now w'] eqn:Hnow. cbn [fst snd] in Hrun.
    exists now, w'. split; [done|].
    injection Hrun as <- <-. split.
    + do 2 f_equal.
      destruct (keys !! modifiedToken) as [modified|]; simpl; [|done].
      by destruct (Parse_modifiedLayout time_foreignZone (value modified)).
    + by rewrite <- app_assoc.
Qed.

Lemma Pull_run s contextKey file (r : Run W Event) contents attr err r' :
  Pull s contextKey file r = (Returned (contents, attr, err), r') →
  ∃ a w, client_Do (getRequest (Shipment s) (Auth s)) (world r) = (a, w) ∧
    match decodeKeys (Container (Shipment s)) a with
    | (_, Some e) =>
        err = Some e ∧ contents = "" ∧ attr = mkAttributes zeroTime ∧
        r' = mkRun w (trace r ++ [EvHTTP (getRequest (Shipment s) (Auth s)) a])
    | (keys, None) =>
        ∃ now w', time_Now w = (now, w') ∧
          err = None ∧
          contents = writeLines file (go_range keys) "" ∧
          attr = mkAttributes
                   (default now
                      (modified ← keys !! modifiedToken;
                       Parse_modifiedLayout time_foreignZone (value modified))) ∧
          r' = mkRun w' (trace r ++ [EvHTTP (getRequest (Shipment s) (Auth s)) a;
                                     EvNow now])
    end.
Proof.
  intros Hrun. apply Pull_outcome in Hrun.
  destruct (decide (accepted (getRequest (Shipment s) (Auth s)))) as [Hok|Hno];
    [|by destruct Hrun].
  destruct Hrun as (a & w & Ha & Hcases). exists a, w. split; [done|].
  destruct (decodeKeys (Container (Shipment s)) a) as [keys [e|]].
  - destruct Hcases as [[= -> -> ->] ->]. done.
  - destruct Hcases as (now & w' & Hnow & [= -> -> ->] & ->).
    exists now, w'. done.
Qed.

(** C9.  Take a [Pull] whose fetch was answered with the remote keys
    [keys].  It returns no error, and its bytes are the lines
    [key=value] of the remote keys it emits, in the order of [range]:
    a remote key is emitted, once, exactly when it is not the time stamp
    and [file.Data] holds an entry for its prefixed form.  In
    particular, when the remote keys are some key [x] of value [v] and
    the time stamp, and [file.Data] claims [x], the bytes are the one
    line of [x]. *)
Theorem Pull_emits_claimed_keys
    s contextKey file (r : Run W Event) contents attr err r' evs a keys :
  Pull s contextKey file r = (Returned (contents, attr, err), r') →
  trace r' = trace r ++ evs →
  head evs = Some (EvHTTP (getRequest (Shipment s) (Auth s)) a) →
  decodeKeys (Container (Shipment s)) a = (keys, None) →
  err = None ∧
  (∃ emitted : list (string * harborKey),
     contents = String.concat "" (lineOf <$> emitted) ∧
     emitted = filter (claimed file) (go_range keys) ∧
     NoDup emitted.*1 ∧
     ∀ key c, (key, c) ∈ emitted ↔
              keys !! key = Some c ∧ key ≠ modifiedToken ∧
              is_Some (catalog.Data file !! addEnvVarPrefix key)) ∧
  (∀ x v ty ts ty',
     x ≠ modifiedToken →
     keys = <[x := mkKey v ty]> {[modifiedToken := mkKey ts ty']} →
     is_Some (catalog.Data file !! addEnvVarPrefix x) →
     contents = x +:+ "=" +:+ v +:+ LF).
Proof.
  intros Hrun Ht Hhead Hdecode.
  apply Pull_run in Hrun as (a' & w & Ha & Hcases).
  assert (a' = a) as ->.
  { destruct (decodeKeys (Container (Shipment s)) a') as [keys' [e|]].
    - destruct Hcases as (_ & _ & _ & ->). simpl in Ht.
      apply app_inv_head in Ht as <-. by injection Hhead as ->.
    - destruct Hcases as (now & w' & _ & _ & _ & _ & ->). simpl in Ht.
      apply app_inv_head in Ht as <-. by injection Hhead as ->. }
  rewrite Hdecode in Hcases.
  destruct Hcases as (now & w' & _ & -> & -> & _ & _).
  rewrite writeLines_spec. simpl.
  assert (NoDup (filter (claimed file) (go_range keys)).*1) as Hnodup.
  { eapply sublist_NoDup; [apply (go_range_NoDup keys)|].
    apply fmap_sublist, sublist_filter. }
  assert (∀ key c, (key, c) ∈ filter (claimed file) (go_range keys) ↔
                   keys !! key = Some c ∧ key ≠ modifiedToken ∧
                   is_Some (catalog.Data file !! addEnvVarPrefix key)) as Helem.
  { intros key c. rewrite list_elem_of_filter, go_range_elem.
    unfold claimed. simpl. tauto. }
  split_and!; [done|by eexists|].
  intros x v ty ts ty' Hx -> Hclaim.
  assert (filter (claimed file)
            (go_range (<[x := mkKey v ty]> {[modifiedToken := mkKey ts ty']}))
          = [(x, mkKey v ty)]) as ->.
  { apply Permutation_singleton_r. apply NoDup_Permutation.
    - by eapply NoDup_fmap_1.
    - apply NoDup_singleton.
    - intros [key c]. rewrite Helem, list_elem_of_singleton. split.
      + intros (Hlook & Hkey & _).
        apply lookup_insert_Some in Hlook as [[<- <-]|[_ Hlook]]; [done|].
        apply lookup_singleton_Some in Hlook as [<- _]. done.
      + intros [= -> ->]. by rewrite lookup_insert_eq. }
  reflexivity.
Qed.

End PullFacts.

Section PullSamples.
Import GoTime Harbor Samples.
#[local] Existing Instances listed specPackage plainLibraries sandbox.

Lemma Pull_emits_claimed_keys_X :
  xPull.1.1.1 = "X=1" +:+ LF ∧
  xPull.1.2 = None ∧
  LastModified xPull.1.1.2 = mkTime 2024 1 1 0 0 0 0.
Proof.
  destruct (Pull_emits_claimed_keys (W := Sandbox) store "ctx" xFile
              (start (service xVars [])) xPull.1.1.1 xPull.1.1.2 xPull.1.2 xPull.2
              (trace xPull.2) (fetchAnswer (trace xPull.2))
              (<["X" := mkKey "1" "hidden"]> {[modifiedToken := mkKey xStamp "hidden"]}))
    as (Herr & _ & Hline).
  - apply (ran_eta3 ("", mkAttributes zeroTime, None)); [reflexivity|vm_compute; reflexivity].
  - reflexivity.
  - vm_compute. reflexivity.
  - apply (bool_decide_unpack _). vm_compute. exact I.
  - split_and!; [|exact Herr|vm_compute; reflexivity].
    apply (Hline "X" "1" "hidden" xStamp "hidden").
    + discriminate.
    + reflexivity.
    + exists "hidden". vm_compute. reflexivity.
Defined.

End PullSamples.
(** ** The time stamp, rendered and read back *)

Section TimeFacts.
Import GoTime.

Lemma bind_Some {A B} (x : A) (f : A → option B) : (Some x ≫= f) = f x.
Proof. reflexivity. Qed.

Lemma leadingInt_cons c rest x :
  leadingInt (String c rest) x
  = if isDigit c then leadingInt rest (x * 10 + digit_val c) else (x, String c rest).
Proof. reflexivity. Qed.

Ltac digit_cases d :=
  let Hc := fresh in
  assert (d = 0 ∨ d = 1 ∨ d = 2 ∨ d = 3 ∨ d = 4 ∨ d = 5 ∨ d = 6 ∨ d = 7 ∨
          d = 8 ∨ d = 9) as Hc by lia;
  destruct Hc as [->|[->|[->|[->|[->|[->|[->|[->|[->| ->]]]]]]]]].

Ltac dlia := Z.to_euclidean_division_equations; lia.

Lemma isDigit_digit d : 0 ≤ d ≤ 9 → isDigit (digit d) = true.
Proof. intros Hd. digit_cases d; reflexivity. Qed.

Lemma digit_val_digit d : 0 ≤ d ≤ 9 → digit_val (digit d) = d.
Proof. intros Hd. digit_cases d; reflexivity. Qed.

Lemma digit_not_space d : 0 ≤ d ≤ 9 → digit d ≠ " "%char.
Proof. intros Hd. digit_cases d; discriminate. Qed.

Lemma digit_zero d : 0 ≤ d ≤ 9 → digit d = "0"%char → d = 0.
Proof. intros Hd. digit_cases d; (reflexivity || discriminate). Qed.

Lemma isDigit_space : isDigit " " = false.
Proof. reflexivity. Qed.

Lemma append_nil_l (s : string) : "" +:+ s = s.
Proof. reflexivity. Qed.

(** The digits of a number are digits, and read back as the number. *)
Lemma fixed_digits_length w u : String.length (fixed_digits w u) = w.
Proof.
  revert u. induction w as [|w IH]; intros u; [done|].
  simpl. 
  assert (∀ s c, String.length (s +:+ String c "") = S (String.length s)) as Hl.
  { intros s c. induction s as [|c' s IHs]; [done|].
    rewrite append_cons. simpl. by rewrite IHs. }
  by rewrite Hl, IH.
Qed.

Lemma leadingInt_fixed_digits w :
  ∀ u rest acc,
    leadingInt (fixed_digits w u +:+ rest) acc
    = leadingInt rest (acc * 10 ^ Z.of_nat w + u mod 10 ^ Z.of_nat w).
Proof.
  induction w as [|w IH]; intros u rest acc.
  - simpl. rewrite append_nil_l. f_equal. rewrite Z.mod_1_r. lia.
  - change (fixed_digits (S w) u)
      with (fixed_digits w (u / 10) +:+ String (digit (u mod 10)) "").
    rewrite append_assoc, append_cons, append_nil_l, IH.
    assert (0 ≤ u mod 10 ≤ 9) as Hd by (pose proof (Z.mod_pos_bound u 10); lia).
    rewrite leadingInt_cons, (isDigit_digit _ Hd), (digit_val_digit _ Hd).
    f_equal. rewrite Nat2Z.inj_succ, Z.pow_succ_r by lia.
    rewrite (Z.rem_mul_r u 10 (10 ^ Z.of_nat w)) by lia. lia.
Qed.

Lemma appendInt_two x :
  0 ≤ x < 100 →
  appendInt x 2 = String (digit (x / 10)) (String (digit (x mod 10)) "").
Proof.
  intros Hx. unfold appendInt. rewrite decide_True by (simpl; lia).
  change (fixed_digits 2 x)
    with (("" +:+ String (digit (x / 10 mod 10)) "") +:+ String (digit (x mod 10)) "").
  rewrite append_nil_l, append_cons, append_nil_l.
  by rewrite (Z.mod_small (x / 10)) by dlia.
Qed.

Lemma appendInt_four y :
  0 ≤ y ≤ 9999 →
  appendInt y 4
  = String (digit (y / 1000)) (String (digit (y / 100 mod 10))
      (String (digit (y / 10 mod 10)) (String (digit (y mod 10)) ""))).
Proof.
  intros Hy. unfold appendInt. rewrite decide_True by (simpl; lia).
  change (fixed_digits 4 y)
    with (((("" +:+ String (digit (y / 10 / 10 / 10 mod 10)) "") +:+
            String (digit (y / 10 / 10 mod 10)) "") +:+
           String (digit (y / 10 mod 10)) "") +:+ String (digit (y mod 10)) "").
  rewrite append_nil_l, !append_cons, !append_nil_l.
  replace (y / 10 / 10 / 10 mod 10) with (y / 1000) by dlia.
  replace (y / 10 / 10) with (y / 100) by dlia.
  done.
Qed.

Lemma getnum_digits a b rest fixed :
  0 ≤ a ≤ 9 → 0 ≤ b ≤ 9 →
  getnum (String (digit a) (String (digit b) rest)) fixed = Some (a * 10 + b, rest).
Proof.
  intros Ha Hb. unfold getnum.
  by rewrite (isDigit_digit _ Ha), (isDigit_digit _ Hb),
    (digit_val_digit _ Ha), (digit_val_digit _ Hb).
Qed.

Lemma getnum_two x rest fixed :
  0 ≤ x < 100 → getnum (appendInt x 2 +:+ rest) fixed = Some (x, rest).
Proof.
  intros Hx. rewrite (appendInt_two _ Hx), !append_cons, append_nil_l.
  rewrite getnum_digits by dlia. do 2 f_equal. dlia.
Qed.

Lemma atoi_digits d s :
  0 ≤ d ≤ 9 →
  atoi (String (digit d) s)
  = match leadingInt (String (digit d) s) 0 with
    | (q, "") => Some q
    | _ => None
    end.
Proof. intros Hd. digit_cases d; reflexivity. Qed.

Lemma atoi_four y :
  0 ≤ y ≤ 9999 → atoi (appendInt y 4) = Some y.
Proof.
  intros Hy. rewrite appendInt_four by done.
  rewrite atoi_digits by dlia. rewrite !leadingInt_cons.
  rewrite !isDigit_digit, !digit_val_digit by dlia.
  change (leadingInt "" ?x) with (x, ""). f_equal. dlia.
Qed.

Lemma cutspace_digit d s :
  0 ≤ d ≤ 9 → cutspace (String (digit d) s) = String (digit d) s.
Proof. intros Hd. digit_cases d; reflexivity. Qed.

Lemma all_digits_cons c s : all_digits (String c s) = isDigit c && all_digits s.
Proof. reflexivity. Qed.

Lemma all_digits_app s1 s2 :
  all_digits (s1 +:+ s2) = all_digits s1 && all_digits s2.
Proof.
  induction s1 as [|c s1 IH]; [done|].
  by rewrite append_cons, !all_digits_cons, IH, andb_assoc.
Qed.

Lemma all_digits_fixed w u : all_digits (fixed_digits w u) = true.
Proof.
  revert u. induction w as [|w IH]; intros u; [done|].
  change (fixed_digits (S w) u)
    with (fixed_digits w (u / 10) +:+ String (digit (u mod 10)) "").
  rewrite all_digits_app, IH, all_digits_cons, isDigit_digit; [done|].
  pose proof (Z.mod_pos_bound u 10). lia.
Qed.

Lemma length_append (s1 s2 : string) :
  String.length (s1 +:+ s2) = (String.length s1 + String.length s2)%nat.
Proof.
  induction s1 as [|c s1 IH]; [done|]. rewrite append_cons. simpl. by rewrite IH.
Qed.

Lemma length_zeros k : String.length (zeros k) = k.
Proof. induction k as [|k IH]; [done|]. simpl. by rewrite IH. Qed.

(** A string is its trimmed form followed by zeros. *)
Lemma trim_zeros_split s : ∃ k, s = trim_zeros s +:+ zeros k.
Proof.
  induction s as [|c s [k IH]]; [by exists 0%nat|].
  simpl. destruct (trim_zeros s) as [|c' s'] eqn:Ht.
  - rewrite append_nil_l in IH. subst s. case_decide as Hc.
    + subst c. by exists (S k).
    + exists k. by rewrite append_cons, append_nil_l.
  - exists k. rewrite append_cons. by f_equal.
Qed.

Lemma leadingInt_digits s :
  all_digits s = true →
  ∀ rest acc, leadingInt (s +:+ rest) acc = leadingInt rest (leadingInt s acc).1.
Proof.
  induction s as [|c s IH]; intros Hs rest acc; [done|].
  rewrite all_digits_cons in Hs. apply andb_true_iff in Hs as [Hc Hs].
  rewrite append_cons. simpl. rewrite Hc. by apply IH.
Qed.

Lemma leadingInt_digits_end s acc :
  all_digits s = true → (leadingInt s acc).2 = "".
Proof.
  revert acc. induction s as [|c s IH]; intros acc Hs; [done|].
  rewrite all_digits_cons in Hs. apply andb_true_iff in Hs as [Hc Hs].
  simpl. rewrite Hc. by apply IH.
Qed.

Lemma leadingInt_zeros k :
  ∀ acc, leadingInt (zeros k) acc = (acc * 10 ^ Z.of_nat k, "").
Proof.
  induction k as [|k IH]; intros acc.
  - simpl. f_equal. lia.
  - simpl zeros. simpl leadingInt. change (isDigit "0") with true. cbv iota.
    rewrite IH. f_equal. change (digit_val "0") with 0.
    rewrite Nat2Z.inj_succ, Z.pow_succ_r by lia. lia.
Qed.

Lemma span_digits_space s r :
  all_digits s = true →
  span_digits (s +:+ String " " r) = (s, String " " r).
Proof.
  induction s as [|c s IH]; intros Hs; [done|].
  rewrite all_digits_cons in Hs. apply andb_true_iff in Hs as [Hc Hs].
  rewrite append_cons. simpl. by rewrite Hc, (IH Hs).
Qed.

Lemma substring_to_all n s :
  (String.length s ≤ n)%nat → substring_to n s = s.
Proof.
  revert n. induction s as [|c s IH]; intros n Hn; [by destruct n|].
  destruct n as [|n]; simpl in *; [lia|]. rewrite IH; [done|lia].
Qed.

(** The fraction of a second, as rendered, is read back. *)
Lemma parseFraction_appendNano ns r :
  0 ≤ ns < 1000000000 →
  parseFraction (appendNano ns +:+ String " " r) = Some (ns, String " " r).
Proof.
  intros Hns. unfold appendNano.
  destruct (ns =? 0) eqn:Hz.
  { apply Z.eqb_eq in Hz as ->. rewrite append_nil_l. by destruct r. }
  apply Z.eqb_neq in Hz.
  unfold appendInt. rewrite decide_True by (simpl; lia).
  destruct (trim_zeros_split (fixed_digits 9 ns)) as [k Hsplit].
  pose proof (all_digits_fixed 9 ns) as Hall.
  pose proof (leadingInt_fixed_digits 9 ns "" 0) as Hval.
  rewrite append_nil_r, Z.mod_small in Hval by (simpl; lia).
  pose proof (fixed_digits_length 9 ns) as Hlen.
  remember (trim_zeros (fixed_digits 9 ns)) as T eqn:HT0. clear HT0.
  rewrite Hsplit in Hall, Hval, Hlen. clear Hsplit.
  rewrite all_digits_app in Hall. apply andb_true_iff in Hall as [HT _].
  rewrite leadingInt_digits, leadingInt_zeros in Hval by done.
  injection Hval as Hval.
  rewrite length_append, length_zeros in Hlen.
  pose proof (leadingInt_digits_end T 0 HT) as Hend.
  destruct (leadingInt T 0) as [q rest] eqn:Hq.
  change ((q, rest).1) with q in Hval. change ((q, rest).2) with rest in Hend.
  subst rest.
  destruct T as [|d T'].
  { injection Hq as <-. lia. }
  assert (isDigit d = true) as Hd.
  { rewrite all_digits_cons in HT. by apply andb_true_iff in HT as [? _]. }
  assert (atoi (String d T') = Some q) as Hatoi.
  { unfold atoi.
    assert (match String d T' with
            | String "-" r0 => (true, r0)
            | String "+" r0 => (false, r0)
            | _ => (false, String d T')
            end = (false, String d T')) as ->.
    { destruct d as [[] [] [] [] [] [] [] []]; try done. }
    by rewrite Hq. }
  rewrite append_cons, append_nil_l.
  unfold parseFraction.
  change (String "." (String d T') +:+ String " " r)
    with (String "." (String d (T' +:+ String " " r))).
  cbv iota. change (commaOrPeriod ".") with true. rewrite Hd.
  change (true && true) with true. cbv iota.
  change (String d (T' +:+ String " " r)) with (String d T' +:+ String " " r).
  rewrite span_digits_space by done.
  rewrite substring_to_all by lia.
  rewrite Hatoi, bind_Some. do 2 f_equal.
  replace (9 - String.length (String d T'))%nat with k by lia.
  change (Z.of_nat 9) with 9 in Hval. lia.
Qed.

Lemma skip_char c rest :
  c ≠ " "%char → skip (String c rest) (String c "") = Some rest.
Proof.
  intros Hc. unfold skip, skip_from.
  rewrite (decide_False (P := c = " "%char)) by done.
  by rewrite decide_True.
Qed.

Lemma skip_space_digit d rest :
  0 ≤ d ≤ 9 →
  skip (String " " (String (digit d) rest)) " " = Some (String (digit d) rest).
Proof.
  intros Hd. unfold skip, skip_from.
  rewrite !(decide_True (P := " "%char = " "%char)) by done.
  change (cutspace (String " " ?s)) with (cutspace s).
  by rewrite cutspace_digit.
Qed.

Ltac next := rewrite bind_Some; cbv beta iota.

Lemma in_range_ok lo x hi : lo ≤ x ≤ hi → in_range lo x hi = Some ().
Proof. intros Hx. unfold in_range. by rewrite decide_True. Qed.

Lemma parseCivil_render t r :
  valid t →
  parseCivil
    (appendInt (Year t) 4 +:+ "-" +:+ appendInt (Month t) 2 +:+ "-" +:+
     appendInt (Day t) 2 +:+ " " +:+ appendInt (Hour t) 2 +:+ ":" +:+
     appendInt (Minute t) 2 +:+ ":" +:+ appendInt (Second t) 2 +:+
     appendNano (Nanosecond t) +:+ String " " r)
  = Some (t, String " " r).
Proof.
  intros (Hy & Hm & Hd & Hh & Hmi & Hs & Hn).
  assert (Day t < 100) as Hd'.
  { unfold daysIn in Hd. repeat case_match; lia. }
  destruct t as [year month day hour minute sec nsec].
  unfold Year, Month, Day, Hour, Minute, Second, Nanosecond in *.
  set (tail1 := "-" +:+ _).
  assert (∃ d x, appendInt year 4 = String (digit d) x ∧ 0 ≤ d ≤ 9 ∧
                 String.length x = 3%nat) as (d & x & Hfour & Hdig & Hlen).
  { rewrite appendInt_four by done. eexists _, _. split; [done|]. split; [dlia|done]. }
  unfold parseCivil. rewrite Hfour at 1.
  change (String (digit d) x +:+ tail1) with (String (digit d) (x +:+ tail1)).
  cbv iota. rewrite isDigit_digit by done.
  rewrite decide_True.
  2:{ rewrite length_append, Hfour. cbn [String.length]. lia. }
  next.
  assert (substring_to 4 (appendInt year 4 +:+ tail1) = appendInt year 4) as ->.
  { rewrite appendInt_four by done. by rewrite !append_cons. }
  assert (substring_from 4 (appendInt year 4 +:+ tail1) = tail1) as ->.
  { rewrite appendInt_four by done. by rewrite !append_cons. }
  rewrite atoi_four by done. next.
  unfold tail1. clear tail1.
  rewrite ?append_cons, ?append_nil_l, skip_char by done. next.
  rewrite getnum_two by lia. next.
  rewrite in_range_ok by lia. next.
  rewrite ?append_cons, ?append_nil_l, skip_char by done. next.
  rewrite getnum_two by lia. next.
  rewrite (appendInt_two hour) by lia.
  rewrite ?append_cons, ?append_nil_l.
  rewrite skip_space_digit by dlia. next.
  rewrite getnum_digits by dlia. next.
  rewrite in_range_ok by dlia. next.
  rewrite ?append_cons, ?append_nil_l, skip_char by done. next.
  rewrite getnum_two by lia. next.
  rewrite in_range_ok by lia. next.
  rewrite ?append_cons, ?append_nil_l, skip_char by done. next.
  rewrite getnum_two by lia. next.
  rewrite in_range_ok by lia. next.
  rewrite parseFraction_appendNano by lia. next.
  do 3 f_equal. dlia.
Qed.

(** The instant [Push] renders is the instant [Pull] reads. *)
Lemma Parse_UTC_String foreignZone t :
  valid t → Parse_modifiedLayout foreignZone (UTC_String t) = Some t.
Proof.
  intros Hvalid. unfold Parse_modifiedLayout, UTC_String.
  change (" " +:+ "+0000" +:+ " " +:+ "UTC") with (String " " "+0000 UTC").
  rewrite parseCivil_render by done. next.
  change (parseZone (String " " "+0000 UTC")) with UTCZone. cbv iota.
  rewrite decide_True; [done|]. by destruct Hvalid as (_ & _ & ? & _).
Qed.

End TimeFacts.

(** ** The time stamp, from [Push] to [Pull] *)

Section Timestamp.
Import GoTime Harbor.
Context {W : Type} {RT : GoRuntime} {Pk : Package} {Lb : Libraries}
        {Co : Collaborators W}.

(** The fetch a trace of [Pull] starts with is the one [Pull] sent, and
    the attributes are decided by its answer and by the clock. *)
Lemma Pull_fetched s contextKey file (r : Run W Event) contents attr err r' evs a keys :
  Pull s contextKey file r = (Returned (contents, attr, err), r') →
  trace r' = trace r ++ evs →
  head evs = Some (EvHTTP (getRequest (Shipment s) (Auth s)) a) →
  decodeKeys (Container (Shipment s)) a = (keys, None) →
  ∃ now,
    evs = [EvHTTP (getRequest (Shipment s) (Auth s)) a; EvNow now] ∧
    err = None ∧
    contents = writeLines file (go_range keys) "" ∧
    attr = mkAttributes
             (default now
                (modified ← keys !! modifiedToken;
                 Parse_modifiedLayout time_foreignZone (value modified))).
Proof.
  intros Hrun Ht Hhead Hdecode.
  apply Pull_run in Hrun as (a' & w & Ha & Hcases).
  assert (a' = a) as ->.
  { destruct (decodeKeys (Container (Shipment s)) a') as [keys' [e|]].
    - destruct Hcases as (_ & _ & _ & ->). simpl in Ht.
      apply app_inv_head in Ht as <-. by injection Hhead as ->.
    - destruct Hcases as (now & w' & _ & _ & _ & _ & ->). simpl in Ht.
      apply app_inv_head in Ht as <-. by injection Hhead as ->. }
  rewrite Hdecode in Hcases.
  destruct Hcases as (now & w' & _ & -> & -> & -> & ->).
  simpl in Ht. apply app_inv_head in Ht as <-. by exists now.
Qed.

(** C8.  Take a [Push] that read the clock at an instant [now] with a
    four digit year.  Every pair it sends for the time stamp key carries
    the rendering of [now] as its value; and any [Pull] whose fetch
    returns that value under the time stamp key parses it and reports
    [now] as [LastModified], whatever its own clock says. *)
Theorem Pull_reads_pushed_timestamp
    s contextKey file fileData (r : Run W Event) data v err r' evs now :
  Push s contextKey file fileData r = (Returned (data, v, err), r') →
  trace r' = trace r ++ evs →
  head evs = Some (EvNow now) →
  valid now →
  (∀ req a p, EvHTTP req a ∈ evs → http.Body req = Some p →
     pair_Name p = modifiedToken → pair_Value p = UTC_String now) ∧
  (∀ s2 contextKey2 file2 (r2 : Run W Event) contents attr err2 r2' evs2 a keys c,
     Pull s2 contextKey2 file2 r2 = (Returned (contents, attr, err2), r2') →
     trace r2' = trace r2 ++ evs2 →
     head evs2 = Some (EvHTTP (getRequest (Shipment s2) (Auth s2)) a) →
     decodeKeys (Container (Shipment s2)) a = (keys, None) →
     keys !! modifiedToken = Some c →
     value c = UTC_String now →
     err2 = None ∧ LastModified attr = now).
Proof.
  intros Hrun Ht Hhead Hvalid. split.
  - intros req a p Hin Hbody Hname.
    apply Push_run in Hrun as (_ & evs' & Ht' & HP).
    rewrite Ht in Ht'. apply app_inv_head in Ht' as <-.
    destruct (Pushed_bodies _ _ _ _ _ _ HP _ _ _ Hin Hbody)
      as (now' & val & Hhead' & Hlocal & ->).
    rewrite Hhead in Hhead'. injection Hhead' as <-.
    simpl in Hname. rewrite Hname in Hlocal.
    apply go_range_elem in Hlocal. unfold localKeysAt in Hlocal.
    rewrite lookup_insert_eq in Hlocal. by injection Hlocal as <-.
  - intros s2 contextKey2 file2 r2 contents attr err2 r2' evs2 a keys c
      Hpull Ht2 Hhead2 Hdecode Hkey Hvalue.
    destruct (Pull_fetched _ _ _ _ _ _ _ _ _ _ _ Hpull Ht2 Hhead2 Hdecode)
      as (now2 & _ & -> & _ & ->).
    split; [done|]. rewrite Hkey. simpl. rewrite Hvalue.
    by rewrite Parse_UTC_String.
Qed.

End Timestamp.

Section TimestampSamples.
Import GoTime Harbor Samples.
#[local] Existing Instances listed specPackage plainLibraries sandbox.

Lemma Pull_reads_pushed_timestamp_foo :
  head (trace fooPush.2) = Some (EvNow noon) ∧
  last (trace fooPull.2) = Some (EvNow evening) ∧
  fooPull.1.2 = None ∧
  LastModified fooPull.1.1.2 = noon.
Proof.
  assert (head (trace fooPush.2) = Some (EvNow noon)) as Hnoon
    by (vm_compute; reflexivity).
  destruct (Pull_reads_pushed_timestamp (W := Sandbox) store "ctx" (fileWith ∅)
              fooText (start (service [] [])) fooPush.1.1.1 fooPush.1.1.2
              fooPush.1.2 fooPush.2 (trace fooPush.2) noon)
    as [_ Hpull].
  - apply (ran_eta3 (∅, false, None)); [reflexivity|vm_compute; reflexivity].
  - reflexivity.
  - exact Hnoon.
  - apply (bool_decide_unpack _). vm_compute. exact I.
  - destruct (Hpull store "ctx" (fileWith fooPush.1.1.1)
                (start (mkSandbox evening "web" (remote (world fooPush.2)) ∅ true
                                  ("", false, None) ∅ ∅))
                fooPull.1.1.1 fooPull.1.1.2 fooPull.1.2 fooPull.2 (trace fooPull.2)
                (fetchAnswer (trace fooPull.2))
                (decodeKeys "web" (fetchAnswer (trace fooPull.2))).1
                (mkKey (UTC_String noon) "hidden"))
      as [Herr Hlast].
    + apply (ran_eta3 ("", mkAttributes zeroTime, None)); [reflexivity|vm_compute; reflexivity].
    + reflexivity.
    + vm_compute. reflexivity.
    + apply decoded_eta. vm_compute. reflexivity.
    + vm_compute. reflexivity.
    + reflexivity.
    + split_and!; [exact Hnoon|vm_compute; reflexivity|exact Herr|exact Hlast].
Defined.

End TimestampSamples.
Section EffFacts.
Context {W Ev : Type}.

Lemma bind_run {A B} (m : Eff W Ev A) (k : A → Eff W Ev B) r b r' :
  bind m k r = (b, r') → ∃ a r1, m r = (a, r1) ∧ k a r1 = (b, r').
Proof. unfold bind. destruct (m r) as [a r1]. by exists a, r1. Qed.

Lemma perform_run {A} (ev : A → Ev) (f : W → A * W) r a r' :
  perform ev f r = (a, r') →
  f (world r) = (a, world r') ∧ trace r' = trace r ++ [ev a].
Proof.
  unfold perform. destruct (f (world r)) as [a' w']. by intros [= <- <-].
Qed.

Lemma ret_run {A} (a : A) (r : Run W Ev) b r' : ret a r = (b, r') → b = a ∧ r' = r.
Proof. by intros [= <- <-]. Qed.
End EffFacts.

Section PreFacts.
Import GoTime Harbor.
Context {W : Type} {Co : Collaborators W}.

Lemma login_run cv contextID cachedToken (r : Run W Event) res r' :
  login cv contextID cachedToken r = (res, r') →
  ∃ evs, trace r' = trace r ++ evs ∧ Logins contextID cachedToken evs res.
Proof.
  unfold login. intros Hrun.
  apply bind_run in Hrun as (user & r1 & H1 & Hrun). apply perform_run in H1 as [_ T1].
  apply bind_run in Hrun as (pass & r2 & H2 & Hrun). apply perform_run in H2 as [_ T2].
  apply bind_run in Hrun as ([[token success] err] & r3 & H3 & Hrun).
  apply perform_run in H3 as [_ T3].
  destruct (bool_decide (err ≠ None) || negb success) eqn:Hrefused.
  - apply ret_run in Hrun as [-> ->]. eexists. split.
    + rewrite T3, T2, T1, <- !app_assoc. reflexivity.
    + constructor. apply orb_true_iff in Hrefused as [H|H].
      * left. by apply bool_decide_eq_true in H.
      * right. by destruct success.
  - apply orb_false_iff in Hrefused as [Herr Hsuccess].
    apply bool_decide_eq_false in Herr. destruct err as [e|]; [by destruct Herr|].
    destruct success; [|done].
    apply bind_run in Hrun as (e1 & r4 & H4 & Hrun). apply perform_run in H4 as [_ T4].
    destruct e1 as [e|].
    { apply ret_run in Hrun as [-> ->]. eexists. split.
      - rewrite T4, T3, T2, T1, <- !app_assoc. reflexivity.
      - constructor. }
    apply bind_run in Hrun as (e2 & r5 & H5 & Hrun). apply perform_run in H5 as [_ T5].
    destruct e2 as [e|]; apply ret_run in Hrun as [-> ->]; eexists; (split;
      [rewrite T5, T4, T3, T2, T1, <- !app_assoc; reflexivity|constructor]).
Qed.

Lemma coordinate_run file token (r : Run W Event) v r' :
  coordinate file token r = (v, r') →
  ∃ evs, trace r' = trace r ++ evs ∧ Asked file token evs v.
Proof.
  unfold coordinate. destruct (catalog.Data file !! token) as [v'|] eqn:Hv; intros Hrun.
  - apply ret_run in Hrun as [-> ->]. exists []. rewrite app_nil_r. split; [done|].
    by constructor.
  - apply perform_run in Hrun as [_ T]. eexists. split; [exact T|]. by constructor.
Qed.

Lemma Pre_run s contextID file cv ev promptUser (r : Run W Event) s' err r' :
  Pre s contextID file cv ev promptUser r = ((s', err), r') →
  ∃ evs, trace r' = trace r ++ evs ∧ Prepared s contextID file evs s' err.
Proof.
  unfold Pre. intros Hrun.
  apply bind_run in Hrun as (e0 & r1 & H1 & Hrun). apply perform_run in H1 as [_ T1].
  destruct e0 as [e|].
  { apply ret_run in Hrun as [[= -> ->] ->]. eexists. split; [exact T1|constructor]. }
  apply bind_run in Hrun as ([val1 err1] & r2 & H2 & Hrun).
  apply perform_run in H2 as [_ T2].
  apply bind_run in Hrun as ([val2 err2] & r3 & H3 & Hrun).
  apply perform_run in H3 as [_ T3].
  change (if err1 is None then val1 else "") with (cached (val1, err1)) in Hrun.
  change (if err2 is None then val2 else "") with (cached (val2, err2)) in Hrun.
  set (user := cached (val1, err1)) in *. set (token := cached (val2, err2)) in *.
  apply bind_run in Hrun as (isAuth & r4 & H4 & Hrun).
  assert (∃ checks, trace r4 = trace r3 ++ checks ∧ Checked user token checks isAuth)
    as (checks & T4 & Hchecks).
  { destruct (bool_decide (0 < String.length token)%nat &&
              bool_decide (0 < String.length user)%nat) eqn:Hboth.
    - apply andb_true_iff in Hboth as [Ht Hu].
      apply bool_decide_eq_true in Ht, Hu.
      apply bind_run in H4 as ([isAuth' e'] & r4' & H4 & H4').
      apply perform_run in H4 as [_ T4]. apply ret_run in H4' as [-> ->].
      eexists. split; [exact T4|]. by constructor.
    - apply ret_run in H4 as [-> ->]. exists []. rewrite app_nil_r. split; [done|].
      constructor. intros [Ht Hu]. apply andb_false_iff in Hboth as [H|H];
        apply bool_decide_eq_false in H; done. }
  clear H4.
  apply bind_run in Hrun as (res & r5 & H5 & Hrun).
  assert (∀ auth, res = inr auth →
            ∃ coords shipment, s' = mkStore auth shipment ∧ err = None ∧
              trace r' = trace r5 ++ coords ∧ Located file coords shipment) as Hcoords.
  { intros auth ->.
    apply bind_run in Hrun as (name & r6 & H6 & Hrun).
    apply coordinate_run in H6 as (evs1 & T6 & A1).
    apply bind_run in Hrun as (container & r7 & H7 & Hrun).
    apply coordinate_run in H7 as (evs2 & T7 & A2).
    apply bind_run in Hrun as (env & r8 & H8 & Hrun).
    apply coordinate_run in H8 as (evs3 & T8 & A3).
    apply ret_run in Hrun as [[= -> ->] ->].
    eexists _, _. split_and!; [done|done| |by constructor].
    rewrite T8, T7, T6, <- !app_assoc. reflexivity. }
  destruct isAuth; cbv beta iota in H5.
  - apply ret_run in H5 as [E1 E2]. subst res r5.
    destruct (Hcoords _ eq_refl) as (coords & shipment & -> & -> & T5 & Hloc).
    eexists. split.
    + rewrite T5, T4, T3, T2, T1, <- !app_assoc. reflexivity.
    + by apply (Prepared_cached _ _ _ _ _ checks coords).
  - apply login_run in H5 as (logins & T5 & Hlogins).
    destruct res as [[auth e]|auth].
    + apply ret_run in Hrun as [[= -> ->] ->]. eexists. split.
      * rewrite T5, T4, T3, T2, T1, <- !app_assoc. reflexivity.
      * by apply (Prepared_login_failed _ _ _ _ _ checks logins).
    + destruct (Hcoords _ eq_refl) as (coords & shipment & -> & -> & T6 & Hloc).
      eexists. split.
      * rewrite T6, T5, T4, T3, T2, T1, <- !app_assoc. reflexivity.
      * by apply (Prepared_logged_in _ _ _ _ _ checks logins _ coords).
Qed.
End PreFacts.

Section PreTheorems.
Import GoTime Harbor.
Context {W : Type} {Co : Collaborators W}.

Lemma Checked_events user token checks isAuth ev :
  Checked user token checks isAuth → ev ∈ checks →
  ∃ err, ev = EvIsAuthenticated user token (isAuth, err).
Proof.
  intros [?|b e ? ?] Hin.
  - by apply elem_of_nil in Hin.
  - apply list_elem_of_singleton in Hin as ->. by exists e.
Qed.

Lemma Asked_events file token evs v ev :
  Asked file token evs v → ev ∈ evs →
  ev = EvPrompt token false v ∧ catalog.Data file !! token = None.
Proof.
  intros [v' ?|v' ?] Hin.
  - by apply elem_of_nil in Hin.
  - by apply list_elem_of_singleton in Hin as ->.
Qed.

Lemma Located_events file evs shipment ev :
  Located file evs shipment → ev ∈ evs →
  ∃ token, token ∈ [shipmentToken; containerToken; envToken] ∧
    catalog.Data file !! token = None ∧
    ∃ v, ev = EvPrompt token false v.
Proof.
  intros [evs1 evs2 evs3 name container env A1 A2 A3] Hin.
  rewrite !elem_of_app in Hin. destruct Hin as [Hin|[Hin|Hin]].
  - destruct (Asked_events _ _ _ _ _ A1 Hin) as [-> ?].
    exists shipmentToken. split; [rewrite !elem_of_cons; tauto|]. split; [done|]. by eexists.
  - destruct (Asked_events _ _ _ _ _ A2 Hin) as [-> ?].
    exists containerToken. split; [rewrite !elem_of_cons; tauto|]. split; [done|]. by eexists.
  - destruct (Asked_events _ _ _ _ _ A3 Hin) as [-> ?].
    exists envToken. split; [rewrite !elem_of_cons; tauto|]. split; [done|]. by eexists.
Qed.

Lemma Logins_events contextID cachedToken logins res ev :
  Logins contextID cachedToken logins res → ev ∈ logins →
  ∃ user pass token success err,
    EvLogin user pass (token, success, err) ∈ logins ∧
    (ev = EvPrompt userToken false user ∨ ev = EvPrompt passToken true pass ∨
     ev = EvLogin user pass (token, success, err) ∨
     (success = true ∧ err = None ∧
      ∃ e, ev = EvVaultSet contextID userToken user e ∨
           ev = EvVaultSet contextID tokenToken token e)).
Proof.
  intros HL Hin. destruct HL as [user pass token success err ?|user pass token e
                                |user pass token e|user pass token].
  1: exists user, pass, token, success, err.
  2-4: exists user, pass, token, true, None.
  all: rewrite !elem_of_cons, ?elem_of_nil in Hin |- *; split; [tauto|].
  all: intuition eauto 10.
Qed.

(** The events of a run of [Pre], by kind. *)
Lemma Prepared_events s contextID file evs s' err ev :
  Prepared s contextID file evs s' err → ev ∈ evs →
  (∃ e, ev = EvNewAuthClient authURL e) ∨
  (∃ token a, ev = EvVaultGet contextID token a) ∨
  (∃ user token a, ev = EvIsAuthenticated user token a) ∨
  (∃ user pass token success lerr,
     EvLogin user pass (token, success, lerr) ∈ evs ∧
     (ev = EvPrompt userToken false user ∨ ev = EvPrompt passToken true pass ∨
      ev = EvLogin user pass (token, success, lerr) ∨
      (success = true ∧ lerr = None ∧
       ∃ e, ev = EvVaultSet contextID userToken user e ∨
            ev = EvVaultSet contextID tokenToken token e))) ∨
  (∃ token, token ∈ [shipmentToken; containerToken; envToken] ∧
     catalog.Data file !! token = None ∧ ∃ v, ev = EvPrompt token false v).
Proof.
  intros HP Hin.
  destruct HP as [e|gu gt checks coords shipment HC HL
                 |gu gt checks logins auth err HC HA
                 |gu gt checks logins auth coords shipment HC HA HL].
  - apply list_elem_of_singleton in Hin as ->. eauto.
  - rewrite !elem_of_cons, !elem_of_app in Hin.
    destruct Hin as [->|[->|[->|[Hin|Hin]]]]; eauto 10.
    + destruct (Checked_events _ _ _ _ _ HC Hin) as [? ->]. eauto 10.
    + right. right. right. right. by eapply Located_events.
  - rewrite !elem_of_cons, !elem_of_app in Hin.
    destruct Hin as [->|[->|[->|[Hin|Hin]]]]; eauto 10.
    + destruct (Checked_events _ _ _ _ _ HC Hin) as [? ->]. eauto 10.
    + destruct (Logins_events _ _ _ _ _ HA Hin)
        as (user & pass & token & success & lerr & Hl & Hev).
      right. right. right. left. exists user, pass, token, success, lerr.
      split; [|done]. rewrite !elem_of_cons, !elem_of_app. tauto.
  - rewrite !elem_of_cons, !elem_of_app in Hin.
    destruct Hin as [->|[->|[->|[Hin|[Hin|Hin]]]]]; eauto 10.
    + destruct (Checked_events _ _ _ _ _ HC Hin) as [? ->]. eauto 10.
    + destruct (Logins_events _ _ _ _ _ HA Hin)
        as (user & pass & token & success & lerr & Hl & Hev).
      right. right. right. left. exists user, pass, token, success, lerr.
      split; [|done]. rewrite !elem_of_cons, !elem_of_app. tauto.
    + right. right. right. right. by eapply Located_events.
Qed.

(** A run of [Pre] logs in at most once. *)
Lemma Prepared_one_login s contextID file evs s' err user pass a user' pass' a' :
  Prepared s contextID file evs s' err →
  EvLogin user pass a ∈ evs → EvLogin user' pass' a' ∈ evs →
  user' = user ∧ pass' = pass ∧ a' = a.
Proof.
  assert (∀ contextID cachedToken logins res,
            Logins contextID cachedToken logins res →
            EvLogin user pass a ∈ logins → EvLogin user' pass' a' ∈ logins →
            user' = user ∧ pass' = pass ∧ a' = a) as Hlogins.
  { intros c t logins res HA H1 H2. destruct HA;
      rewrite !elem_of_cons, ?elem_of_nil in H1, H2;
      destruct H1 as [H1|[H1|[H1|H1]]]; try discriminate H1;
      destruct H2 as [H2|[H2|[H2|H2]]]; try discriminate H2;
      try (injection H1 as -> -> ->; injection H2 as -> -> ->; done);
      intuition discriminate. }
  intros HP H1 H2.
  destruct HP as [e|gu gt checks coords shipment HC HL
                 |gu gt checks logins auth err HC HA
                 |gu gt checks logins auth coords shipment HC HA HL].
  - apply list_elem_of_singleton in H1. discriminate.
  - exfalso. rewrite !elem_of_cons, !elem_of_app in H1.
    destruct H1 as [H1|[H1|[H1|[H1|H1]]]]; try discriminate H1.
    + by destruct (Checked_events _ _ _ _ _ HC H1) as [? ?].
    + by destruct (Located_events _ _ _ _ HL H1) as (? & _ & _ & ? & ?).
  - rewrite !elem_of_cons, !elem_of_app in H1, H2.
    destruct H1 as [H1|[H1|[H1|[H1|H1]]]]; try discriminate H1;
      [by destruct (Checked_events _ _ _ _ _ HC H1) as [? ?]|].
    destruct H2 as [H2|[H2|[H2|[H2|H2]]]]; try discriminate H2;
      [by destruct (Checked_events _ _ _ _ _ HC H2) as [? ?]|].
    by eapply Hlogins.
  - rewrite !elem_of_cons, !elem_of_app in H1, H2.
    destruct H1 as [H1|[H1|[H1|[H1|[H1|H1]]]]]; try discriminate H1;
      [by destruct (Checked_events _ _ _ _ _ HC H1) as [? ?]| |
       by destruct (Located_events _ _ _ _ HL H1) as (? & _ & _ & ? & ?)].
    destruct H2 as [H2|[H2|[H2|[H2|[H2|H2]]]]]; try discriminate H2;
      [by destruct (Checked_events _ _ _ _ _ HC H2) as [? ?]| |
       by destruct (Located_events _ _ _ _ HL H2) as (? & _ & _ & ? & ?)].
    by eapply Hlogins.
Qed.

End PreTheorems.

Section PreClaims.
Import GoTime Harbor.
Context {W : Type} {Co : Collaborators W}.

Lemma last_after {A} (x y z : A) (l l' : list A) e :
  last l' = Some e → last (x :: y :: z :: l ++ l') = Some e.
Proof.
  intros H. change (x :: y :: z :: l ++ l') with ([x; y; z] ++ l ++ l').
  by rewrite !last_app, H.
Qed.

Lemma Logins_login contextID cachedToken logins res user pass a :
  Logins contextID cachedToken logins res →
  EvLogin user pass a ∈ logins →
  ∃ sets, logins = [EvPrompt userToken false user; EvPrompt passToken true pass;
                    EvLogin user pass a] ++ sets ∧
    match a with
    | (token, true, None) =>
        (∃ e, sets = [EvVaultSet contextID userToken user (Some e)] ∧
              res = inl (mkAuth user cachedToken, Some e)) ∨
        (∃ e, sets = [EvVaultSet contextID userToken user None;
                      EvVaultSet contextID tokenToken token (Some e)] ∧
              res = inl (mkAuth user cachedToken, Some e)) ∨
        (sets = [EvVaultSet contextID userToken user None;
                 EvVaultSet contextID tokenToken token None] ∧
         res = inr (mkAuth user token))
    | (_, _, err) => sets = [] ∧ res = inl (mkAuth user cachedToken, err)
    end.
Proof.
  intros HA Hin.
  destruct HA as [u p t success err Hr|u p t e|u p t e|u p t];
    rewrite !elem_of_cons, ?elem_of_nil in Hin;
    destruct Hin as [Hin|[Hin|[Hin|Hin]]]; try discriminate Hin;
    try (exfalso; intuition discriminate); injection Hin as -> -> ->.
  - exists []. split; [done|].
    destruct success; [|done]. destruct err; [done|]. by destruct Hr.
  - eexists. split; [done|]. eauto.
  - eexists. split; [done|]. eauto.
  - eexists. split; [done|]. eauto.
Qed.

(** A run of [Pre] that logs in: what comes before the login, and what
    the run makes of its answer. *)
Lemma Prepared_login s contextID file evs s' err user pass a :
  Prepared s contextID file evs s' err →
  EvLogin user pass a ∈ evs →
  ∃ gu gt checks logins coords res,
    evs = EvNewAuthClient authURL None :: EvVaultGet contextID userToken gu ::
          EvVaultGet contextID tokenToken gt :: checks ++ logins ++ coords ∧
    Checked (cached gu) (cached gt) checks false ∧
    Logins contextID (cached gt) logins res ∧
    EvLogin user pass a ∈ logins ∧
    match res with
    | inl (auth, e) =>
        coords = [] ∧ s' = mkStore auth (mkShipment "" "" "") ∧ err = e
    | inr auth =>
        ∃ shipment, Located file coords shipment ∧ s' = mkStore auth shipment ∧
                    err = None
    end.
Proof.
  intros HP Hin.
  destruct HP as [e|gu gt checks coords shipment HC HL
                 |gu gt checks logins auth err HC HA
                 |gu gt checks logins auth coords shipment HC HA HL].
  - apply list_elem_of_singleton in Hin. discriminate.
  - exfalso. rewrite !elem_of_cons, !elem_of_app in Hin.
    destruct Hin as [Hin|[Hin|[Hin|[Hin|Hin]]]]; try discriminate Hin.
    + by destruct (Checked_events _ _ _ _ _ HC Hin) as [? ?].
    + by destruct (Located_events _ _ _ _ HL Hin) as (? & _ & _ & ? & ?).
  - rewrite !elem_of_cons, !elem_of_app in Hin.
    destruct Hin as [Hin|[Hin|[Hin|[Hin|Hin]]]]; try discriminate Hin;
      [by destruct (Checked_events _ _ _ _ _ HC Hin) as [? ?]|].
    exists gu, gt, checks, logins, [], (inl (auth, err)).
    rewrite app_nil_r. done.
  - rewrite !elem_of_cons, !elem_of_app in Hin.
    destruct Hin as [Hin|[Hin|[Hin|[Hin|[Hin|Hin]]]]]; try discriminate Hin;
      [by destruct (Checked_events _ _ _ _ _ HC Hin) as [? ?]| |
       by destruct (Located_events _ _ _ _ HL Hin) as (? & _ & _ & ? & ?)].
    exists gu, gt, checks, logins, coords, (inr auth). split_and!; try done.
    by exists shipment.
Qed.

(** C7, where the code departs from it.  Take a run of [Pre] in which
    the login is answered without a token, without success and without
    an error.  The login is the last thing the run does: nothing is
    written to the vault and no coordinate is read; the store is left
    with the user that was typed and an empty shipment; and the error
    [Pre] returns is [nil]. *)
Theorem Pre_refused_login_returns_nil
    s contextID file cv ev promptUser (r : Run W Event) s' err r' evs user pass token :
  Pre s contextID file cv ev promptUser r = ((s', err), r') →
  trace r' = trace r ++ evs →
  EvLogin user pass (token, false, None) ∈ evs →
  err = None ∧
  last evs = Some (EvLogin user pass (token, false, None)) ∧
  User (Auth s') = user ∧
  Shipment s' = mkShipment "" "" "" ∧
  ∀ c k v e, EvVaultSet c k v e ∉ evs.
Proof.
  intros Hrun Ht Hin.
  apply Pre_run in Hrun as (evs' & Ht' & HP).
  rewrite Ht in Ht'. apply app_inv_head in Ht' as <-.
  destruct (Prepared_login _ _ _ _ _ _ _ _ _ HP Hin)
    as (gu & gt & checks & logins & coords & res & -> & HC & HA & Hl & Hres).
  destruct (Logins_login _ _ _ _ _ _ _ HA Hl) as (sets & -> & -> & ->).
  destruct Hres as (-> & -> & ->). split_and!; try done.
  - by apply last_after.
  - intros c k v e Hset. rewrite !elem_of_cons, !elem_of_app in Hset.
    destruct Hset as [Hset|[Hset|[Hset|[Hset|[Hset|Hset]]]]]; try discriminate Hset.
    + by destruct (Checked_events _ _ _ _ _ HC Hset) as [? ?].
    + rewrite !elem_of_cons, ?elem_of_nil in Hset. intuition discriminate.
    + by apply elem_of_nil in Hset.
Qed.

(** [Pre] returns the error of the first of its interactions that
    fails, and stops there; the interactions whose error counts are the
    creation of the client, the login and the writes to the vault.  And
    it returns no other error. *)
Theorem Pre_returns_first_failure
    s contextID file cv ev promptUser (r : Run W Event) s' err r' evs :
  Pre s contextID file cv ev promptUser r = ((s', err), r') →
  trace r' = trace r ++ evs →
  (∀ x e, x ∈ evs → failure x = Some e → err = Some e ∧ last evs = Some x) ∧
  (∀ e, err = Some e → ∃ x, last evs = Some x ∧ failure x = Some e).
Proof.
  intros Hrun Ht.
  apply Pre_run in Hrun as (evs' & Ht' & HP).
  rewrite Ht in Ht'. apply app_inv_head in Ht' as <-.
  assert (∀ u t checks b x e, Checked u t checks b → x ∈ checks →
                              failure x = Some e → False) as HnoC.
  { intros u t checks b x e HC Hx Hf.
    by destruct (Checked_events _ _ _ _ _ HC Hx) as [? ->]. }
  assert (∀ coords sh x e, Located file coords sh → x ∈ coords →
                           failure x = Some e → False) as HnoL.
  { intros coords sh x e HL Hx Hf.
    by destruct (Located_events _ _ _ _ HL Hx) as (? & _ & _ & ? & ->). }
  destruct HP as [e0|gu gt checks coords shipment HC HL
                 |gu gt checks logins auth err HC HA
                 |gu gt checks logins auth coords shipment HC HA HL].
  - split.
    + intros x e Hx Hf. apply list_elem_of_singleton in Hx as ->.
      simpl in Hf. by injection Hf as ->.
    + intros e [= ->]. by eexists.
  - split; [|done]. intros x e Hx Hf. exfalso.
    rewrite !elem_of_cons, !elem_of_app in Hx.
    destruct Hx as [->|[->|[->|[Hx|Hx]]]]; try discriminate Hf; eauto.
  - inversion HA; subst; (split;
      [intros x e' Hx Hf; rewrite !elem_of_cons, !elem_of_app in Hx;
       destruct Hx as [->|[->|[->|[Hx|Hx]]]]; try discriminate Hf;
       [exfalso; eauto|];
       rewrite !elem_of_cons, ?elem_of_nil in Hx;
       repeat (destruct Hx as [->|Hx]; try discriminate Hf); try done;
       simpl in Hf; (split; [done|by apply last_after])
      |intros e' [= ->]; eexists; (split; [by apply last_after|done])]).
  - split; [|done]. inversion HA; subst. intros x e' Hx Hf. exfalso.
    rewrite !elem_of_cons, !elem_of_app in Hx.
    destruct Hx as [->|[->|[->|[Hx|[Hx|Hx]]]]]; try discriminate Hf; eauto.
    rewrite !elem_of_cons, ?elem_of_nil in Hx.
    repeat (destruct Hx as [->|Hx]; try discriminate Hf); done.
Qed.

End PreClaims.

Section PreSessions.
Import GoTime Harbor.
Context {W : Type} {Co : Collaborators W}.

Lemma Prepared_checked s contextID file evs s' err user token e :
  Prepared s contextID file evs s' err →
  EvIsAuthenticated user token (true, e) ∈ evs →
  ∃ gu gt coords shipment,
    user = cached gu ∧ token = cached gt ∧
    evs = [EvNewAuthClient authURL None; EvVaultGet contextID userToken gu;
           EvVaultGet contextID tokenToken gt;
           EvIsAuthenticated user token (true, e)] ++ coords ∧
    Located file coords shipment ∧
    s' = mkStore (mkAuth user token) shipment ∧ err = None ∧
    (0 < String.length token)%nat ∧ (0 < String.length user)%nat.
Proof.
  intros HP Hin.
  assert (∀ c t logins res, Logins c t logins res →
            EvIsAuthenticated user token (true, e) ∉ logins) as HnoA.
  { intros c t logins res HA Hx.
    destruct HA; rewrite !elem_of_cons, ?elem_of_nil in Hx; intuition discriminate. }
  assert (∀ coords sh, Located file coords sh →
            EvIsAuthenticated user token (true, e) ∉ coords) as HnoL.
  { intros coords sh HL Hx.
    by destruct (Located_events _ _ _ _ HL Hx) as (? & _ & _ & ? & ?). }
  assert (∀ u t checks, Checked u t checks false →
            EvIsAuthenticated user token (true, e) ∉ checks) as HnoC.
  { intros u t checks HC Hx.
    by destruct (Checked_events _ _ _ _ _ HC Hx) as [? ?]. }
  destruct HP as [e0|gu gt checks coords shipment HC HL
                 |gu gt checks logins auth err HC HA
                 |gu gt checks logins auth coords shipment HC HA HL].
  - apply list_elem_of_singleton in Hin. discriminate.
  - rewrite !elem_of_cons, !elem_of_app in Hin.
    destruct Hin as [Hin|[Hin|[Hin|[Hin|Hin]]]]; try discriminate Hin;
      [|by destruct (HnoL _ _ HL)].
    inversion HC as [|b e' ? ? Hc]; subst.
    apply list_elem_of_singleton in Hin. injection Hin as -> -> ->.
    exists gu, gt, coords, shipment. split_and!; done.
  - exfalso. rewrite !elem_of_cons, !elem_of_app in Hin.
    destruct Hin as [Hin|[Hin|[Hin|[Hin|Hin]]]]; try discriminate Hin.
    + by eapply HnoC.
    + by eapply HnoA.
  - exfalso. rewrite !elem_of_cons, !elem_of_app in Hin.
    destruct Hin as [Hin|[Hin|[Hin|[Hin|[Hin|Hin]]]]]; try discriminate Hin.
    + by eapply HnoC.
    + by eapply HnoA.
    + by eapply HnoL.
Qed.

(** When the auth service accepts the pair the vault holds, whatever
    error comes with its answer, [Pre] keeps that pair and returns no
    error; it does not log in, writes nothing to the vault, and asks the
    user for nothing but the coordinates missing from [file.Data]. *)
Theorem Pre_keeps_cached_session
    s contextID file cv ev promptUser (r : Run W Event) s' err r' evs user token e :
  Pre s contextID file cv ev promptUser r = ((s', err), r') →
  trace r' = trace r ++ evs →
  EvIsAuthenticated user token (true, e) ∈ evs →
  err = None ∧ Auth s' = mkAuth user token ∧
  (∃ gu gt, EvVaultGet contextID userToken gu ∈ evs ∧
            EvVaultGet contextID tokenToken gt ∈ evs ∧
            gu = (user, None) ∧ gt = (token, None)) ∧
  ∀ x, x ∈ evs →
    match x with
    | EvLogin _ _ _ | EvVaultSet _ _ _ _ => False
    | EvPrompt name secret _ =>
        secret = false ∧ name ∈ [shipmentToken; containerToken; envToken] ∧
        catalog.Data file !! name = None
    | _ => True
    end.
Proof.
  intros Hrun Ht Hin.
  apply Pre_run in Hrun as (evs' & Ht' & HP).
  rewrite Ht in Ht'. apply app_inv_head in Ht' as <-.
  destruct (Prepared_checked _ _ _ _ _ _ _ _ _ HP Hin)
    as (gu & gt & coords & shipment & Hu & Htok & Hevs & HL & -> & -> & Hlt & Hlu).
  split_and!; try done.
  - exists gu, gt. rewrite Hevs. cbn [app]. rewrite !elem_of_cons.
    assert (∀ a : string * option error,
              (0 < String.length (cached a))%nat → a = (cached a, None)) as Hc.
    { intros [v [e'|]]; unfold cached; simpl; [lia|done]. }
    subst user token. split_and!; auto.
  - intros x Hx. rewrite Hevs in Hx. rewrite elem_of_app, !elem_of_cons in Hx.
    destruct Hx as [[->|[->|[->|[->|Hx]]]]|Hx]; try done.
    + by apply elem_of_nil in Hx.
    + by destruct (Located_events _ _ _ _ HL Hx) as (tok & ? & ? & v & ->).
Qed.

(** What [Pre] writes to the vault is the user and the token of a login
    that succeeded, under their two keys and the context it was given:
    the password is never written. *)
Theorem Pre_stores_user_and_token
    s contextID file cv ev promptUser (r : Run W Event) s' err r' evs c k v e :
  Pre s contextID file cv ev promptUser r = ((s', err), r') →
  trace r' = trace r ++ evs →
  EvVaultSet c k v e ∈ evs →
  c = contextID ∧
  ∃ user pass token,
    EvLogin user pass (token, true, None) ∈ evs ∧
    ((k = userToken ∧ v = user) ∨ (k = tokenToken ∧ v = token)).
Proof.
  intros Hrun Ht Hin.
  apply Pre_run in Hrun as (evs' & Ht' & HP).
  rewrite Ht in Ht'. apply app_inv_head in Ht' as <-.
  destruct (Prepared_events _ _ _ _ _ _ _ HP Hin)
    as [[? ?]|[(? & ? & ?)|[(? & ? & ? & ?)|[H|(? & _ & _ & ? & ?)]]]];
    try discriminate.
  destruct H as (user & pass & token & success & lerr & Hl &
                 [?|[?|[?|(-> & -> & e' & [Hs|Hs])]]]); try discriminate.
  - injection Hs as -> -> -> _. split; [done|]. exists user, pass, token. auto.
  - injection Hs as -> -> -> _. split; [done|]. exists user, pass, token. auto.
Qed.

Lemma Located_fields file coords shipment token field :
  Located file coords shipment →
  (token, field) ∈ [(shipmentToken, Name shipment);
                    (containerToken, Container shipment);
                    (envToken, Env shipment)] →
  ∃ evs, Asked file token evs field ∧ evs ⊆ coords.
Proof.
  intros [evs1 evs2 evs3 name container env A1 A2 A3] Hin.
  rewrite !elem_of_cons, elem_of_nil in Hin.
  destruct Hin as [[= -> ->]|[[= -> ->]|[[= -> ->]|[]]]]; eexists; (split; [done|]);
    intros x Hx; rewrite !elem_of_app; auto.
Qed.

(** When [Pre] returns no error, and not because a login was answered
    with neither success nor error, each coordinate of the shipment it
    leaves in the store is the entry of [file.Data] under its name, for
    which the user is not asked, or, without such an entry, what the user
    answered when asked for it. *)
Theorem Pre_locates_shipment
    s contextID file cv ev promptUser (r : Run W Event) s' r' evs token field :
  Pre s contextID file cv ev promptUser r = ((s', None), r') →
  trace r' = trace r ++ evs →
  (∀ user pass t, EvLogin user pass (t, false, None) ∉ evs) →
  (token, field) ∈ [(shipmentToken, Name (Shipment s'));
                    (containerToken, Container (Shipment s'));
                    (envToken, Env (Shipment s'))] →
  match catalog.Data file !! token with
  | Some v => field = v ∧ ∀ a secret, EvPrompt token secret a ∉ evs
  | None => EvPrompt token false field ∈ evs
  end.
Proof.
  intros Hrun Ht Hno Hin.
  apply Pre_run in Hrun as (evs' & Ht' & HP).
  rewrite Ht in Ht'. apply app_inv_head in Ht' as <-.
  assert (token ∈ [shipmentToken; containerToken; envToken]) as Htok.
  { rewrite !elem_of_cons, elem_of_nil in Hin. rewrite !elem_of_cons.
    destruct Hin as [[= -> _]|[[= -> _]|[[= -> _]|[]]]]; auto. }
  assert (∃ coords, Located file coords (Shipment s') ∧ coords ⊆ evs)
    as (coords & HL & Hsub).
  { inversion HP as [|gu gt checks coords shipment HC HL
                     |gu gt checks logins auth err HC HA
                     |gu gt checks logins auth coords shipment HC HA HL]; subst.
    - exists coords. split; [done|]. intros x Hx.
      rewrite !elem_of_cons, !elem_of_app. auto 10.
    - exfalso. inversion HA as [user pass t success err Hr| | |]; subst.
      destruct Hr as [Hr|Hr]; [by destruct Hr|subst success].
      apply (Hno user pass t). rewrite !elem_of_cons, !elem_of_app, !elem_of_cons.
      auto 10.
    - exists coords. split; [done|]. intros x Hx.
      rewrite !elem_of_cons, !elem_of_app. auto 10. }
  destruct (Located_fields _ _ _ _ _ HL Hin) as (asked & HA & Hasked).
  destruct HA as [v Hv|v Hv]; rewrite Hv.
  - split; [done|]. intros a secret Hx.
    destruct (Prepared_events _ _ _ _ _ _ _ HP Hx)
      as [[? ?]|[(? & ? & ?)|[(? & ? & ? & ?)|[H|(tok & _ & Hnone & ? & Heq)]]]];
      try discriminate.
    + destruct H as (user & pass & t & success & lerr & _ &
                     [Heq|[Heq|[?|(_ & _ & ? & [?|?])]]]); try discriminate;
        injection Heq as -> _ _; rewrite !elem_of_cons, elem_of_nil in Htok;
        intuition discriminate.
    + injection Heq as -> _ _. congruence.
  - apply Hsub, Hasked, list_elem_of_singleton. done.
Qed.

End PreSessions.

Section SelectFacts.
Import Registry.
Context {W Catalog Vault UserOptions IO : Type} {RT : GoRuntime} {Dc : Declared}.
Context (prompt : string → Options → IO → W → string * W).
Context (stores : gmap string (@IStore W Catalog Vault UserOptions IO)).

Lemma callPre_run (store : @IStore W Catalog Vault UserOptions IO) clog file v uo io (r : Run W Event) file' err r' :
  callPre store clog file v uo io r = ((file', err), r') →
  Pre store clog file v uo io (world r) = ((file', err), world r') ∧
  trace r' = trace r ++ [EvPre (Name store) err].
Proof. intros H. by apply perform_run in H. Qed.

(** C4.  Take a call of [Select] on a file whose [Store] is not empty.
    When the registry has a store under that name, [Select] returns that
    store, with the error and the file its [Pre] returned; [Pre] was
    called once, on the arguments of [Select], and it is the only
    interaction: the user is not asked.  When the registry has none,
    [Select] returns [ErrStoreNotFound] and no store, and nothing has
    happened: no interaction, the world and the file are as before. *)
Theorem Select_bound_store file clog v uo io (r : Run W Event) st err file' r' :
  Select prompt stores file clog v uo io r = ((st, err, file'), r') →
  (0 < String.length (catalog.Store file))%nat →
  match stores !! catalog.Store file with
  | Some store =>
      st = Some store ∧
      Pre store clog file v uo io (world r) = ((file', err), world r') ∧
      trace r' = trace r ++ [EvPre (Name store) err]
  | None =>
      st = None ∧ err = Some ErrStoreNotFound ∧ file' = file ∧ r' = r
  end.
Proof.
  intros Hrun Hlen. unfold Select in Hrun.
  rewrite bool_decide_eq_true_2 in Hrun by done.
  destruct (stores !! catalog.Store file) as [store|].
  - apply bind_run in Hrun as ([f e] & r1 & H1 & Hrun).
    apply ret_run in Hrun as [[= -> -> ->] ->].
    apply callPre_run in H1 as [HPre Ht]. done.
  - by apply ret_run in Hrun as [[= -> -> ->] ->].
Qed.

Lemma length_zero (s : string) : String.length s = 0%nat ↔ s = "".
Proof. by destruct s. Qed.

Lemma concat_glue (a b : string) (l : list string) :
  String.concat "," ((a +:+ "," +:+ b) :: l) = a +:+ "," +:+ String.concat "," (b :: l).
Proof.
  destruct l as [|y l]; [done|].
  change (String.concat "," ((a +:+ "," +:+ b) :: y :: l))
    with ((a +:+ "," +:+ b) +:+ "," +:+ String.concat "," (y :: l)).
  change (String.concat "," (b :: y :: l))
    with (b +:+ "," +:+ String.concat "," (y :: l)).
  by rewrite !append_assoc.
Qed.

(** The loop of [Select] joins the names of the stores that support the
    type, as long as no such name is empty. *)
Lemma supported_spec fileType (entries : list (string * @IStore W Catalog Vault UserOptions IO)) :
  (∀ k s, (k, s) ∈ entries → Name s ≠ "") →
  ∀ acc,
    supported fileType entries acc
    = String.concat ","
        ((if decide (acc = "") then [] else [acc]) ++
         (Name <$> filter (λ s, SupportsFileType s fileType = true) entries.*2)).
Proof.
  induction entries as [|[k s] rest IH]; intros Hne acc.
  - simpl. by destruct (decide (acc = "")) as [->|].
  - assert (∀ k s, (k, s) ∈ rest → Name s ≠ "") as Hrest.
    { intros k' s' Hin. apply (Hne k' s'). by apply list_elem_of_further. }
    assert (Name s ≠ "") as Hs by (apply (Hne k s), list_elem_of_here).
    simpl. destruct (SupportsFileType s fileType) eqn:Hsup.
    + rewrite filter_cons_True by done. rewrite fmap_cons.
      destruct (decide (acc = "")) as [->|Hacc].
      * simpl. rewrite IH by done. by rewrite decide_False.
      * rewrite bool_decide_eq_false_2 by (by rewrite length_zero).
        rewrite IH by done. rewrite decide_False by (by destruct acc).
        simpl app. apply concat_glue.
    + rewrite filter_cons_False by congruence. by apply IH.
Qed.

(** C5, amended.  Take a call of [Select] on a file whose [Store] is
    empty, in a registry without an empty name.  [Select] asks the user
    once, for the "Remote Store", with [DefaultStore] as the default and a
    description that lists, separated by commas and in the order of
    [range], the names of exactly the registered stores that support the
    type of the file.  When the answer is the name of a registered store,
    supported or not, [Select] calls the [Pre] of that store and returns
    the store with the error of [Pre]; the file it leaves is the one
    [Pre] left, [Select] itself writes nothing to it, [Store] included.
    When the answer names no registered store, [Select] returns
    [ErrStoreNotFound] and no store, [Pre] is not called and the file is
    as before. *)
Theorem Select_prompts_for_store file clog v uo io (r : Run W Event) st err file' r' :
  Select prompt stores file clog v uo io r = ((st, err, file'), r') →
  String.length (catalog.Store file) = 0%nat →
  (∀ k s, stores !! k = Some s → Name s ≠ "") →
  let names := Name <$> filter (λ s, SupportsFileType s (catalog.Type_ file) = true)
                               (go_range stores).*2 in
  let opts := mkOptions (describe file (String.concat "," names)) DefaultStore in
  (∀ n, n ∈ names ↔
        ∃ k s, stores !! k = Some s ∧
               SupportsFileType s (catalog.Type_ file) = true ∧ Name s = n) ∧
  ∃ val w1,
    prompt "Remote Store" opts io (world r) = (val, w1) ∧
    match stores !! val with
    | Some store =>
        st = Some store ∧
        Pre store clog file v uo io w1 = ((file', err), world r') ∧
        trace r' = trace r ++ [EvPrompt "Remote Store" opts val;
                               EvPre (Name store) err]
    | None =>
        st = None ∧ err = Some ErrStoreNotFound ∧ file' = file ∧
        r' = mkRun w1 (trace r ++ [EvPrompt "Remote Store" opts val])
    end.
Proof.
  intros Hrun Hlen Hne names opts. split.
  - intros n. unfold names. rewrite list_elem_of_fmap. split.
    + intros (s & -> & Hin). apply list_elem_of_filter in Hin as [Hsup Hin].
      apply list_elem_of_fmap in Hin as ([k s'] & -> & Hin).
      apply go_range_elem in Hin. by exists k, s'.
    + intros (k & s & Hlook & Hsup & <-). exists s. split; [done|].
      apply list_elem_of_filter. split; [done|].
      apply list_elem_of_fmap. exists (k, s). split; [done|].
      by apply go_range_elem.
  - unfold Select in Hrun.
    rewrite bool_decide_eq_false_2 in Hrun by lia.
    unfold Get in Hrun. rewrite supported_spec in Hrun.
    2:{ intros k s Hin. apply go_range_elem in Hin. by eapply Hne. }
    rewrite decide_True in Hrun by done. simpl app in Hrun.
    fold names in Hrun. fold opts in Hrun.
    apply bind_run in Hrun as (val & r1 & H1 & Hrun).
    apply perform_run in H1 as [Hp T1].
    exists val, (world r1). split; [done|].
    destruct (stores !! val) as [store|].
    + apply bind_run in Hrun as ([f e] & r2 & H2 & Hrun).
      apply ret_run in Hrun as [[= -> -> ->] ->].
      apply callPre_run in H2 as [HPre T2]. split_and!; [done|done|].
      by rewrite T2, T1, <- app_assoc.
    + apply ret_run in Hrun as [[= -> -> ->] ->]. split_and!; try done.
      destruct r1 as [w1 t1]. simpl in *. by rewrite T1.
Qed.

End SelectFacts.

Section PreSamples.
Import GoTime Harbor Samples.

Ltac in_trace :=
  vm_compute; repeat first [apply list_elem_of_here | apply list_elem_of_further].

Lemma triple_eta {A B C} (x : A * B * C) : x = (x.1.1, x.1.2, x.2).
Proof. by destruct x as [[? ?] ?]. Qed.

Lemma Pre_refused_login_returns_nil_desk :
  refusedPre.1.2 = None ∧
  last (trace refusedPre.2) = Some (EvLogin "ann" "secret" ("", false, None)) ∧
  Shipment refusedPre.1.1 = mkShipment "" "" "".
Proof.
  destruct (Pre_refused_login_returns_nil (Co := sandbox) blank "ctx" (fileWith ∅)
              sandboxVault sandboxVault true (start (desk false ("", false, None) []))
              refusedPre.1.1 refusedPre.1.2 refusedPre.2 (trace refusedPre.2)
              "ann" "secret" "")
    as (Herr & Hlast & _ & Hship & _).
  - apply (triple_eta refusedPre).
  - reflexivity.
  - in_trace.
  - done.
Defined.

Lemma Pre_returns_first_failure_desk :
  failedPre.1.2 = Some "401 Unauthorized" ∧
  last (trace failedPre.2)
  = Some (EvLogin "ann" "secret" ("", false, Some "401 Unauthorized")).
Proof.
  destruct (Pre_returns_first_failure (Co := sandbox) blank "ctx" (fileWith ∅)
              sandboxVault sandboxVault true
              (start (desk false ("", false, Some "401 Unauthorized") []))
              failedPre.1.1 failedPre.1.2 failedPre.2 (trace failedPre.2))
    as [Hfirst _].
  - apply (triple_eta failedPre).
  - reflexivity.
  - apply (Hfirst (EvLogin "ann" "secret" ("", false, Some "401 Unauthorized"))).
    + in_trace.
    + reflexivity.
Defined.

Lemma Pre_keeps_cached_session_desk :
  cachedPre.1.2 = None ∧ Auth cachedPre.1.1 = mkAuth "ann" "t0k".
Proof.
  destruct (Pre_keeps_cached_session (Co := sandbox) blank "ctx"
              (fileWith {[containerToken := "web"]})
              sandboxVault sandboxVault true
              (start (desk true ("", false, None)
                           [(("ctx", userToken), "ann"); (("ctx", tokenToken), "t0k")]))
              cachedPre.1.1 cachedPre.1.2 cachedPre.2 (trace cachedPre.2)
              "ann" "t0k" None)
    as (Herr & Hauth & _).
  - apply (triple_eta cachedPre).
  - reflexivity.
  - in_trace.
  - done.
Defined.

Lemma Pre_stores_user_and_token_desk :
  ∃ user pass token,
    EvLogin user pass (token, true, None) ∈ trace loginPre.2 ∧
    ((tokenToken = userToken ∧ "t0k" = user) ∨ (tokenToken = tokenToken ∧ "t0k" = token)).
Proof.
  destruct (Pre_stores_user_and_token (Co := sandbox) blank "ctx"
              (fileWith {[containerToken := "web"]})
              sandboxVault sandboxVault true
              (start (desk false ("t0k", true, None) []))
              loginPre.1.1 loginPre.1.2 loginPre.2 (trace loginPre.2)
              "ctx" tokenToken "t0k" None)
    as (_ & H).
  - apply (triple_eta loginPre).
  - reflexivity.
  - in_trace.
  - exact H.
Defined.

Lemma Pre_locates_shipment_desk :
  Container (Shipment loginPre.1.1) = "web" ∧
  ∀ a secret, EvPrompt containerToken secret a ∉ trace loginPre.2.
Proof.
  cut (match catalog.Data (fileWith {[containerToken := "web"]}) !! containerToken with
       | Some v =>
           Container (Shipment loginPre.1.1) = v ∧
           ∀ a secret, EvPrompt containerToken secret a ∉ trace loginPre.2
       | None =>
           EvPrompt containerToken false (Container (Shipment loginPre.1.1))
           ∈ trace loginPre.2
       end); [intros H; exact H|].
  apply (Pre_locates_shipment (Co := sandbox) blank "ctx"
           (fileWith {[containerToken := "web"]})
           sandboxVault sandboxVault true
           (start (desk false ("t0k", true, None) []))
           loginPre.1.1 loginPre.2 (trace loginPre.2)
           containerToken (Container (Shipment loginPre.1.1))).
  - assert (loginPre.1.2 = None) as Herr by (vm_compute; reflexivity).
    rewrite <- Herr. apply (triple_eta loginPre).
  - reflexivity.
  - intros user pass t Hin. vm_compute in Hin.
    repeat (apply elem_of_cons in Hin as [Hin|Hin]; [discriminate Hin|]).
    by apply elem_of_nil in Hin.
  - apply list_elem_of_further, list_elem_of_here.
Defined.

End PreSamples.

Section SelectSamples.
Import Registry Samples.

Lemma registry_names k s : registry !! k = Some s → Name s ≠ "".
Proof.
  intros H. apply elem_of_list_to_map_2 in H.
  rewrite !elem_of_cons, elem_of_nil in H.
  destruct H as [[= _ ->]|[[= _ ->]|[[= _ ->]|[]]]]; cbv; discriminate.
Qed.

Lemma Select_bound_store_harbor :
  Name <$> (selectAt "harbor" "source").1.1.1 = Some "harbor" ∧
  trace (selectAt "harbor" "source").2 = [EvPre "harbor" None] ∧
  (selectAt "unknown" "source").1.1.2 = Some "store not found" ∧
  (selectAt "unknown" "source").2 = mkRun [] [].
Proof.
  pose proof (Select_bound_store (RT := listed) (Dc := declared) keyboard registry
                (envFile "harbor") () () () "source" (mkRun [] [])
                (selectAt "harbor" "source").1.1.1 (selectAt "harbor" "source").1.1.2
                (selectAt "harbor" "source").1.2 (selectAt "harbor" "source").2
                (run_eta (selectAt "harbor" "source"))) as Hbound.
  pose proof (Select_bound_store (RT := listed) (Dc := declared) keyboard registry
                (envFile "unknown") () () () "source" (mkRun [] [])
                (selectAt "unknown" "source").1.1.1 (selectAt "unknown" "source").1.1.2
                (selectAt "unknown" "source").1.2 (selectAt "unknown" "source").2
                (run_eta (selectAt "unknown" "source"))) as Hunknown.
  change (registry !! catalog.Store (envFile "harbor"))
    with (Some (adapter "harbor" ["env"])) in Hbound.
  change (registry !! catalog.Store (envFile "unknown"))
    with (@None (@IStore (list string) unit unit unit string)) in Hunknown.
  destruct Hbound as (Hstore & _ & Htrace); [simpl; lia|].
  destruct Hunknown as (_ & Herr & _ & Hrun); [simpl; lia|].
  rewrite Hstore. split_and!; [reflexivity|exact Htrace|exact Herr|exact Hrun].
Defined.

Lemma Select_prompts_for_store_harbor :
  Name <$> (selectAt "" "harbor").1.1.1 = Some "harbor" ∧
  ∃ listing,
    trace (selectAt "" "harbor").2
    = [EvPrompt "Remote Store" (mkOptions (describe (envFile "") listing) "s3") "harbor";
       EvPre "harbor" None] ∧
    (listing = "harbor,s3" ∨ listing = "s3,harbor").
Proof.
  destruct (Select_prompts_for_store (RT := listed) (Dc := declared) keyboard registry
              (envFile "") () () () "harbor" (mkRun [] [])
              (selectAt "" "harbor").1.1.1 (selectAt "" "harbor").1.1.2
              (selectAt "" "harbor").1.2 (selectAt "" "harbor").2
              (run_eta (selectAt "" "harbor")) eq_refl registry_names)
    as (_ & val & w1 & Hval & Hstore).
  injection Hval as <- <-.
  change (registry !! (if decide ("harbor" = "") then _ else "harbor"))
    with (Some (adapter "harbor" ["env"])) in Hstore.
  destruct Hstore as (Hstore & _ & Htrace). rewrite Hstore. split; [reflexivity|].
  eexists. split; [exact Htrace|]. vm_compute. auto.
Defined.

(** [Select] on a file without a store, the user choosing [harbor]: the
    store is returned, and the file is still without a store. *)
Lemma Select_leaves_Store_empty :
  Name <$> (selectAt "" "harbor").1.1.1 = Some "harbor" ∧
  (selectAt "" "harbor").1.1.2 = None ∧
  catalog.Store (selectAt "" "harbor").1.2 = "".
Proof. split_and!; vm_compute; reflexivity. Qed.

End SelectSamples.

(** ** Saving the catalog *)

Section CatalogFacts.
Import catalog.
Context {W Catalog : Type}.
Context (yaml_Marshal : Catalog → error + string).
Context (ioutil_WriteFile : string → string → Z → W → option error * W).
Context (md5_Sum : list Byte.byte → list Byte.byte).

(** [Write] writes nothing when the catalog cannot be marshalled, and
    returns the error of the marshalling.  Otherwise it writes the file
    once, with the permissions [0644], and returns what the write
    returned; the data written are four lines, each starting with the
    comment sign, followed by the document exactly as marshalled. *)
Theorem Write_keeps_document path clog (r : Run W Event) err r' evs :
  Write yaml_Marshal ioutil_WriteFile path clog r = (err, r') →
  trace r' = trace r ++ evs →
  match yaml_Marshal clog with
  | inl e => err = Some e ∧ evs = [] ∧ r' = r
  | inr d =>
      ∃ data,
        evs = [EvWriteFile path data 420 err] ∧
        ioutil_WriteFile path data 420 (world r) = (err, world r') ∧
        skipLines 4 data = d ∧
        ∀ n, (n < 4)%nat → String.get 0 (skipLines n data) = Some "#"%char
  end.
Proof.
  intros Hrun Ht. unfold Write in Hrun.
  destruct (yaml_Marshal clog) as [e|d].
  - apply ret_run in Hrun as [-> ->]. split; [done|]. split; [|done].
    rewrite <- (app_nil_r (trace r)) in Ht at 1. by apply app_inv_head in Ht.
  - apply perform_run in Hrun as [Hw Ht']. rewrite Ht in Ht'.
    apply app_inv_head in Ht' as ->.
    exists (comment +:+ d). split_and!; [done|done|reflexivity|].
    intros n Hn. destruct n as [|[|[|[|n]]]]; [reflexivity..|lia].
Qed.

Lemma hex_byte v :
  (a ← hexValue (hexDigit (N.shiftr (Byte.to_N v) 4));
   b ← hexValue (hexDigit (N.land (Byte.to_N v) 15));
   Byte.of_N (16 * a + b)) = Some v.
Proof. destruct v; vm_compute; reflexivity. Qed.

Lemma Decode_Encode bs : DecodeString (EncodeToString bs) = Some bs.
Proof.
  induction bs as [|v bs IH]; [done|].
  pose proof (hex_byte v) as Hv.
  cbn [EncodeToString DecodeString].
  destruct (hexValue (hexDigit (N.shiftr (Byte.to_N v) 4))) as [a|]; [|done].
  destruct (hexValue (hexDigit (N.land (Byte.to_N v) 15))) as [b|]; [|done].
  cbn [mbind option_bind] in Hv |- *. rewrite Hv. cbn [mbind option_bind].
  by rewrite IH.
Qed.

Lemma Encode_length bs : String.length (EncodeToString bs) = (2 * length bs)%nat.
Proof. induction bs as [|v bs IH]; [done|]. cbn [EncodeToString String.length length]. lia. Qed.

(** The key [hashPath] gives a path is the digest of its bytes in lower
    case hexadecimal, two digits for each byte: decoding it gives the
    digest back, so two paths get the same key exactly when their
    digests are the same. *)
Theorem hashPath_encodes_digest path :
  let digest := md5_Sum (String.list_byte_of_string path) in
  DecodeString (hashPath md5_Sum path) = Some digest ∧
  String.length (hashPath md5_Sum path) = (2 * length digest)%nat ∧
  ∀ path', hashPath md5_Sum path = hashPath md5_Sum path' ↔
           digest = md5_Sum (String.list_byte_of_string path').
Proof.
  intros digest. unfold hashPath. fold digest. split_and!.
  - apply Decode_Encode.
  - apply Encode_length.
  - intros path'. split; [|by intros <-].
    intros H. apply (f_equal DecodeString) in H.
    rewrite !Decode_Encode in H. by injection H.
Qed.

End CatalogFacts.

(** ** The helpers and the fetch *)

Section HelperFacts.
Import GoTime Harbor.
Context {W : Type} {Lb : Libraries} {Co : Collaborators W}.

(** Each of [createKey], [updateKey] and [deleteKey] builds one request:
    a [POST] of the pair to [url/envVars], a [PUT] of the pair to
    [url/envVar/name], a [DELETE] without a body to [url/envVar/key],
    each with the token and the user of the session in its header.
    When [http.NewRequest] refuses the URL, the helper panics and
    nothing is sent.  Otherwise it sends that one request and returns:
    [nil] exactly when the answer is a response of status 201 for the
    creation and 200 for the other two; an error of the transport as it
    is; and any other status as an error holding the status text. *)
Theorem helpers_build_one_request p key url auth (r : Run W Event) :
  let outcome (want : Z) (req : Request) (res : Outcome (option error) * Run W Event) :=
    http.Header req = [("x-token", Token auth); ("x-username", User auth);
                       ("Content-Type", "application/json")] ∧
    if decide (accepted req) then
      ∃ a err, res.1 = Returned err ∧
        client_Do req (world r) = (a, world res.2) ∧
        trace res.2 = trace r ++ [EvHTTP req a] ∧
        (err = None ↔ ∃ resp, a = inr resp ∧ http.StatusCode resp = want) ∧
        (∀ e, a = inl e → err = Some e) ∧
        (∀ resp, a = inr resp → http.StatusCode resp ≠ want →
                 err = Some (http.Status resp))
    else res = (Panicked, r) in
  outcome 201 (http.mkRequest http.POST (url +:+ "/envVars") (headers auth) (Some p))
          (createKey p url auth r) ∧
  outcome 200 (http.mkRequest http.PUT (url +:+ "/envVar/" +:+ pair_Name p)
                              (headers auth) (Some p))
          (updateKey p url auth r) ∧
  outcome 200 (http.mkRequest http.DELETE (url +:+ "/envVar/" +:+ key)
                              (headers auth) None)
          (deleteKey key url auth r).
Proof.
  assert (∀ want a, (expectStatus want a = None ↔
                       ∃ resp, a = inr resp ∧ http.StatusCode resp = want) ∧
                    (∀ e, a = inl e → expectStatus want a = Some e) ∧
                    (∀ resp, a = inr resp → http.StatusCode resp ≠ want →
                             expectStatus want a = Some (http.Status resp))) as Hexpect.
  { intros want [e|resp]; unfold expectStatus.
    - split_and!.
      + split; [done|]. intros (resp & Hr & _). discriminate Hr.
      + by intros ? [= ->].
      + intros resp Hr. discriminate Hr.
    - destruct (decide (http.StatusCode resp ≠ want)) as [Hs|Hs]; split_and!.
      + split; [done|]. intros (resp' & [= <-] & Hw). done.
      + intros e He. discriminate He.
      + by intros resp' [= <-] _.
      + split; [|done]. intros _. exists resp. split; [done|]. by apply dec_stable.
      + intros e He. discriminate He.
      + intros resp' [= <-] Hw. done. }
  intros outcome. unfold outcome.
  rewrite createKey_run, updateKey_run, deleteKey_run.
  fold (createRequest p url auth) (updateRequest p url auth) (deleteRequest key url auth).
  split_and!; try reflexivity.
  - destruct (decide (accepted (createRequest p url auth))) as [Hok|Hno]; [|done].
    destruct (client_Do (createRequest p url auth) (world r)) as [a w] eqn:Ha.
    exists a, (expectStatus http.StatusCreated a). split_and!; try done; apply Hexpect.
  - destruct (decide (accepted (updateRequest p url auth))) as [Hok|Hno]; [|done].
    destruct (client_Do (updateRequest p url auth) (world r)) as [a w] eqn:Ha.
    exists a, (expectStatus http.StatusOK a). split_and!; try done; apply Hexpect.
  - destruct (decide (accepted (deleteRequest key url auth))) as [Hok|Hno]; [|done].
    destruct (client_Do (deleteRequest key url auth) (world r)) as [a w] eqn:Ha.
    exists a, (expectStatus http.StatusOK a). split_and!; try done; apply Hexpect.
Qed.

(** The URL of the helpers is the URL of the fetch, followed by the
    container. *)
Theorem buildURL_extends_fetch_URL shipment auth :
  buildURL shipment
  = http.URL (getRequest shipment auth) +:+ "/container/" +:+ Container shipment.
Proof. unfold buildURL, getRequest. simpl http.URL. by rewrite !append_assoc. Qed.

Lemma insertAll_lookup (vars : list HEnvVar) :
  ∀ (m : gmap string harborKey) k,
    foldl (λ envVars envVar, <[HEnvVar_Name envVar := variable envVar]> envVars) m vars !! k
    = match last (filter (λ v, HEnvVar_Name v = k) vars) with
      | Some v => Some (variable v)
      | None => m !! k
      end.
Proof.
  induction vars as [|v vars IH]; intros m k; [done|].
  cbn [foldl]. rewrite IH.
  destruct (decide (HEnvVar_Name v = k)) as [Hk|Hk].
  - rewrite filter_cons_True by done. rewrite last_cons.
    destruct (last (filter _ vars)); [done|]. by rewrite <- Hk, lookup_insert_eq.
  - rewrite filter_cons_False by done.
    destruct (last (filter _ vars)); [done|]. by rewrite lookup_insert_ne.
Qed.

Lemma collectEnvVars_lookup container s k :
  collectEnvVars container s !! k
  = variable <$>
      last (filter (λ v, HEnvVar_Name v = k)
              (mjoin (EnvVars <$> filter (λ c, HContainers_Name c = container)
                                         (Containers s)))).
Proof.
  unfold collectEnvVars.
  change (λ envVars envVar,
            <[HEnvVar_Name envVar := mkKey (HEnvVar_Value envVar) (HEnvVar_Type envVar)]>
              envVars)
    with (λ envVars envVar, <[HEnvVar_Name envVar := variable envVar]> (envVars : gmap string harborKey)).
  assert (∀ cs (m : gmap string harborKey),
            foldl (λ envVars c,
                     if decide (HContainers_Name c = container)
                     then foldl (λ envVars envVar,
                                   <[HEnvVar_Name envVar := variable envVar]> envVars)
                                envVars (EnvVars c)
                     else envVars) m cs !! k
            = match last (filter (λ v, HEnvVar_Name v = k)
                            (mjoin (EnvVars <$> filter (λ c, HContainers_Name c = container) cs)))
              with
              | Some v => Some (variable v)
              | None => m !! k
              end) as H.
  { induction cs as [|c cs IH]; intros m; [done|].
    cbn [foldl]. rewrite IH. destruct (decide (HContainers_Name c = container)) as [Hc|Hc].
    - rewrite filter_cons_True by done. rewrite fmap_cons. cbn [mjoin list_join].
      rewrite filter_app, last_app.
      destruct (last (filter _ (mjoin _))); [done|]. apply insertAll_lookup.
    - by rewrite filter_cons_False. }
  rewrite H. by destruct (last _).
Qed.

(** [getHarborKeys] builds one request, the fetch.  When
    [http.NewRequest] refuses its URL, [getHarborKeys] panics and sends
    nothing.  Otherwise it sends the fetch and returns: the error of the
    transport, the status text of a response whose status is not 200, or
    the error of the decoding, and then no keys; otherwise the variables
    of the containers of the shipment that bear the name of the
    session's container, and of several variables of one name in those
    containers, the last one listed. *)
Theorem getHarborKeys_keeps_last_variable shipment auth (r : Run W Event) :
  match getHarborKeys shipment auth r with
  | (Panicked, r') => ¬ accepted (getRequest shipment auth) ∧ r' = r
  | (Returned (keys, err), r') =>
      accepted (getRequest shipment auth) ∧
      ∃ a, client_Do (getRequest shipment auth) (world r) = (a, world r') ∧
        trace r' = trace r ++ [EvHTTP (getRequest shipment auth) a] ∧
        match a with
        | inl e => keys = ∅ ∧ err = Some e
        | inr resp =>
            if decide (http.StatusCode resp = 200) then
              match http.Decoded resp with
              | inl e => keys = ∅ ∧ err = Some e
              | inr s =>
                  err = None ∧
                  ∀ k, keys !! k
                       = variable <$>
                           last (filter (λ v, HEnvVar_Name v = k)
                                   (mjoin (EnvVars <$>
                                             filter (λ c, HContainers_Name c = Container shipment)
                                                    (Containers s))))
              end
            else keys = ∅ ∧ err = Some (http.Status resp)
        end
  end.
Proof.
  rewrite getHarborKeys_run.
  destruct (decide (accepted (getRequest shipment auth))) as [Hok|Hno]; [|done].
  destruct (client_Do (getRequest shipment auth) (world r)) as [a w] eqn:Ha.
  destruct (decodeKeys (Container shipment) a) as [keys err] eqn:Hd.
  split; [done|]. exists a. split_and!; [done|done|].
  unfold decodeKeys in Hd. destruct a as [e|resp]; [by injection Hd as <- <-|].
  destruct (decide (http.StatusCode resp = 200)) as [Hs|Hs].
  - rewrite decide_False in Hd by (by intros ?).
    destruct (http.Decoded resp) as [e|s]; injection Hd as <- <-; [done|].
    split; [done|]. intros k. apply collectEnvVars_lookup.
  - rewrite decide_True in Hd by done. by injection Hd as <- <-.
Qed.

End HelperFacts.

(** ** More on [Pull] and [Push] *)

Section FetchFailures.
Import GoTime Harbor.
Context {W : Type} {RT : GoRuntime} {Pk : Package} {Lb : Libraries}
        {Co : Collaborators W}.

(** When the fetch of [Pull] fails, [Pull] returns its error with no
    bytes and the zero attributes, and the fetch is all it did: the clock
    is not read. *)
Theorem Pull_fails_with_fetch
    s contextKey file (r : Run W Event) contents attr err r' evs a keys e :
  Pull s contextKey file r = (Returned (contents, attr, err), r') →
  trace r' = trace r ++ evs →
  head evs = Some (EvHTTP (getRequest (Shipment s) (Auth s)) a) →
  decodeKeys (Container (Shipment s)) a = (keys, Some e) →
  err = Some e ∧ contents = "" ∧ attr = mkAttributes zeroTime ∧
  evs = [EvHTTP (getRequest (Shipment s) (Auth s)) a] ∧
  (a = inl e ∨
   ∃ resp, a = inr resp ∧
     (http.StatusCode resp ≠ 200 ∧ e = http.Status resp ∨
      http.StatusCode resp = 200 ∧ http.Decoded resp = inl e)).
Proof.
  intros Hrun Ht Hhead Hdecode.
  apply Pull_run in Hrun as (a' & w & Ha & Hcases).
  assert (a' = a) as ->.
  { destruct (decodeKeys (Container (Shipment s)) a') as [keys' [e'|]].
    - destruct Hcases as (_ & _ & _ & ->). simpl in Ht.
      apply app_inv_head in Ht as <-. by injection Hhead as ->.
    - destruct Hcases as (now & w' & _ & _ & _ & _ & ->). simpl in Ht.
      apply app_inv_head in Ht as <-. by injection Hhead as ->. }
  rewrite Hdecode in Hcases. destruct Hcases as (-> & -> & -> & ->).
  simpl in Ht. apply app_inv_head in Ht as <-. split_and!; try done.
  unfold decodeKeys in Hdecode. destruct a as [e'|resp].
  - left. by injection Hdecode as _ ->.
  - right. exists resp. split; [done|]. case_decide as Hs.
    + left. by injection Hdecode as _ ->.
    + right. split; [done|].
      destruct (http.Decoded resp); [|done]. by injection Hdecode as _ ->.
Qed.

(** [Pull] changes nothing on the service: the one request of a run of
    [Pull] is the fetch.  And when the fetched keys hold no time stamp,
    or one that cannot be read, [LastModified] is the instant [Pull] read
    from the clock after the fetch. *)
Theorem Pull_only_fetches
    s contextKey file (r : Run W Event) contents attr err r' evs :
  Pull s contextKey file r = (Returned (contents, attr, err), r') →
  trace r' = trace r ++ evs →
  ∃ a, exchanges http.GET evs = [(getRequest (Shipment s) (Auth s), a)] ∧
    sent http.POST evs = [] ∧ sent http.PUT evs = [] ∧ sent http.DELETE evs = [] ∧
    ∀ keys, decodeKeys (Container (Shipment s)) a = (keys, None) →
      ∃ now, last evs = Some (EvNow now) ∧
        ((keys !! modifiedToken = None ∨
          ∃ c, keys !! modifiedToken = Some c ∧
               Parse_modifiedLayout time_foreignZone (value c) = None) →
         LastModified attr = now).
Proof.
  intros Hrun Ht.
  apply Pull_run in Hrun as (a & w & Ha & Hcases). exists a.
  destruct (decodeKeys (Container (Shipment s)) a) as [keys' [e|]] eqn:Hd.
  - destruct Hcases as (_ & _ & _ & ->). simpl in Ht.
    apply app_inv_head in Ht as <-. split_and!; try done.
  - destruct Hcases as (now & w' & _ & _ & _ & -> & ->). simpl in Ht.
    apply app_inv_head in Ht as <-. split_and!; try done.
    intros keys [= <-]. exists now. split; [done|].
    intros [Hnone|(c & Hc & Hparse)].
    + by rewrite Hnone.
    + rewrite Hc. simpl. by rewrite Hparse.
Qed.

(** When the fetch of [Push] fails, [Push] returns the error of the
    fetch and stops there: the creation of every local key was
    requested, in the order of [range], and no deletion is. *)
Theorem Push_stops_at_failed_fetch
    s contextKey file fileData (r : Run W Event) data v err r' evs a keys e :
  Push s contextKey file fileData r = (Returned (data, v, err), r') →
  trace r' = trace r ++ evs →
  EvHTTP (getRequest (Shipment s) (Auth s)) a ∈ evs →
  decodeKeys (Container (Shipment s)) a = (keys, Some e) →
  err = Some e ∧
  last evs = Some (EvHTTP (getRequest (Shipment s) (Auth s)) a) ∧
  sent http.DELETE evs = [] ∧
  ∃ now, head evs = Some (EvNow now) ∧
    sent http.POST evs
    = (λ '(key, val), createRequest (pairOf file key val) (buildURL (Shipment s)) (Auth s))
        <$> go_range (localKeysAt fileData now).
Proof.
  intros Hrun Ht Hin Hdecode.
  apply Push_run in Hrun as (_ & evs' & Ht' & HP).
  rewrite Ht in Ht'. apply app_inv_head in Ht' as <-.
  destruct (Pushed_fetch _ _ _ _ _ _ _ HP Hin) as (now & ups & downs & -> & Hups & Hcase).
  rewrite Hdecode in Hcase. destruct Hcase as [-> ->].
  split; [done|]. split.
  { change (EvNow now :: ups ++ [EvHTTP (getRequest (Shipment s) (Auth s)) a])
      with ([EvNow now] ++ ups ++ [EvHTTP (getRequest (Shipment s) (Auth s)) a]).
    by rewrite !last_app. }
  split.
  { unfold sent. change (EvNow now :: ?l) with ([EvNow now] ++ l).
    rewrite !exchanges_app.
    rewrite (Upserts_only_upserts _ _ _ _ _ _ _ _ http.DELETE Hups) by auto.
    reflexivity. }
  exists now. split; [done|].
  { destruct (Upserts_posts _ _ _ _ _ _ _ _ Hups) as (n & Hposts & Hn).
    rewrite (Hn eq_refl), firstn_all in Hposts.
    change (EvNow now :: ?l) with ([EvNow now] ++ l).
    rewrite !sent_app, Hposts.
    assert (sent http.POST [EvNow now] = []) as -> by reflexivity.
    assert (sent http.POST [EvHTTP (getRequest (Shipment s) (Auth s)) a] = [])
      as -> by reflexivity.
    by rewrite app_nil_r. }
Qed.

(** The type [Push] gives a key is never the marker of a plain
    environment variable, unless that marker is [hidden] itself: so it
    is with every pair [Push] sends, and with every entry the returned
    metadata hold for a key that was written. *)
Theorem Push_sends_no_plain_marker
    s contextKey file fileData (r : Run W Event) data v err r' evs :
  Push s contextKey file fileData r = (Returned (data, v, err), r') →
  trace r' = trace r ++ evs →
  envVarType ≠ envTypeHidden →
  (∀ req a p, EvHTTP req a ∈ evs → http.Body req = Some p →
     pair_Type p ≠ envVarType) ∧
  (∀ key, key ∈ upserted evs → data !! addEnvVarPrefix key ≠ Some envVarType).
Proof.
  intros Hrun Ht Hmarker.
  assert (∀ j, keyTypeOf file j ≠ envVarType) as Hk.
  { intros j. unfold keyTypeOf. destruct (catalog.Data file !! j) as [t|]; [|done].
    case_decide; [done|]. intros Heq. by apply Hmarker. }
  apply Push_run in Hrun as (_ & evs' & Ht' & HP).
  rewrite Ht in Ht'. apply app_inv_head in Ht' as <-. split.
  - intros req a p Hin Hbody.
    destruct (Pushed_bodies _ _ _ _ _ _ HP _ _ _ Hin Hbody) as (now & val & _ & _ & ->).
    apply Hk.
  - intros key Hkey.
    destruct (Pushed_metadata _ _ _ _ _ _ HP) as (now & done & rest & _ & _ & Hup & -> & _).
    rewrite recordAll_lookup, decide_True.
    + intros [= H]. by apply (Hk (addEnvVarPrefix key)).
    + apply list_elem_of_fmap. exists key. by rewrite <- Hup.
Qed.

End FetchFailures.

Section TimeRoundTrip.
Import GoTime.

(** The text [String] gives for an instant in UTC of a year from 0 to
    9999 is read back by [Parse], with the layout of the adapter, as the
    same instant, whatever zones [Parse] knows; so the texts of two such
    instants are the same only when the instants are. *)
Theorem UTC_String_read_back foreignZone t :
  valid t →
  Parse_modifiedLayout foreignZone (UTC_String t) = Some t ∧
  ∀ t', valid t' → UTC_String t = UTC_String t' → t = t'.
Proof.
  intros Ht. split; [by apply Parse_UTC_String|].
  intros t' Ht' Heq.
  pose proof (Parse_UTC_String foreignZone t Ht) as H.
  rewrite Heq, (Parse_UTC_String foreignZone t' Ht') in H. by injection H.
Qed.

Lemma UTC_String_read_back_noon :
  Parse_modifiedLayout (λ _ _, None) "2024-01-01 12:00:00 +0000 UTC"
  = Some (mkTime 2024 1 1 12 0 0 0).
Proof.
  destruct (UTC_String_read_back (λ _ _, None) (mkTime 2024 1 1 12 0 0 0)) as [H _].
  - apply (bool_decide_unpack _). vm_compute. exact I.
  - exact H.
Defined.

End TimeRoundTrip.


Section MoreSamples.
Import GoTime Harbor Samples.
#[local] Existing Instances listed specPackage plainLibraries.

Ltac in_trace :=
  vm_compute; repeat first [apply list_elem_of_here | apply list_elem_of_further].

Lemma Write_keeps_document_disk :
  ∃ data, trace written.2 = [catalog.EvWriteFile "cstore.yml" data 420 None] ∧
          catalog.skipLines 4 data = "version: v3" +:+ LF.
Proof.
  pose proof (Write_keeps_document marshal disk "cstore.yml" ("version: v3" +:+ LF)
                (mkRun [] []) written.1 written.2 (trace written.2)
                (surjective_pairing written) eq_refl) as H.
  change (marshal ("version: v3" +:+ LF)) with (@inr error string ("version: v3" +:+ LF)) in H.
  destruct H as (data & Ht & _ & Hskip & _).
  exists data. split; [|exact Hskip].
  rewrite Ht. f_equal.
Defined.

Lemma Pull_fails_with_fetch_flaky :
  flakyPull.1.2 = Some "503 Service Unavailable" ∧
  flakyPull.1.1.1 = "" ∧
  trace flakyPull.2
  = [EvHTTP (getRequest (Shipment store) (Auth store)) (reply 503 "503 Service Unavailable")].
Proof.
  destruct (Pull_fails_with_fetch (W := Sandbox) (Co := flaky) store "ctx" xFile
              (start (service xVars [])) flakyPull.1.1.1 flakyPull.1.1.2 flakyPull.1.2
              flakyPull.2 (trace flakyPull.2) (reply 503 "503 Service Unavailable")
              ∅ "503 Service Unavailable")
    as (Herr & Hbytes & _ & Htrace & _).
  - apply (ran_eta3 ("", mkAttributes zeroTime, None)); [reflexivity|vm_compute; reflexivity].
  - reflexivity.
  - vm_compute. reflexivity.
  - reflexivity.
  - done.
Defined.

Lemma Pull_only_fetches_X :
  sent http.POST (trace xPull.2) = [] ∧ sent http.PUT (trace xPull.2) = [] ∧
  sent http.DELETE (trace xPull.2) = [] ∧
  sent http.GET (trace xPull.2) = [getRequest (Shipment store) (Auth store)].
Proof.
  destruct (Pull_only_fetches (W := Sandbox) (Co := sandbox) store "ctx" xFile
              (start (service xVars [])) xPull.1.1.1 xPull.1.1.2 xPull.1.2 xPull.2
              (trace xPull.2))
    as (a & Hget & Hpost & Hput & Hdelete & _).
  - apply (ran_eta3 ("", mkAttributes zeroTime, None)); [reflexivity|vm_compute; reflexivity].
  - reflexivity.
  - split_and!; [exact Hpost|exact Hput|exact Hdelete|unfold sent; by rewrite Hget].
Defined.

Lemma Push_stops_at_failed_fetch_flaky :
  flakyPush.1.2 = Some "503 Service Unavailable" ∧
  sent http.DELETE (trace flakyPush.2) = [] ∧
  length (sent http.POST (trace flakyPush.2)) = 2%nat.
Proof.
  destruct (Push_stops_at_failed_fetch (W := Sandbox) (Co := flaky) store "ctx"
              (fileWith ∅) fooText (start (service [] []))
              flakyPush.1.1.1 flakyPush.1.1.2 flakyPush.1.2 flakyPush.2
              (trace flakyPush.2) (reply 503 "503 Service Unavailable")
              ∅ "503 Service Unavailable")
    as (Herr & _ & Hdelete & now & _ & Hpost).
  - apply (ran_eta3 (∅, false, None)); [reflexivity|vm_compute; reflexivity].
  - reflexivity.
  - in_trace.
  - reflexivity.
  - split_and!; [exact Herr|exact Hdelete|]. vm_compute. reflexivity.
Defined.

Lemma Push_sends_no_plain_marker_abc :
  "a" ∈ upserted (trace abcPush.2) ∧ abcPush.1.1.1 !! "ENV_a" ≠ Some "ENV".
Proof.
  assert ("a" ∈ upserted (trace abcPush.2)) as Ha by in_trace.
  split; [exact Ha|].
  destruct (Push_sends_no_plain_marker (W := Sandbox) (Co := sandbox) store "ctx"
              (fileWith (list_to_map abcData)) abcText (start (service abcVars []))
              abcPush.1.1.1 abcPush.1.1.2 abcPush.1.2 abcPush.2 (trace abcPush.2))
    as [_ H].
  - apply (ran_eta3 (∅, false, None)); [reflexivity|vm_compute; reflexivity].
  - reflexivity.
  - discriminate.
  - exact (H "a" Ha).
Defined.

End MoreSamples.
